(** * abTEM: grid consistency, cache invalidation, waves and detectors

    A shallow embedding of the parts of abTEM that decide the behaviour of
    - [abtem/bases.py]   : [notify], [Observable], [Cache], [cached_method],
      [cached_method_with_args], [GridProperty], [Grid], [fftfreq],
      [linspace], [Energy], [ArrayWithGrid], [Image];
    - [abtem/device.py]  : [fft2_convolve], [fft2], [ifft2];
    - [abtem/detect.py]  : [crop_to_center], [calculate_far_field_intensity],
      [polar_regions], [AbstractDetector], [_PolarDetector],
      [AnnularDetector], [PixelatedDetector];
    - [abtem/waves/waves.py] : [Waves.apply_ctf], [Waves.multislice];
    - [abtem/core/axes.py] : the classes of axis metadata and [HasAxes].

    The first part of the file holds the definitions, module by module; the
    second part holds the properties, each main statement preceded by the
    lemmas it rests on.

    Conventions.
    - Floating point values (numpy [DTYPE]) are idealised as rationals [Q];
      results that numpy would report as [inf]/[nan] (division by zero) are
      outside the model, and the statements that depend on a quotient assume
      a non-zero divisor. The one exception is [polar_regions], whose labels
      depend on how a quotient is rounded: it is embedded on IEEE 754
      numbers ([SpecFloat] of the standard library).
    - A Python exception is a value of [exn]; a call that may raise returns a
      [result]; a method that mutates its object is a function from the old
      object to the new object and a [result], so that the object reached
      when an exception escapes is explicit.
    - A dict is a [gmap]; a numpy vector is a [list Q]. *)

From Stdlib Require Import QArith Qround Qabs ZArith List Bool Lia Field Sorted.
From Stdlib Require Import SpecFloat.
From stdpp Require Import gmap strings list fin_maps.

Local Open Scope Z_scope.

(* ===================================================================== *)
(** ** Python values, exceptions and the numpy fragment that is used      *)
(* ===================================================================== *)

Module Py.

(** The exception classes raised by the embedded code. [RecursionError] is
    what CPython raises when the interpreter's recursion limit is hit. *)
Inductive exn : Type :=
| RuntimeError (msg : string)
| RecursionError
| TypeError
| ValueError
| KeyError.

(** [RuntimeError()] raised without a message. *)
Definition no_message : string := EmptyString.

Inductive result (A : Type) : Type :=
| Ok (a : A)
| Raise (e : exn).
Arguments Ok {A} a.
Arguments Raise {A} e.

Definition bind {A B} (r : result A) (k : A -> result B) : result B :=
  match r with
  | Ok a => k a
  | Raise e => Raise e
  end.

Definition raises {A} (r : result A) : Prop := exists e, r = Raise e.

(** The values a grid attribute or a setter argument can take: [None], a
    Python number, or a one-dimensional array (list, tuple or ndarray). *)
Inductive pyval : Type :=
| PNone
| PScalar (q : Q)
| PArray (xs : list Q).

Definition is_None (v : pyval) : bool :=
  match v with PNone => true | _ => false end.

Definition of_option (o : option (list Q)) : pyval :=
  match o with Some xs => PArray xs | None => PNone end.

(** numpy broadcasting of two one-dimensional operands. *)
Fixpoint zip_with_Q (f : Q -> Q -> Q) (xs ys : list Q) : list Q :=
  match xs, ys with
  | x :: xs', y :: ys' => f x y :: zip_with_Q f xs' ys'
  | _, _ => []
  end.

Definition broadcast (f : Q -> Q -> Q) (xs ys : list Q) : result (list Q) :=
  if Nat.eqb (length xs) (length ys) then Ok (zip_with_Q f xs ys)
  else match xs, ys with
       | [x], _ => Ok (List.map (f x) ys)
       | _, [y] => Ok (List.map (fun x => f x y) xs)
       | _, _ => Raise ValueError
       end.

(** An arithmetic operator applied to two values; [None] is not a number. *)
Definition binop (f : Q -> Q -> Q) (a b : pyval) : result pyval :=
  match a, b with
  | PNone, _ | _, PNone => Raise TypeError
  | PScalar x, PScalar y => Ok (PScalar (f x y))
  | PScalar x, PArray ys => Ok (PArray (List.map (f x) ys))
  | PArray xs, PScalar y => Ok (PArray (List.map (fun x => f x y) xs))
  | PArray xs, PArray ys =>
      match broadcast f xs ys with
      | Ok zs => Ok (PArray zs)
      | Raise e => Raise e
      end
  end.

Definition unop (f : Q -> Q) (a : pyval) : result pyval :=
  match a with
  | PNone => Raise TypeError
  | PScalar x => Ok (PScalar (f x))
  | PArray xs => Ok (PArray (List.map f xs))
  end.

(** [astype(int)]: truncation towards zero. *)
Definition trunc (q : Q) : Z :=
  if Qle_bool 0 q then Qfloor q else Qceiling q.

Definition ceil_int (q : Q) : Q := inject_Z (Qceiling q).

Definition Qneq_bool (x y : Q) : bool := negb (Qeq_bool x y).

(** [np.any(a != b)]. Comparing with [None] is elementwise true. *)
Definition any_ne (a b : pyval) : result bool :=
  match a, b with
  | PNone, PNone => Ok false
  | PNone, PScalar _ | PScalar _, PNone => Ok true
  | PNone, PArray xs | PArray xs, PNone =>
      Ok (match xs with [] => false | _ => true end)
  | PScalar x, PScalar y => Ok (Qneq_bool x y)
  | PScalar x, PArray ys => Ok (existsb (Qneq_bool x) ys)
  | PArray xs, PScalar y => Ok (existsb (fun x => Qneq_bool x y) xs)
  | PArray xs, PArray ys =>
      match broadcast (fun x y => if Qneq_bool x y then 1%Q else 0%Q) xs ys with
      | Ok zs => Ok (existsb (fun z => Qneq_bool z 0) zs)
      | Raise e => Raise e
      end
  end.

End Py.

Import Py.

Notation "'let*' x ':=' r 'in' k" := (Py.bind r (fun x => k))
  (at level 10, x name, r at level 200, k at level 200, only parsing).

(* ===================================================================== *)
(** ** [bases.py]: the cache and its invalidation                          *)
(* ===================================================================== *)

(** The dictionary an observable hands to its observers. *)
Record message : Type := Message { notifier : string; change : bool }.

Module CacheModel.

Section WithData.

(** The cached data are arbitrary Python objects. *)
Context {Data : Type}.

Record Cache : Type := MkCache {
  _cache : gmap string Data;
  _clear_conditions : gmap string (option (list string))
}.

Definition empty : Cache := MkCache ∅ ∅.

Definition retrieve_from_cache (c : Cache) (key : string) : result Data :=
  match _cache c !! key with
  | Some d => Ok d
  | None => Raise KeyError
  end.

Definition update_cache (key : string) (data : Data)
    (clear_condition : option (list string)) (c : Cache) : Cache :=
  MkCache (<[key := data]> (_cache c))
          (<[key := clear_condition]> (_clear_conditions c)).

(** The body of the loop over [_clear_conditions.items()]: does this entry
    go on the [pop] list? *)
Definition selected (name : string) (conditions : option (list string)) : bool :=
  match conditions with
  | None => true
  | Some names => bool_decide (name ∈ names)
  end.

Definition pop_list (msg : message) (c : Cache) : list string :=
  if change msg then
    List.map fst
      (List.filter (fun kc => selected (notifier msg) (snd kc))
                   (map_to_list (_clear_conditions c)))
  else [].

Definition pop_key (c : Cache) (key : string) : Cache :=
  MkCache (delete key (_cache c)) (delete key (_clear_conditions c)).

Definition notify (msg : message) (c : Cache) : Cache :=
  foldl pop_key c (pop_list msg c).

Definition clear_cache (c : Cache) : Cache :=
  MkCache ∅ (_clear_conditions c).

End WithData.

Arguments Cache : clear implicits.

End CacheModel.

(* ===================================================================== *)
(** ** A state-and-exception monad for methods that mutate their object   *)
(* ===================================================================== *)

(** [M S A]: a computation on an object (or a group of objects) of type [S]
    that returns an [A] or raises; the object it leaves behind is part of
    the outcome in both cases, as in Python. *)
Definition M (S A : Type) : Type := S -> S * result A.

Definition mret {S A} (a : A) : M S A := fun s => (s, Ok a).

Definition mbind {S A B} (m : M S A) (k : A -> M S B) : M S B :=
  fun s =>
    match m s with
    | (s', Ok a) => k a s'
    | (s', Raise e) => (s', Raise e)
    end.

Definition raise {S A} (e : exn) : M S A := fun s => (s, Raise e).

(** A pure, possibly raising, read of the object. *)
Definition read {S A} (f : S -> result A) : M S A := fun s => (s, f s).

Definition lift {S A} (r : result A) : M S A := fun s => (s, r).

Definition skip {S} : M S unit := mret tt.

(** Run a method of the first (second) object of a pair. *)
Definition on_fst {S T A} (m : M S A) : M (S * T) A :=
  fun st => let '(s', r) := m (fst st) in ((s', snd st), r).

Definition on_snd {S T A} (m : M T A) : M (S * T) A :=
  fun st => let '(t', r) := m (snd st) in ((fst st, t'), r).

Notation "'do*' x ':=' m 'in' k" := (mbind m (fun x => k))
  (at level 10, x name, m at level 200, k at level 200, only parsing).

(* ===================================================================== *)
(** ** [bases.py]: [GridProperty] and [Grid]                               *)
(* ===================================================================== *)

Module GridModel.

(** [DTYPE] (a float type) for extent and sampling, [np.int] for gpts. *)
Inductive dtype : Type := DFloat | DInt.

Definition astype (d : dtype) (q : Q) : Q :=
  match d with
  | DFloat => q
  | DInt => inject_Z (trunc q)
  end.

Record GridProperty : Type := MkProp {
  _dtype : dtype;
  _dimensions : nat;
  _value : option (list Q);
  _locked : bool
}.

Definition _validate (d : dtype) (dims : nat) (value : pyval)
  : result (option (list Q)) :=
  match value with
  | PArray xs =>
      if negb (Nat.eqb (length xs) dims)
      then Raise (RuntimeError "grid value length")
      else Ok (Some (List.map (astype d) xs))
  | PScalar q => Ok (Some (repeat (astype d q) dims))
  | PNone => Ok None
  end.

(** [GridProperty.__init__]. *)
Definition GridProperty_init (value : pyval) (d : dtype) (locked : bool)
    (dims : nat) : result GridProperty :=
  let* v := _validate d dims value in
  Ok (MkProp d dims v locked).

(** The [value] property: getter and setter. *)
Definition value (p : GridProperty) : pyval := of_option (_value p).

Definition set_value (v : pyval) : M GridProperty unit :=
  fun p =>
    if _locked p then (p, Raise (RuntimeError "grid property locked"))
    else match _validate (_dtype p) (_dimensions p) v with
         | Ok v' => (MkProp (_dtype p) (_dimensions p) v' (_locked p), Ok tt)
         | Raise e => (p, Raise e)
         end.

Definition GridProperty_copy (p : GridProperty) : result GridProperty :=
  GridProperty_init (value p) (_dtype p) false (_dimensions p).

Record Grid : Type := MkGrid {
  dimensions : nat;
  endpoint : bool;
  _extent : GridProperty;
  _gpts : GridProperty;
  _sampling : GridProperty
}.

Definition with_extent (g : Grid) (p : GridProperty) : Grid :=
  MkGrid (dimensions g) (endpoint g) p (_gpts g) (_sampling g).
Definition with_gpts (g : Grid) (p : GridProperty) : Grid :=
  MkGrid (dimensions g) (endpoint g) (_extent g) p (_sampling g).
Definition with_sampling (g : Grid) (p : GridProperty) : Grid :=
  MkGrid (dimensions g) (endpoint g) (_extent g) (_gpts g) p.

(** [self._extent.value = v] and its two siblings. *)
Definition write_extent (v : pyval) : M Grid unit :=
  fun g => let '(p, r) := set_value v (_extent g) in (with_extent g p, r).
Definition write_gpts (v : pyval) : M Grid unit :=
  fun g => let '(p, r) := set_value v (_gpts g) in (with_gpts g p, r).
Definition write_sampling (v : pyval) : M Grid unit :=
  fun g => let '(p, r) := set_value v (_sampling g) in (with_sampling g p, r).

(** The three closed forms. *)
Definition _adjusted_extent (ep : bool) (gpts sampling : pyval) : result pyval :=
  if ep then
    let* g1 := binop Qminus gpts (PScalar 1) in
    binop Qmult g1 sampling
  else binop Qmult gpts sampling.

Definition _adjusted_gpts (ep : bool) (extent sampling : pyval) : result pyval :=
  let* r := binop Qdiv extent sampling in
  let* c := unop ceil_int r in
  if ep then binop Qplus c (PScalar 1) else Ok c.

Definition _adjusted_sampling (ep : bool) (extent gpts : pyval) : result pyval :=
  if ep then
    let* g1 := binop Qminus gpts (PScalar 1) in
    binop Qdiv extent g1
  else binop Qdiv extent gpts.

(** The property getters call one another; [fuel] is the depth of Python
    frames still available, and running out of it is [RecursionError]. *)
Fixpoint get_extent (fuel : nat) (g : Grid) : result pyval :=
  match fuel with
  | O => Raise RecursionError
  | S n =>
      if _locked (_gpts g) && _locked (_sampling g) then
        let* p := get_gpts n g in
        let* s := get_sampling n g in
        _adjusted_extent (endpoint g) p s
      else Ok (value (_extent g))
  end
with get_gpts (fuel : nat) (g : Grid) : result pyval :=
  match fuel with
  | O => Raise RecursionError
  | S n =>
      if _locked (_extent g) && _locked (_sampling g) then
        let* e := get_extent n g in
        let* s := get_sampling n g in
        _adjusted_sampling (endpoint g) e s
      else Ok (value (_gpts g))
  end
with get_sampling (fuel : nat) (g : Grid) : result pyval :=
  match fuel with
  | O => Raise RecursionError
  | S n =>
      if _locked (_extent g) && _locked (_gpts g) then
        let* e := get_extent n g in
        let* p := get_gpts n g in
        _adjusted_sampling (endpoint g) e p
      else Ok (value (_sampling g))
  end.

(** CPython's default recursion limit. *)
Definition recursion_limit : nat := 1000.

Definition extent (g : Grid) : result pyval := get_extent recursion_limit g.
Definition gpts (g : Grid) : result pyval := get_gpts recursion_limit g.
Definition sampling (g : Grid) : result pyval := get_sampling recursion_limit g.

(** The [notify] decorator of a setter named [name]: read the old value,
    run the setter, compare the old value with the argument and broadcast
    the message, which is returned here. *)
Definition notify (name : string) (getter : Grid -> result pyval)
    (func : pyval -> M Grid unit) (v : pyval) : M Grid message :=
  do* old := read getter in
  do* _ := func v in
  do* ch := lift (any_ne old v) in
  mret (Message name ch).

Definition both_locked (p q : GridProperty) : bool := _locked p && _locked q.

(** The undecorated body of [Grid.extent.setter]. *)
Definition extent_setter (v : pyval) : M Grid unit :=
  do* g := read (fun g => Ok g) in
  if both_locked (_gpts g) (_sampling g) then raise (RuntimeError no_message)
  else
    do* _ :=
    (do* p := read gpts in
     if negb (_locked (_sampling g) || is_None v || is_None p) then
       do* s := lift (_adjusted_sampling (endpoint g) v p) in
       write_sampling s
     else
       do* s := read sampling in
       if negb (_locked (_gpts g) || is_None v || is_None s) then
         do* p' := lift (_adjusted_gpts (endpoint g) v s) in
         do* _ := write_gpts p' in
         do* p'' := read gpts in
         do* s' := lift (_adjusted_sampling (endpoint g) v p'') in
         write_sampling s'
       else skip) in
    write_extent v.

(** The undecorated body of [Grid.gpts.setter]. *)
Definition gpts_setter (v : pyval) : M Grid unit :=
  do* g := read (fun g => Ok g) in
  if both_locked (_extent g) (_sampling g) then raise (RuntimeError no_message)
  else
    do* _ :=
    (do* e := read extent in
     if negb (_locked (_sampling g) || is_None e || is_None v) then
       do* s := lift (_adjusted_sampling (endpoint g) e v) in
       write_sampling s
     else
       do* s := read sampling in
       if negb (_locked (_extent g) || is_None v || is_None s) then
         do* e' := lift (_adjusted_extent (endpoint g) v s) in
         write_extent e'
       else skip) in
    write_gpts v.

(** The undecorated body of [Grid.sampling.setter]; the first branch
    rebinds [value], so the branches return the value to store. *)
Definition sampling_setter (v : pyval) : M Grid unit :=
  do* g := read (fun g => Ok g) in
  if both_locked (_gpts g) (_extent g) then raise (RuntimeError no_message)
  else
    do* v' :=
      (do* e := read extent in
       if negb (_locked (_gpts g) || is_None e || is_None v) then
         do* p := lift (_adjusted_gpts (endpoint g) e v) in
         do* _ := write_gpts p in
         do* e' := read extent in
         do* p' := read gpts in
         lift (_adjusted_sampling (endpoint g) e' p')
       else
         do* p := read gpts in
         if negb (_locked (_extent g) || is_None p || is_None v) then
           do* e' := lift (_adjusted_extent (endpoint g) p v) in
           do* _ := write_extent e' in
           mret v
         else mret v) in
    write_sampling v'.

Definition set_extent : pyval -> M Grid message := notify "extent" extent extent_setter.
Definition set_gpts : pyval -> M Grid message := notify "gpts" gpts gpts_setter.
Definition set_sampling : pyval -> M Grid message := notify "sampling" sampling sampling_setter.

(** A constructor argument is [None], a number, a sequence, or an already
    built [GridProperty] (the [isinstance] test of [__init__]). *)
Inductive init_arg : Type :=
| Raw (v : pyval)
| AsProperty (p : GridProperty).

Definition arg_is_None (a : init_arg) : bool :=
  match a with Raw PNone => true | _ => false end.

Definition property_of (a : init_arg) (d : dtype) (dims : nat)
  : result GridProperty :=
  match a with
  | AsProperty p => Ok p
  | Raw v => GridProperty_init v d false dims
  end.

(** The statements of [Grid.__init__] after the three attributes are set. *)
Definition init_body (extent0 gpts0 : init_arg) (ep : bool) : M Grid unit :=
  do* e := read extent in
  do* _ :=
    (if is_None e then
       do* p := read gpts in
       do* s := read sampling in
       if negb (is_None p || is_None s) then
         do* v := lift (_adjusted_extent ep p s) in write_extent v
       else skip
     else skip) in
  do* p := read gpts in
  do* _ :=
    (if is_None p then
       do* e := read extent in
       do* s := read sampling in
       if negb (is_None e || is_None s) then
         do* v := lift (_adjusted_gpts ep e s) in write_gpts v
       else skip
     else skip) in
  do* s := read sampling in
  do* _ :=
    (if is_None s then
       do* e := read extent in
       do* p := read gpts in
       if negb (is_None e || is_None p) then
         do* v := lift (_adjusted_sampling ep e p) in write_sampling v
       else skip
     else skip) in
  do* p := read gpts in
  do* _ :=
    (if negb (arg_is_None extent0) && negb (is_None p) then
       do* e := read extent in
       do* v := lift (_adjusted_sampling ep e p) in write_sampling v
     else skip) in
  do* e := read extent in
  if negb (arg_is_None gpts0) && negb (is_None e) then
    do* p := read gpts in
    do* v := lift (_adjusted_sampling ep e p) in write_sampling v
  else skip.

(** [Grid.__init__]: no object is produced when the constructor raises. *)
Definition Grid_init (extent0 gpts0 sampling0 : init_arg) (dims : nat)
    (ep : bool) : result Grid :=
  let* pe := property_of extent0 DFloat dims in
  let* pg := property_of gpts0 DInt dims in
  let* ps := property_of sampling0 DFloat dims in
  match init_body extent0 gpts0 ep (MkGrid dims ep pe pg ps) with
  | (g, Ok _) => Ok g
  | (_, Raise e) => Raise e
  end.

Definition check_is_grid_defined (g : Grid) : result unit :=
  let* e := extent g in
  if is_None e then Raise (RuntimeError "grid extent is not defined")
  else
    let* p := gpts g in
    if is_None p then Raise (RuntimeError "grid gpts is not defined")
    else Ok tt.

(** [self.check_grids_can_match(other)], a pure test of the pair
    [(self, other)]. *)
Definition check_grids_can_match (self other : Grid) : result unit :=
  let* se := extent self in
  let* oe := extent other in
  let* de := any_ne se oe in
  if negb (is_None se) && negb (is_None oe) && de
  then Raise (RuntimeError "inconsistent grid extent")
  else
    let* sp := gpts self in
    let* op := gpts other in
    let* dp := any_ne sp op in
    if negb (is_None sp) && negb (is_None op) && dp
    then Raise (RuntimeError "inconsistent grid gpts")
    else Ok tt.

(** [self.match_grid(other)] on the pair [(self, other)] of two distinct
    objects: the check, then the statement on the extents, then the
    statement on the gpts. *)
Definition match_extent : M (Grid * Grid) unit :=
  do* se := read (fun so => extent (fst so)) in
  do* oe := read (fun so => extent (snd so)) in
  if is_None se && is_None oe
  then raise (RuntimeError "grid extent cannot be inferred")
  else if is_None se
  then do* _ := on_fst (set_extent oe) in skip
  else if is_None oe
  then do* _ := on_snd (set_extent se) in skip
  else skip.

Definition match_gpts : M (Grid * Grid) unit :=
  do* sp := read (fun so => gpts (fst so)) in
  do* op := read (fun so => gpts (snd so)) in
  if is_None sp && is_None op
  then raise (RuntimeError "grid gpts cannot be inferred")
  else if is_None sp
  then do* _ := on_fst (set_gpts op) in skip
  else if is_None op
  then do* _ := on_snd (set_gpts sp) in skip
  else skip.

Definition match_grid : M (Grid * Grid) unit :=
  do* _ := read (fun so => check_grids_can_match (fst so) (snd so)) in
  do* _ := match_extent in
  match_gpts.

End GridModel.

(* ===================================================================== *)
(** ** The closed-form relation between extent, gpts and sampling          *)
(* ===================================================================== *)

Module GridRelation.

Import GridModel.

(** The count that enters the closed forms: [gpts], or [gpts - 1] when the
    grid includes its endpoint. *)
Definition adjusted_count (ep : bool) (p : list Q) : list Q :=
  if ep then List.map (fun x => x - 1)%Q p else p.

(** [ceil(extent / sampling)], plus one with the endpoint. *)
Definition ceil_count (ep : bool) (r : Q) : Q :=
  if ep then (ceil_int r + 1)%Q else ceil_int r.

(** [extent = gpts * sampling] componentwise ([(gpts - 1) * sampling] with
    the endpoint). *)
Definition relation (ep : bool) (e p s : list Q) : Prop :=
  Forall3 (fun x y z => x == y * z)%Q e (adjusted_count ep p) s.

(** The relation on the values stored in a grid. *)
Definition stored_relation (g : Grid) : Prop :=
  exists e p s,
    _value (_extent g) = Some e /\
    _value (_gpts g) = Some p /\
    _value (_sampling g) = Some s /\
    relation (endpoint g) e p s.

(** Admissible inputs: a positive length, and a whole number of grid points
    that leaves at least one interval. *)
Definition positive (x : Q) : bool := negb (Qle_bool x 0).

Definition is_count (ep : bool) (x : Q) : bool :=
  Pos.eqb (Qden x) 1 && Z.leb (if ep then 2 else 1) (Qnum x).

(** A number, or a sequence with one entry per dimension, whose entries all
    pass the test [ok]. *)
Definition vector_of (dims : nat) (ok : Q -> bool) (v : pyval) : bool :=
  match v with
  | PNone => false
  | PScalar q => ok q
  | PArray xs => Nat.eqb (length xs) dims && forallb ok xs
  end.

(** The grids under consideration: built by the constructor from two of the
    three quantities, then changed by any number of successful setter calls. *)
Inductive reachable : Grid -> Prop :=
| from_extent_gpts dims ep e p g :
    vector_of dims positive e = true ->
    vector_of dims (is_count ep) p = true ->
    Grid_init (Raw e) (Raw p) (Raw PNone) dims ep = Ok g ->
    reachable g
| from_extent_sampling dims ep e s g :
    vector_of dims positive e = true ->
    vector_of dims positive s = true ->
    Grid_init (Raw e) (Raw PNone) (Raw s) dims ep = Ok g ->
    reachable g
| from_gpts_sampling dims ep p s g :
    vector_of dims (is_count ep) p = true ->
    vector_of dims positive s = true ->
    Grid_init (Raw PNone) (Raw p) (Raw s) dims ep = Ok g ->
    reachable g
| after_set_extent g v g' m :
    reachable g ->
    vector_of (dimensions g) positive v = true ->
    set_extent v g = (g', Ok m) ->
    reachable g'
| after_set_gpts g v g' m :
    reachable g ->
    vector_of (dimensions g) (is_count (endpoint g)) v = true ->
    set_gpts v g = (g', Ok m) ->
    reachable g'
| after_set_sampling g v g' m :
    reachable g ->
    vector_of (dimensions g) positive v = true ->
    set_sampling v g = (g', Ok m) ->
    reachable g'.

(** The sequence a constructor or setter argument stands for. *)
Definition as_vector (dims : nat) (v : pyval) : list Q :=
  match v with
  | PNone => []
  | PScalar q => repeat q dims
  | PArray xs => xs
  end.

(** What the proofs carry along: nothing is locked, the three properties
    have their types and the dimension of the grid, all three values are
    defined, admissible and related. *)
Record consistent (g : Grid) (e p s : list Q) : Prop := {
  c_unlocked : _locked (_extent g) = false /\ _locked (_gpts g) = false /\
               _locked (_sampling g) = false;
  c_dtype : _dtype (_extent g) = DFloat /\ _dtype (_gpts g) = DInt /\
            _dtype (_sampling g) = DFloat;
  c_dims : _dimensions (_extent g) = dimensions g /\
           _dimensions (_gpts g) = dimensions g /\
           _dimensions (_sampling g) = dimensions g;
  c_values : _value (_extent g) = Some e /\ _value (_gpts g) = Some p /\
             _value (_sampling g) = Some s;
  c_lengths : length e = dimensions g /\ length p = dimensions g /\
              length s = dimensions g;
  c_extent : forallb positive e = true;
  c_gpts : forallb (is_count (endpoint g)) p = true;
  c_sampling : forallb positive s = true;
  c_relation : relation (endpoint g) e p s
}.

(** A grid as the constructor makes it from numbers and sequences, or as
    an array with a grid makes it (gpts locked to the shape of the array):
    extent and sampling are not locked, the properties have their types and
    the dimension of the grid, and a stored gpts is made of whole numbers. *)
Record plain (g : Grid) : Prop := {
  p_unlocked : _locked (_extent g) = false /\ _locked (_sampling g) = false;
  p_dtype : _dtype (_extent g) = DFloat /\ _dtype (_gpts g) = DInt /\
            _dtype (_sampling g) = DFloat;
  p_dims : _dimensions (_extent g) = dimensions g /\
           _dimensions (_gpts g) = dimensions g /\
           _dimensions (_sampling g) = dimensions g;
  p_extent : forall e, _value (_extent g) = Some e -> length e = dimensions g;
  p_gpts : forall p, _value (_gpts g) = Some p ->
             length p = dimensions g /\ List.map (astype DInt) p = p;
  p_sampling : forall s, _value (_sampling g) = Some s -> length s = dimensions g
}.

(** [match_grid] hands an extent to the grid [r], which has none; [r] has a
    sampling but no gpts, so that its extent setter derives a gpts from the
    two, while the other grid [o] has a gpts of its own. *)
Definition derives_gpts (r o : Grid) : Prop :=
  _value (_extent r) = None /\ _value (_gpts r) = None /\
  _locked (_gpts r) = false /\
  _value (_sampling r) <> None /\ _value (_gpts o) <> None.

(** What the extent setter does to the gpts of a grid [r], giving [r']: it
    keeps it, or, when [r] has a sampling and no gpts, derives one. *)
Definition gpts_kept_or_derived (r r' : Grid) : Prop :=
  _value (_gpts r') = _value (_gpts r) \/
  (_value (_gpts r) = None /\ _locked (_gpts r) = false /\
   _value (_sampling r) <> None).

(** [np.any(a != b)] on two arrays of the same length. *)
Definition vectors_differ (xs ys : list Q) : bool :=
  existsb (fun z => Qneq_bool z 0)
          (zip_with_Q (fun x y => if Qneq_bool x y then 1%Q else 0%Q) xs ys).

(** Two vectors with the same entries, as compared by [==] on numbers. *)
Definition same_vector (o1 o2 : option (list Q)) : Prop :=
  exists xs ys, o1 = Some xs /\ o2 = Some ys /\ Forall2 Qeq xs ys.

End GridRelation.

(* ===================================================================== *)
(** ** [bases.py]: [Energy]; the [Accelerator] used by [waves.py]          *)
(* ===================================================================== *)

Module EnergyModel.

(** Python's [a != b] on two optional floats. *)
Definition energy_ne (a b : option Q) : bool :=
  match a, b with
  | None, None => false
  | Some x, Some y => Qneq_bool x y
  | _, _ => true
  end.

Record Energy : Type := MkEnergy { _energy : option Q }.

Definition energy (e : Energy) : option Q := _energy e.

Definition set_energy (v : option Q) : M Energy message :=
  fun e => (MkEnergy v, Ok (Message "energy" (energy_ne (energy e) v))).

Definition check_is_energy_defined (e : Energy) : result unit :=
  match energy e with
  | None => Raise (RuntimeError "energy is not defined")
  | Some _ => Ok tt
  end.

(** [Energy.check_same_energy] of [bases.py]. *)
Definition check_same_energy (self other : Energy) : result unit :=
  if energy_ne (energy self) (energy other)
  then Raise (RuntimeError "inconsistent energies")
  else Ok tt.

(** Modelled from the spec: [Accelerator.check_match], [Accelerator.match]
    and [Accelerator.check_is_defined] of [abtem.basic.energy], a module
    that is not among the sources. The spec has an energy holder that is a
    scalar or undefined, a [match] that synchronises two objects by
    propagating whichever value is defined to the object where it is
    undefined, fails if neither side defines it, and (when asked to check)
    fails with a consistency error if both define it and the values differ.
    For a [match] without check between two defined energies the spec has
    no words. [apply_ctf] makes that call when the energy of the CTF is
    [0.0] (its guard is [if not ctf.accelerator.energy]), to give the CTF
    the energy of the wave; the model therefore follows the module as
    released, [if other.energy is None: other.energy = self.energy] and
    [else: self.energy = other.energy]: [self] takes the energy of [other]
    whenever [other] defines one. *)
Definition check_match (self other : Energy) : result unit :=
  match energy self, energy other with
  | Some x, Some y =>
      if Qneq_bool x y then Raise (RuntimeError "inconsistent energies")
      else Ok tt
  | _, _ => Ok tt
  end.


Definition match_energy (check : bool) : M (Energy * Energy) unit :=
  fun so =>
    let '(self, other) := so in
    match (if check then check_match self other else Ok tt) with
    | Raise e => (so, Raise e)
    | Ok _ =>
        match energy self, energy other with
        | None, None => (so, Raise (RuntimeError "energy cannot be inferred"))
        | Some x, None => ((self, MkEnergy (Some x)), Ok tt)
        | _, Some y => ((MkEnergy (Some y), other), Ok tt)
        end
    end.

(** Python truthiness of an optional float: [None] and [0.0] are false. *)
Definition truthy (e : option Q) : bool :=
  match e with
  | None => false
  | Some x => Qneq_bool x 0
  end.

Definition swap {A B} (p : A * B) : B * A := (snd p, fst p).

(** The energy statements that open [Waves.apply_ctf], on the pair
    (accelerator of the wave, accelerator of the CTF):
    [if not ctf.accelerator.energy: ctf.accelerator.match(self.accelerator)],
    [self.accelerator.match(ctf.accelerator, check_match=True)],
    [self.accelerator.check_is_defined()]. *)
Definition apply_ctf_energy : M (Energy * Energy) unit :=
  do* wc := read (fun wc => Ok wc) in
  do* _ :=
    (if negb (truthy (energy (snd wc))) then
       fun wc' => let '(cw, r) := match_energy false (swap wc') in (swap cw, r)
     else skip) in
  do* _ := match_energy true in
  read (fun wc' => check_is_energy_defined (fst wc')).

End EnergyModel.

(* ===================================================================== *)
(** ** [waves/waves.py]: [Waves] and its [multislice] method               *)
(* ===================================================================== *)

Module WavesModel.

Import EnergyModel.

(** An entry of [extra_axes_metadata], e.g.
    [{'label': 'frozen_phonons', 'type': 'ensemble'}]. *)
Record axis_metadata : Type := MkAxis { label : string; type : string }.

Section WithArrays.

(** The array backend and the potential are external collaborators: the
    array type with its shape, the stacking of arrays along a new leading
    axis, the potential with its frozen phonon realizations, the action of
    the propagation engine on the array content, and the validation of the
    potential against the wave (which fails on a grid or energy mismatch). *)
Variable Arr : Type.
Variable shape : Arr -> list nat.
Variable stack : list Arr -> Arr.
Variable copy_array : Arr -> Arr.
Variable Potential : Type.
Variable num_frozen_phonons : Potential -> nat.
Variable frozen_phonon_potentials : Potential -> list Potential.
Variable propagate : Arr -> Potential -> nat -> Arr.

Record Waves : Type := MkWaves {
  array : Arr;
  extent : pyval;
  energy : option Q;
  tilt : Q * Q;
  antialias_aperture : Q;
  extra_axes_metadata : list axis_metadata
}.

Variable _validate_potential : Waves -> Potential -> result Potential.

(** [Waves.__init__] with its defaults [tilt=(0., 0.)],
    [antialias_aperture=2 / 3.] and [extra_axes_metadata=None] made
    explicit by the callers below. *)
Definition Waves_init (a : Arr) (en : option Q) (ex : pyval) (t : Q * Q)
    (aa : Q) (meta : list axis_metadata) : result Waves :=
  if Nat.ltb (length (shape a)) 2
  then Raise (RuntimeError "Wave function array should be have 2 dimensions or more")
  else Ok (MkWaves a ex en t aa meta).

Definition default_tilt : Q * Q := (0%Q, 0%Q).
Definition default_antialias_aperture : Q := (2 # 3)%Q.

(** [Waves.__copy__]: extent is not passed to the constructor, the grid and
    the accelerator are copied over afterwards. *)
Definition Waves_copy (w : Waves) : result Waves :=
  let* c := Waves_init (copy_array (array w)) (energy w) PNone (tilt w)
                       (antialias_aperture w) [] in
  Ok (MkWaves (array c) (extent w) (energy w) (tilt c) (antialias_aperture c)
              (extra_axes_metadata c)).

(** Modelled from the spec: the engine [abtem.waves.multislice.multislice], a
    module that is not among the sources. Its terminal state is the exit wave
    after the last slice, with grid, energy, tilt and antialiasing metadata
    preserved unchanged and only the array content transformed. *)
Definition multislice_engine (w : Waves) (p : Potential) (splits : nat) : Waves :=
  MkWaves (propagate (array w) p splits) (extent w) (energy w) (tilt w)
          (antialias_aperture w) (extra_axes_metadata w).

Fixpoint exit_waves_loop (w : Waves) (ps : list Potential) (splits : nat)
  : result (list Waves) :=
  match ps with
  | [] => Ok []
  | p :: ps' =>
      let* c := Waves_copy w in
      let exit_wave := multislice_engine c p splits in
      let* rest := exit_waves_loop w ps' splits in
      Ok (exit_wave :: rest)
  end.

(** [Waves.multislice]. *)
Definition multislice (w : Waves) (potential : Potential) (splits : nat)
  : result Waves :=
  let* potential := _validate_potential w potential in
  if Nat.eqb (num_frozen_phonons potential) 1 then
    Ok (multislice_engine w potential splits)
  else
    let* exit_waves := exit_waves_loop w (frozen_phonon_potentials potential) splits in
    let a := stack (List.map array exit_waves) in
    let axes_metadata := MkAxis "frozen_phonons" "ensemble" :: extra_axes_metadata w in
    Waves_init a (energy w) (extent w) (tilt w) (2 # 3)%Q axes_metadata.

(** The contrast transfer function is an external collaborator as well:
    its parameters, the kernel it evaluates on the grid of a wave (which
    depends on its own energy), the check that the grid of the wave is
    defined, and the convolution of [abtem.basic.fft]. *)
Variable CTF : Type.
Variable evaluate_on_grid : CTF -> option Q -> Waves -> Arr.
Variable check_is_grid_defined : Waves -> result unit.
Variable fft2_convolve : Arr -> Arr -> bool -> result Arr.

Definition with_energy (w : Waves) (en : option Q) : Waves :=
  MkWaves (array w) (extent w) en (tilt w) (antialias_aperture w)
          (extra_axes_metadata w).

(** The statements of [apply_ctf] that follow the matching of the
    energies: from [self.grid.check_is_defined()] to the construction of the
    result (which is not given the antialiasing cutoff of the wave). *)
Definition apply_ctf_rest (w : Waves) (ctf : CTF) (ctf_energy : option Q)
    (in_place : bool) : result Waves :=
  let* _ := check_is_grid_defined w in
  let kernel := evaluate_on_grid ctf ctf_energy w in
  let* a := fft2_convolve (array w) kernel in_place in
  Waves_init a (energy w) (extent w) (tilt w) default_antialias_aperture
             (extra_axes_metadata w).

(** [Waves.apply_ctf(ctf, in_place)] for a given [ctf], whose accelerator is
    [accelerator]: the outcome is the wave and the accelerator of the CTF as
    the call leaves them, and the new wave or the exception. *)
Definition apply_ctf (w : Waves) (ctf : CTF) (accelerator : Energy)
    (in_place : bool) : (Waves * Energy) * result Waves :=
  let '((we, accelerator'), r) :=
    apply_ctf_energy (MkEnergy (energy w), accelerator) in
  let w' := with_energy w (EnergyModel.energy we) in
  ((w', accelerator'),
   let* _ := r in
   apply_ctf_rest w' ctf (EnergyModel.energy accelerator') in_place).

End WithArrays.

End WavesModel.

(* ===================================================================== *)
(** ** [device.py]: [fft2_convolve] on arrays that live in a store         *)
(* ===================================================================== *)

Module DeviceModel.

Section WithBackend.

(** Complex numbers and the transforms of [mkl_fft] are external. An array
    is its shape and its elements in row-major order; [fft2] and [ifft2]
    transform the elements of a two-dimensional array, [multiply] is numpy's
    broadcasting product of an array with a kernel (it raises when the
    shapes cannot be broadcast). *)
Variable C : Type.

Record ndarray : Type := MkArray { shape : list nat; data : list C }.

Variable fft2 : ndarray -> ndarray.
Variable ifft2 : ndarray -> ndarray.
Variable multiply : ndarray -> ndarray -> result ndarray.

(** Arrays are objects: names are references into a store, so that [copy]
    and the in-place operations act as in Python. *)
Local Abbreviation ref := nat.
Local Abbreviation store := (gmap nat ndarray).

Definition deref (a : ref) : M store ndarray :=
  fun h => match h !! a with
           | Some x => (h, Ok x)
           | None => (h, Raise KeyError)
           end.

Definition assign (a : ref) (x : ndarray) : M store unit :=
  fun h => (<[a := x]> h, Ok tt).

(** [array.copy()]: a new object holding the same elements. *)
Definition copy (a : ref) : M store ref :=
  do* x := deref a in
  fun h => let l := fresh (dom h) in (<[l := x]> h, Ok l).

(** [mkl_fft.fft2(array, overwrite_x=True)] and
    [mkl_fft.ifft2(array, overwrite_x=True)] called for their effect: the
    transform replaces the content of the array. *)
Definition fft2_overwrite (a : ref) : M store unit :=
  do* x := deref a in assign a (fft2 x).
Definition ifft2_overwrite (a : ref) : M store unit :=
  do* x := deref a in assign a (ifft2 x).

(** [array *= kernel]. *)
Definition imul (a kernel : ref) : M store unit :=
  do* x := deref a in
  do* k := deref kernel in
  do* y := lift (multiply x k) in
  assign a y.

(** The inner function [_fft_convolve], always called with
    [overwrite_x=True]. *)
Definition _fft_convolve (a kernel : ref) : M store ref :=
  do* _ := fft2_overwrite a in
  do* _ := imul a kernel in
  do* _ := ifft2_overwrite a in
  mret a.

(** [array[i]] of a three-dimensional array is a view: working on it in
    place rewrites the [i]-th block of the elements. *)
Definition block_size (sh : list nat) : nat := fold_right Nat.mul 1%nat (tl sh).

Definition get_block (x : ndarray) (i : nat) : ndarray :=
  MkArray (tl (shape x))
          (firstn (block_size (shape x)) (skipn (i * block_size (shape x)) (data x))).

Definition set_block (x : ndarray) (i : nat) (b : ndarray) : ndarray :=
  MkArray (shape x)
          (firstn (i * block_size (shape x)) (data x) ++ data b ++
           skipn (S i * block_size (shape x)) (data x)).

Definition _fft_convolve_view (a : ref) (i : nat) (kernel : ref) : M store unit :=
  do* x := deref a in
  do* _ := assign a (set_block x i (fft2 (get_block x i))) in
  do* x1 := deref a in
  do* k := deref kernel in
  do* y := lift (multiply (get_block x1 i) k) in
  do* _ := assign a (set_block x1 i y) in
  do* x2 := deref a in
  assign a (set_block x2 i (ifft2 (get_block x2 i))).

Fixpoint for_range (body : nat -> M store unit) (i n : nat) : M store unit :=
  match n with
  | O => skip
  | S n' => do* _ := body i in for_range body (S i) n'
  end.

(** [fft2_convolve(array, kernel, overwrite_x)]. *)
Definition fft2_convolve (a kernel : ref) (overwrite_x : bool) : M store ref :=
  do* a := (if negb overwrite_x then copy a else mret a) in
  do* x := deref a in
  if Nat.eqb (length (shape x)) 2 then _fft_convolve a kernel
  else if Nat.eqb (length (shape x)) 3 && overwrite_x then
    do* _ := for_range (fun i => _fft_convolve_view a i kernel) 0 (hd 0%nat (shape x)) in
    mret a
  else raise ValueError.

(** [NotImplementedError()]: a subclass of [RuntimeError], raised without
    a message; the name of the class is kept in the place of the message. *)
Definition NotImplementedError : exn := RuntimeError "NotImplementedError".

(** The images of a three-dimensional array, in order, and the array whose
    images are those of [x] transformed by [f]: what a transform of
    [mkl_fft] over the last two axes does to a stack of images. *)
Definition blocks (x : ndarray) : list ndarray :=
  List.map (get_block x) (seq 0 (hd 0%nat (shape x))).

Definition map_blocks (f : ndarray -> ndarray) (x : ndarray) : ndarray :=
  MkArray (shape x) (concat (List.map (fun b => data (f b)) (blocks x))).

(** [mkl_fft.fft2(array[i], overwrite_x=True)] on the view [array[i]]. *)
Definition fft2_view (a : ref) (i : nat) : M store unit :=
  do* x := deref a in assign a (set_block x i (fft2 (get_block x i))).

(** [fft2(array, overwrite_x)] of [device.py] (here [fft2] and [ifft2] are
    the transforms of [mkl_fft], so the two functions of the module carry
    its name in front of theirs). *)
Definition device_fft2 (a : ref) (overwrite_x : bool) : M store ref :=
  do* a := (if negb overwrite_x then copy a else mret a) in
  do* x := deref a in
  if Nat.eqb (length (shape x)) 2 then
    do* _ := fft2_overwrite a in mret a
  else if Nat.eqb (length (shape x)) 3 then
    do* _ := for_range (fun i => fft2_view a i) 0 (hd 0%nat (shape x)) in
    mret a
  else raise NotImplementedError.

(** [mkl_fft.ifft2(array, overwrite_x=overwrite_x)] called for its result:
    the transform runs over the last two axes, that is on the array itself
    when it has two dimensions and on each of its images otherwise; the
    result is the array itself when it is overwritten and a new array
    when it is not. *)
Definition mkl_ifft2 (a : ref) (overwrite_x : bool) : M store ref :=
  do* x := deref a in
  let y := if Nat.eqb (length (shape x)) 2 then ifft2 x
           else map_blocks ifft2 x in
  if overwrite_x then do* _ := assign a y in mret a
  else fun h => let l := fresh (dom h) in (<[l := y]> h, Ok l).

(** The loop of [ifft2]: [array = mkl_fft.ifft2(array, ...)], once for each
    value of [i]. *)
Fixpoint ifft2_loop (a : ref) (overwrite_x : bool) (n : nat) : M store ref :=
  match n with
  | O => mret a
  | S n' => do* a' := mkl_ifft2 a overwrite_x in ifft2_loop a' overwrite_x n'
  end.

(** [ifft2(array, overwrite_x)] of [device.py]. *)
Definition device_ifft2 (a : ref) (overwrite_x : bool) : M store ref :=
  do* x := deref a in
  if Nat.eqb (length (shape x)) 2 then mkl_ifft2 a overwrite_x
  else if Nat.eqb (length (shape x)) 3 then
    ifft2_loop a overwrite_x (hd 0%nat (shape x))
  else raise NotImplementedError.

(** The array [x] after its first [k] images have been transformed by
    [f]: the state of a loop over the images after [k] rounds. *)
Definition partial_blocks (f : ndarray -> ndarray) (x : ndarray) (k : nat)
  : ndarray :=
  MkArray (shape x)
          (concat (List.map (fun b => data (f b))
                            (List.map (get_block x) (seq 0 k))) ++
           skipn (k * block_size (shape x)) (data x)).

(** An array whose elements fill its shape, and a transform that keeps the
    shape and the number of elements of what it is given. *)
Definition well_shaped (x : ndarray) : Prop :=
  length (data x) = (hd 0%nat (shape x) * block_size (shape x))%nat.

Definition keeps_shape (f : ndarray -> ndarray) : Prop :=
  forall b, shape (f b) = shape b /\ length (data (f b)) = length (data b).

(** A transform that keeps the shape and the number of elements of the
    images of [x]. *)
Definition keeps_images (x : ndarray) (f : ndarray -> ndarray) : Prop :=
  forall b, shape b = tl (shape x) ->
            length (data b) = block_size (shape x) ->
            shape (f b) = shape b /\ length (data (f b)) = length (data b).

(** The kernel [k] can be multiplied with every array of shape [sh], and
    the product has the shape and the number of elements of the array. *)
Definition broadcasts (k : ndarray) (sh : list nat) : Prop :=
  forall b, shape b = sh ->
    exists m, multiply b k = Ok m /\ shape m = shape b /\
              length (data m) = length (data b).

(** One image convolved with the kernel [k] (left alone if the product
    raises). *)
Definition convolved (k : ndarray) (b : ndarray) : ndarray :=
  match multiply (fft2 b) k with
  | Ok m => ifft2 m
  | Raise _ => b
  end.

End WithBackend.

End DeviceModel.

(* ===================================================================== *)
(** ** [detect.py]: [polar_regions], [_PolarDetector], [AnnularDetector]   *)
(* ===================================================================== *)

Module DetectModel.

(** [2 * np.pi] is the double [0x1.921FB54442D18p+2]. *)
Definition two_pi : Q := (7074237752028440 # 1125899906842624)%Q.


(** [x % m] on floats, for a positive [m]. *)
Definition Qmod (x m : Q) : Q := (x - m * inject_Z (Qfloor (x / m)))%Q.

(** [np.clip(x, lo, hi)]. *)
Definition clip (x lo hi : Z) : Z := Z.min hi (Z.max lo x).

(** [np.fft.fftfreq(n, d)]. *)
Definition fftfreq (n : nat) (d : Q) : list Q :=
  List.map
    (fun k : nat =>
       let m := if Nat.ltb k ((n - 1) / 2 + 1) then Z.of_nat k
                else Z.of_nat k - Z.of_nat n in
       (inject_Z m * (1 / (inject_Z (Z.of_nat n) * d)))%Q)
    (seq 0 n).

(** [np.fft.fftshift] along one axis, and along both axes of an image. *)
Definition fftshift1 {A} (l : list A) : list A :=
  let n := length l in
  skipn (n - n / 2) l ++ firstn (n - n / 2) l.

Definition fftshift {A} (b : list (list A)) : list (list A) :=
  fftshift1 (List.map fftshift1 b).

(** Where [fftshift1] puts the element of index [i] of an axis of length [n]. *)
Definition shifted (n i : nat) : nat := ((i + n / 2) mod n)%nat.

Record _PolarDetector : Type := MkPolar {
  _inner : option Q;
  _outer : option Q;
  _radial_steps : Q;
  _azimuthal_steps : Q
}.

(** [_PolarDetector.__init__] with [azimuthal_steps=None]. *)
Definition _PolarDetector_init (inner outer : option Q) (radial_steps : Q)
    (azimuthal_steps : option Q) : _PolarDetector :=
  MkPolar inner outer radial_steps
          (match azimuthal_steps with None => two_pi | Some a => a end).



(** [AnnularDetector.__init__(inner, outer)]. *)
Definition AnnularDetector (inner outer : option Q) : _PolarDetector :=
  _PolarDetector_init inner outer 1 None.

(** [AnnularDetector.detect(waves)]; [array_shape] is [waves.array.shape].
    The statements that compute the far-field intensity, the region indices
    and the quotient are comments in the source: what runs is
    [total = xp.ones(len(waves.array))] and [return total]. *)
Definition detect (self : _PolarDetector) (array_shape : list nat) : list Q :=
  let total := repeat 1%Q (hd 0%nat array_shape) in
  total.

(** The quantity the specification describes (and the comment at the end of
    [detect] spells out): for one wave, the far-field intensity summed over
    the pixels of the bin and divided by the total intensity. *)
Definition Qsum (l : list Q) : Q := fold_right Qplus 0%Q l.

Definition bin_fraction (intensity : list Q) (indices : list nat) : Q :=
  (Qsum (List.map (fun i => nth i intensity 0%Q) indices) / Qsum intensity)%Q.

(** *** Diffraction patterns and the detector base class *)

(** [l[i:j]] for [0 <= i <= j]. *)
Definition slice {A} (i j : nat) (l : list A) : list A :=
  firstn (j - i) (skipn i l).

(** [crop_to_center(array)] on one image, given as the list of its rows
    (all of the same length). *)
Definition crop_to_center {A} (array : list (list A)) : list (list A) :=
  let w := (length array / 2)%nat in
  let h := (length (hd [] array) / 2)%nat in
  let left := (w - w / 2)%nat in
  let right := (w + (w - w / 2))%nat in
  let top := (h - h / 2)%nat in
  let bottom := (h + (h - h / 2))%nat in
  List.map (slice top bottom) (slice left right array).

(** [fftshift(array, axes=(-2, -1))]: the rows are shifted first, then
    the columns; [fftshift] above is [fftshift(array, axes=(-1, -2))]. *)
Definition fftshift_rows_first {A} (b : list (list A)) : list (list A) :=
  List.map fftshift1 (fftshift1 b).

Section WithTransform.

(** The device functions [fft2] and [abs2] are external: the transform of
    one image, and the squared modulus of one element. *)
Variable C : Type.
Variable fft2 : list (list C) -> list (list C).
Variable abs2 : C -> Q.

(** [calculate_far_field_intensity(waves, overwrite)] for one image of
    [waves.array]. *)
Definition calculate_far_field_intensity (array : list (list C))
  : list (list Q) :=
  let array := fft2 array in
  let intensity := crop_to_center (fftshift_rows_first array) in
  List.map (List.map abs2) intensity.

(** [PixelatedDetector.detect(waves)] for one image of [waves.array]. *)
Definition PixelatedDetector_detect (array : list (list C)) : list (list Q) :=
  let intensity := List.map (List.map abs2) (fft2 array) in
  let intensity := fftshift intensity in
  let intensity := crop_to_center intensity in
  intensity.

End WithTransform.

(** The shape of the trailing axes of the array that
    [PixelatedDetector.allocate_measurement] allocates:
    [(grid.gpts[0] // 2, grid.gpts[1] // 2)]. *)
Definition allocated_shape (gpts : nat * nat) : nat * nat :=
  ((fst gpts / 2)%nat, (snd gpts / 2)%nat).

(** [s.endswith(suffix)]. *)
Fixpoint endswith (s suffix : string) : bool :=
  String.eqb s suffix
  || match s with
     | EmptyString => false
     | String _ s' => endswith s' suffix
     end.

(** [AbstractDetector.__init__(save_file)]: the value of [_save_file]. *)
Definition AbstractDetector_init (save_file : option string) : option string :=
  match save_file with
  | Some s =>
      if negb (endswith s ".hdf5") then Some (String.append s ".hdf5")
      else Some s
  | None => None
  end.

End DetectModel.

(* ===================================================================== *)
(** ** [detect.py]: [polar_regions] in IEEE 754 arithmetic                 *)
(* ===================================================================== *)

Module PolarModel.

Import DetectModel.

(** A Python float is a binary64 number, [prec = 53] and [emax = 1024] in
    [SpecFloat]; the arrays are binary64 or, when the frequencies are kept
    in single precision, binary32 ([prec = 24], [emax = 128]). Every
    operation rounds to nearest, ties to even. *)
Definition float_of_int (prec emax : Z) (n : Z) : spec_float :=
  binary_normalize prec emax n 0 false.

(** A number brought into a format, as numpy does with a Python scalar that
    meets an array. *)
Definition cast (prec emax : Z) (x : spec_float) : spec_float :=
  match x with
  | S754_finite s m e => binary_normalize prec emax (cond_Zopp s (Zpos m)) e s
  | _ => x
  end.

(** [astype(int)] on a finite number: truncation towards zero. *)
Definition astype_int (x : spec_float) : Z :=
  match x with
  | S754_finite s m e =>
      cond_Zopp s (if 0 <=? e then Zpos m * 2 ^ e else Zpos m / 2 ^ (- e))
  | _ => 0
  end.

(** The rational number a finite float stands for. *)
Definition exact (x : spec_float) : Q :=
  match x with
  | S754_finite s m e =>
      (inject_Z (cond_Zopp s (Zpos m)) *
       (if 0 <=? e then inject_Z (2 ^ e) else / inject_Z (2 ^ (- e))))%Q
  | _ => 0%Q
  end.

(** [np.fft.fftfreq(n, d)]: [val = 1.0 / (n * d)], then the integers
    [0, 1, ..., -2, -1] times [val], in binary64. *)
Definition fftfreq (n : nat) (d : spec_float) : list spec_float :=
  let val := SFdiv 53 1024 (float_of_int 53 1024 1)
               (SFmul 53 1024 (float_of_int 53 1024 (Z.of_nat n)) d) in
  List.map
    (fun k : nat =>
       let m := if Nat.ltb k ((n - 1) / 2 + 1) then Z.of_nat k
                else Z.of_nat k - Z.of_nat n in
       SFmul 53 1024 (float_of_int 53 1024 m) val)
    (seq 0 n).

Section Regions.

(** The format of the arrays. *)
Variables prec emax : Z.

(** [np.arctan2], [%] and [np.floor] are external: the value of
    [np.floor(nbins_azimuthal * (np.arctan2(ax, ay) % (2 * np.pi) / (2 * np.pi)))],
    a whole number, is a parameter. *)
Variable floor_angle : spec_float -> spec_float -> Z.

(** Modelled from the spec: [spatial_frequencies] of [abtem.utils], a module
    that is not among the sources; the standard discrete Fourier frequencies
    of each axis of the grid, in the format of the arrays. *)
Definition spatial_frequencies (gpts : nat * nat)
    (sampling : spec_float * spec_float) : list spec_float * list spec_float :=
  (List.map (cast prec emax) (fftfreq (fst gpts) (fst sampling)),
   List.map (cast prec emax) (fftfreq (snd gpts) (snd sampling))).

Variables (gpts : nat * nat) (sampling : spec_float * spec_float).
Variables (wavelength inner outer : spec_float).
Variables (nbins_radial nbins_azimuthal : Z).

Definition alpha_x : list spec_float :=
  List.map (fun k => SFmul prec emax k (cast prec emax wavelength))
           (fst (spatial_frequencies gpts sampling)).
Definition alpha_y : list spec_float :=
  List.map (fun k => SFmul prec emax k (cast prec emax wavelength))
           (snd (spatial_frequencies gpts sampling)).

(** One pixel of [alpha], [valid], [radial_bins], [angular_bins] and [bins]
    (before the final shift), from its two angle components. *)
Definition alpha (ax ay : spec_float) : spec_float :=
  SFsqrt prec emax
    (SFadd prec emax (SFmul prec emax ax ax) (SFmul prec emax ay ay)).

Definition valid (ax ay : spec_float) : bool :=
  SFleb (cast prec emax inner) (alpha ax ay) &&
  SFltb (alpha ax ay) (cast prec emax outer).

(** [nbins_radial * (alpha[valid] - inner) / (outer - inner)], stored in an
    array of integers; [outer - inner] is a difference of Python floats. *)
Definition radial_bin (ax ay : spec_float) : Z :=
  if valid ax ay
  then astype_int
         (SFdiv prec emax
            (SFmul prec emax (float_of_int prec emax nbins_radial)
               (SFsub prec emax (alpha ax ay) (cast prec emax inner)))
            (cast prec emax (SFsub 53 1024 outer inner)))
  else -1.

Definition angular_bin (ax ay : spec_float) : Z :=
  clip (floor_angle ax ay) 0 (nbins_azimuthal - 1).

Definition bin (ax ay : spec_float) : Z :=
  if valid ax ay
  then angular_bin ax ay + radial_bin ax ay * nbins_azimuthal
  else -1.

Definition bins : list (list Z) :=
  List.map (fun ax => List.map (fun ay => bin ax ay) alpha_y) alpha_x.

Definition polar_regions : list (list Z) := fftshift bins.

End Regions.

End PolarModel.

(* ===================================================================== *)
(** ** Concrete objects used in the examples                               *)
(* ===================================================================== *)

Module Examples.

Import GridModel.

(** A backend in which an array is just its shape, the engine leaves it
    alone, and a potential is its number of frozen phonon realizations. *)
Definition stack_shapes (l : list (list nat)) : list nat :=
  length l :: hd [] l.

Definition toy_multislice :=
  WavesModel.multislice (list nat) (fun sh => sh) stack_shapes (fun sh => sh)
    nat (fun n => n) (fun n => repeat 1%nat n) (fun sh _ _ => sh)
    (fun _ p => Ok p).

(** A 64 by 64 wave of 100 keV whose antialiasing cutoff is 1/3, as left by
    [downsample] on a grid twice as fine. *)
Definition downsampled_wave : WavesModel.Waves (list nat) :=
  WavesModel.MkWaves (list nat) [64; 64]%nat (PArray [10; 10]%Q) (Some 100000%Q)
                     (0, 0)%Q (1 # 3)%Q [].

(** A cache with three entries: one cleared by any change, one by a change
    of [extent], one by a change of [gpts]. *)
Definition three_entries : CacheModel.Cache nat :=
  CacheModel.update_cache "a" 1%nat None
    (CacheModel.update_cache "b" 2%nat (Some ["extent"])
       (CacheModel.update_cache "c" 3%nat (Some ["gpts"]) CacheModel.empty)).

(** Two grids for [match_grid]: one made from a sampling of 0.1 alone, one
    made from an extent of 1.05 and 10 points; and one made from an extent
    alone. *)
Definition sampling_only : Grid :=
  MkGrid 2 false (MkProp DFloat 2 None false) (MkProp DInt 2 None false)
         (MkProp DFloat 2 (Some [1 # 10; 1 # 10]%Q) false).

Definition extent_and_gpts : Grid :=
  MkGrid 2 false (MkProp DFloat 2 (Some [105 # 100; 105 # 100]%Q) false)
         (MkProp DInt 2 (Some [10; 10]%Q) false)
         (MkProp DFloat 2 (Some [105 # 1000; 105 # 1000]%Q) false).

Definition extent_only : Grid :=
  MkGrid 2 false (MkProp DFloat 2 (Some [105 # 100; 105 # 100]%Q) false)
         (MkProp DInt 2 None false) (MkProp DFloat 2 None false).

(** The grid of a 10 by 10 array (gpts locked to the shape), and a grid of
    extent 2. *)
Definition array_grid : Grid :=
  MkGrid 2 false (MkProp DFloat 2 None false)
         (MkProp DInt 2 (Some [10; 10]%Q) true) (MkProp DFloat 2 None false).

Definition extent_two : Grid :=
  MkGrid 2 false (MkProp DFloat 2 (Some [2; 2]%Q) false)
         (MkProp DInt 2 None false) (MkProp DFloat 2 None false).

Definition nothing_defined : Grid :=
  MkGrid 2 false (MkProp DFloat 2 None false) (MkProp DInt 2 None false)
         (MkProp DFloat 2 None false).

End Examples.

(* ===================================================================== *)
(** ** [bases.py]: the decorators that fill the cache                      *)
(* ===================================================================== *)

Module CachedMethods.

Import CacheModel.

Section WithData.

Context {Data : Type}.

(** [cached_method(clear_conditions)(func)] called on an object whose cache
    is the state; [name] is [func.__name__], and [func] runs on the same
    object. Only a [KeyError] of the lookup is caught. *)
Definition cached_method (clear_conditions : option (list string))
    (name : string) (func : M (Cache Data) Data) : M (Cache Data) Data :=
  fun c =>
    match retrieve_from_cache c name with
    | Ok data => (c, Ok data)
    | Raise KeyError =>
        (do* data := func in
         fun c' => (update_cache name data clear_conditions c', Ok data)) c
    | Raise e => (c, Raise e)
    end.

End WithData.

Section WithArgs.

(** The entry of a method with arguments is a dict from the tuple of its
    arguments to the result. *)
Context {Args : Type} `{Countable Args} {Data : Type}.

(** [cached_method_with_args(clear_conditions)(func)] called with the
    arguments [args] ([args[1:]] in the source, where [args[0]] is the
    object). *)
Definition cached_method_with_args (clear_conditions : option (list string))
    (name : string) (func : Args -> M (Cache (gmap Args Data)) Data)
    (args : Args) : M (Cache (gmap Args Data)) Data :=
  fun c =>
    match (let* d := retrieve_from_cache c name in
           match d !! args with
           | Some data => Ok data
           | None => Raise KeyError
           end) with
    | Ok data => (c, Ok data)
    | Raise KeyError =>
        (do* data := func args in
         fun c' =>
           match _cache c' !! name with
           | Some d =>
               (MkCache (<[name := <[args := data]> d]> (_cache c'))
                        (_clear_conditions c'), Ok data)
           | None =>
               (update_cache name {[args := data]} clear_conditions c', Ok data)
           end) c
    | Raise e => (c, Raise e)
    end.

(** The table of results a cache holds for a method with arguments (empty
    when the method has no entry). *)
Definition table_of (c : Cache (gmap Args Data)) (name : string)
  : gmap Args Data :=
  default ∅ (_cache c !! name).

End WithArgs.

End CachedMethods.

(* ===================================================================== *)
(** ** [bases.py]: [Observable], and the delivery of a message             *)
(* ===================================================================== *)

Module ObserverModel.

Import CacheModel GridModel.

(** Observers are objects: an observable keeps references to them. *)
Record Observable : Type := MkObservable { _observers : list nat }.

Definition Observable_init : Observable := MkObservable [].

Definition register_observer (observer : nat) (o : Observable) : Observable :=
  if bool_decide (observer ∈ _observers o) then o
  else MkObservable (_observers o ++ [observer]).

(** The name of each property of a grid and its decorated setter. *)
Inductive grid_property : Type := Extent | Gpts | Sampling.

Definition name_of (which : grid_property) : string :=
  match which with
  | Extent => "extent"
  | Gpts => "gpts"
  | Sampling => "sampling"
  end.

Definition setter_of (which : grid_property) : pyval -> M Grid message :=
  match which with
  | Extent => set_extent
  | Gpts => set_gpts
  | Sampling => set_sampling
  end.

Section WithData.

Context {Data : Type}.

(** [notify_observers(message)] when the observers are caches, kept in a
    store: [observer.notify(self, message)] for each of them in turn. *)
Definition notify_observers (o : Observable) (msg : message)
  : M (gmap nat (Cache Data)) unit :=
  fun st =>
    (foldl (fun st' observer => alter (CacheModel.notify msg) observer st')
           st (_observers o),
     Ok tt).

(** The whole of the [notify] decorator on a grid whose observers are [o]:
    the decorated setter runs, then its message is delivered. *)
Definition notifying_setter (o : Observable) (which : grid_property)
    (v : pyval) : M (Grid * gmap nat (Cache Data)) unit :=
  do* msg := on_fst (setter_of which v) in
  on_snd (notify_observers o msg).

End WithData.

End ObserverModel.

(* ===================================================================== *)
(** ** [bases.py]: copies, frequencies, coordinates, arrays with a grid    *)
(* ===================================================================== *)

Module GridExtras.

Import GridModel GridRelation.

(** [Grid.copy()]: the three properties are copied and handed to the
    constructor; [endpoint] is not. *)
Definition Grid_copy (g : Grid) : result Grid :=
  let* e := GridProperty_copy (_extent g) in
  let* p := GridProperty_copy (_gpts g) in
  let* s := GridProperty_copy (_sampling g) in
  Grid_init (AsProperty e) (AsProperty p) (AsProperty s) (dimensions g) false.

(** Iterating over a value, as [zip] does: [None] and numbers are not
    iterable. *)
Definition iter_values (v : pyval) : result (list Q) :=
  match v with
  | PArray xs => Ok xs
  | _ => Raise TypeError
  end.

(** [p % 2 == 0]. *)
Definition is_even (p : Q) : bool := Qeq_bool (DetectModel.Qmod p 2) 0.

(** One entry of [spatial_frequency_limits], for the sampling [d] and the
    number of points [p] of one axis. *)
Definition frequency_limits (d p : Q) : Q * Q :=
  if is_even p then
    ((-1 # 1) / (2 * d), 1 / (2 * d) - 1 / (d * p))%Q
  else
    ((-1 # 1) / (2 * d) + 1 / (2 * d * p), 1 / (2 * d) - 1 / (2 * d * p))%Q.

Definition spatial_frequency_limits (g : Grid) : result (list (Q * Q)) :=
  let* s := sampling g in
  let* p := gpts g in
  let* ds := iter_values s in
  let* ps := iter_values p in
  Ok (zip_with frequency_limits ds ps).

(** One entry of [spatial_frequency_extent]:
    [fourier_limits[:, 1] - fourier_limits[:, 0]]. *)
Definition frequency_extent (limits : Q * Q) : Q := (snd limits - fst limits)%Q.

(** A number of points handed to numpy: it has to be a whole number that
    is not negative. *)
Definition as_count (not_whole : exn) (p : Q) : result nat :=
  if Qeq_bool (inject_Z (Qfloor p)) p then
    if Qle_bool 0 p then Ok (Z.to_nat (Qfloor p)) else Raise ValueError
  else Raise not_whole.

(** [f(x) for x in xs], where [f] may raise. *)
Fixpoint for_each {A B} (f : A -> result B) (xs : list A) : result (list B) :=
  match xs with
  | [] => Ok []
  | x :: xs' =>
      let* y := f x in
      let* ys := for_each f xs' in
      Ok (y :: ys)
  end.

(** [fftfreq(grid)]. *)
Definition fftfreq (g : Grid) : result (list (list Q)) :=
  let* _ := check_is_grid_defined g in
  let* p := gpts g in
  let* s := sampling g in
  let* ps := iter_values p in
  let* ss := iter_values s in
  for_each (fun ps' => let* n := as_count ValueError (fst ps') in
                       Ok (DetectModel.fftfreq n (snd ps')))
           (zip ps ss).

(** [np.linspace(0, stop, num, endpoint=endpoint)]. *)
Definition np_linspace (stop : Q) (num : nat) (endpoint : bool) : list Q :=
  let div := if endpoint then (num - 1)%nat else num in
  let step := (stop / inject_Z (Z.of_nat div))%Q in
  let y := List.map (fun i : nat =>
                       if Nat.ltb 0 div then (inject_Z (Z.of_nat i) * step)%Q
                       else (inject_Z (Z.of_nat i) * stop)%Q)
                    (seq 0 num) in
  if endpoint && Nat.ltb 1 num then firstn (num - 1) y ++ [stop] else y.

(** [linspace(grid)]. *)
Definition linspace (g : Grid) : result (list (list Q)) :=
  let* _ := check_is_grid_defined g in
  let* p := gpts g in
  let* e := extent g in
  let* ps := iter_values p in
  let* es := iter_values e in
  for_each (fun pe => let* n := as_count TypeError (fst pe) in
                      Ok (np_linspace (snd pe) n (endpoint g)))
           (zip ps es).

(** [array.shape[-spatial_dimensions:]]; [shape[-0:]] is the whole shape. *)
Definition trailing (n : nat) (shape : list nat) : list nat :=
  if Nat.eqb n 0 then shape else skipn (length shape - n) shape.

Definition counts (shape : list nat) : list Q :=
  List.map (fun k => inject_Z (Z.of_nat k)) shape.

(** [ArrayWithGrid.__init__(array, spatial_dimensions, extent, sampling)]:
    the grid of the object, for an array of shape [shape]. *)
Definition ArrayWithGrid_init (shape : list nat) (spatial_dimensions : nat)
    (extent sampling : pyval) : result Grid :=
  if Nat.ltb (length shape) spatial_dimensions
  then Raise (RuntimeError "array dimensions exceeds spatial dimensions")
  else
    let* gpts := GridProperty_init
                   (PArray (counts (trailing spatial_dimensions shape)))
                   DInt true spatial_dimensions in
    Grid_init (Raw extent) (AsProperty gpts) (Raw sampling)
              spatial_dimensions false.

(** An image: the shape of its array (the elements play no role below)
    and its grid. *)
Record Image : Type := MkImage { image_shape : list nat; image_grid : Grid }.

Definition Image_init (shape : list nat) (extent sampling : pyval)
  : result Image :=
  let* g := ArrayWithGrid_init shape 2 extent sampling in
  Ok (MkImage shape g).

(** The shape of [np.tile(array, multiples)] for two multiples and an array
    of at least two dimensions. *)
Definition tile_shape (shape : list nat) (multiples : nat * nat) : list nat :=
  firstn (length shape - 2) shape ++
  zip_with Nat.mul [fst multiples; snd multiples]
           (skipn (length shape - 2) shape).

(** [Image.repeat(multiples)]. *)
Definition Image_repeat (multiples : nat * nat) (im : Image) : result Image :=
  let new_shape := tile_shape (image_shape im) multiples in
  let* e := extent (image_grid im) in
  let* new_extent := binop Qmult (PArray (counts [fst multiples; snd multiples])) e in
  Image_init new_shape new_extent PNone.

(** The grid of an array: as a consistent grid, but the number of points
    is locked to the trailing shape [p] of the array, and the endpoint is
    not included. *)
Record array_consistent (g : Grid) (e p s : list Q) : Prop := {
  a_locked : _locked (_extent g) = false /\ _locked (_gpts g) = true /\
             _locked (_sampling g) = false;
  a_endpoint : endpoint g = false;
  a_dtype : _dtype (_extent g) = DFloat /\ _dtype (_gpts g) = DInt /\
            _dtype (_sampling g) = DFloat;
  a_dims : _dimensions (_extent g) = dimensions g /\
           _dimensions (_gpts g) = dimensions g /\
           _dimensions (_sampling g) = dimensions g;
  a_values : _value (_extent g) = Some e /\ _value (_gpts g) = Some p /\
             _value (_sampling g) = Some s;
  a_lengths : length e = dimensions g /\ length p = dimensions g /\
              length s = dimensions g;
  a_extent : forallb positive e = true;
  a_gpts : forallb (is_count false) p = true;
  a_sampling : forallb positive s = true;
  a_relation : relation false e p s
}.

(** An image whose grid is the grid of its array. *)
Definition image_consistent (im : Image) (e s : list Q) : Prop :=
  (2 <= length (image_shape im))%nat /\
  dimensions (image_grid im) = 2%nat /\
  array_consistent (image_grid im) e
    (counts (trailing 2 (image_shape im))) s.

End GridExtras.

(* ===================================================================== *)
(** ** [core/axes.py]: the axes of an array and their metadata            *)
(* ===================================================================== *)

Module AxesModel.

(** The classes of axis metadata; the fields of the dataclasses play no
    role in the functions below, so that an object is its class. *)
Inductive axis_class : Type :=
| AxisMetadata
| RealSpaceAxis
| FourierSpaceAxis
| ScanAxis
| OrdinalAxis
| FrozenPhononsAxis
| PrismPlaneWavesAxis.

(** The class each class is derived from. *)
Definition base_class (c : axis_class) : option axis_class :=
  match c with
  | AxisMetadata => None
  | RealSpaceAxis | FourierSpaceAxis | OrdinalAxis => Some AxisMetadata
  | ScanAxis => Some RealSpaceAxis
  | FrozenPhononsAxis | PrismPlaneWavesAxis => Some OrdinalAxis
  end.

Definition same_class (c d : axis_class) : bool :=
  match c, d with
  | AxisMetadata, AxisMetadata | RealSpaceAxis, RealSpaceAxis
  | FourierSpaceAxis, FourierSpaceAxis | ScanAxis, ScanAxis
  | OrdinalAxis, OrdinalAxis | FrozenPhononsAxis, FrozenPhononsAxis
  | PrismPlaneWavesAxis, PrismPlaneWavesAxis => true
  | _, _ => false
  end.

(** [isinstance(axis_metadata, cls)]: the class of the object, or one of
    the classes it is derived from (the hierarchy has three levels). *)
Definition isinstance (c cls : axis_class) : bool :=
  same_class c cls
  || match base_class c with
     | None => false
     | Some b =>
         same_class b cls
         || match base_class b with
            | None => false
            | Some b' => same_class b' cls
            end
     end.

Record HasAxes : Type := MkAxes {
  shape : list nat;
  _extra_axes_metadata : list axis_class;
  base_axes_metadata : list axis_class
}.

(** [range(lo, hi)] on Python integers. *)
Definition range (lo hi : Z) : list Z :=
  List.map (fun k => lo + Z.of_nat k) (seq 0 (Z.to_nat (hi - lo))).

Definition num_axes (a : HasAxes) : Z := Z.of_nat (length (shape a)).
Definition num_base_axes (a : HasAxes) : Z :=
  Z.of_nat (length (base_axes_metadata a)).
Definition num_extra_axes (a : HasAxes) : Z := num_axes a - num_base_axes a.

Definition base_axes (a : HasAxes) : list Z :=
  range (num_axes a - num_base_axes a) (num_axes a).
Definition extra_axes (a : HasAxes) : list Z := range 0 (num_extra_axes a).

Definition extra_axes_metadata (a : HasAxes) : list axis_class :=
  _extra_axes_metadata a.
Definition axes_metadata (a : HasAxes) : list axis_class :=
  extra_axes_metadata a ++ base_axes_metadata a.

(** [enumerate(l)]. *)
Definition enumerate {A} (l : list A) : list (nat * A) :=
  combine (seq 0 (length l)) l.

(** [find_axes(cls)]: the loop appends the index of each match. *)
Definition find_axes (a : HasAxes) (cls : axis_class) : list nat :=
  fold_left (fun indices im =>
               if isinstance (snd im) cls then indices ++ [fst im]
               else indices)
            (enumerate (axes_metadata a)) [].

Definition _check_axes_metadata (a : HasAxes) : result unit :=
  if negb (Z.eqb (Z.of_nat (length (axes_metadata a))) (num_axes a))
  then Raise (RuntimeError no_message)
  else Ok tt.

Definition scan_axes (a : HasAxes) : list nat := find_axes a ScanAxis.

(** [[self.axes_metadata[i] for i in self.scan_axes]]; the indices come
    from [enumerate], so that each of them is in range. *)
Definition scan_axes_metadata (a : HasAxes) : list axis_class :=
  omap (fun i => axes_metadata a !! i) (scan_axes a).

Definition num_scan_axes (a : HasAxes) : nat := length (scan_axes a).

End AxesModel.

(* ===================================================================== *)
(** ** Further concrete objects used in the examples                       *)
(* ===================================================================== *)

Module MoreExamples.

Import GridModel.

(** The grid of a 10 by 10 array of extent 2. *)
Definition array_grid_with_extent : Grid :=
  MkGrid 2 false (MkProp DFloat 2 (Some [2; 2]%Q) false)
         (MkProp DInt 2 (Some [10; 10]%Q) true)
         (MkProp DFloat 2 (Some [2 # 10; 2 # 10]%Q) false).

(** A cache whose one entry is cleared by a change of [sampling]. *)
Definition sampling_entry : CacheModel.Cache nat :=
  CacheModel.update_cache "d" 4%nat (Some ["sampling"]) CacheModel.empty.

End MoreExamples.

Import GridModel.

(* ===================================================================== *)
(** ** Properties of the grid getters                                      *)
(* ===================================================================== *)

Section GetterFacts.

Variable g : Grid.

Local Abbreviation E := (_locked (_extent g)).
Local Abbreviation G := (_locked (_gpts g)).
Local Abbreviation S' := (_locked (_sampling g)).

(** With all three properties locked every getter calls another one for
    ever: whatever the depth allowed, the outcome is [RecursionError]. *)
Lemma getters_all_locked (n : nat) :
  E = true -> G = true -> S' = true ->
  get_extent n g = Raise RecursionError /\
  get_gpts n g = Raise RecursionError /\
  get_sampling n g = Raise RecursionError.
Proof.
  intros HE HG HS.
  induction n as [|n (IHe & IHp & IHs)]; [repeat split; reflexivity|].
  cbn [get_extent get_gpts get_sampling].
  rewrite HE, HG, HS, IHe, IHp. repeat split; reflexivity.
Qed.

(** Two frames are enough in every other state. *)
Lemma get_extent_closed (n : nat) :
  get_extent (2 + n) g =
    if G && S' then
      if E then Raise RecursionError
      else _adjusted_extent (endpoint g) (value (_gpts g)) (value (_sampling g))
    else Ok (value (_extent g)).
Proof.
  destruct (_locked (_extent g)) eqn:HE, (_locked (_gpts g)) eqn:HG,
           (_locked (_sampling g)) eqn:HS;
    try (cbn [get_extent get_gpts get_sampling Nat.add];
         rewrite ?HE, ?HG, ?HS; reflexivity).
  apply getters_all_locked; assumption.
Qed.

Lemma get_gpts_closed (n : nat) :
  get_gpts (2 + n) g =
    if E && S' then
      if G then Raise RecursionError
      else _adjusted_sampling (endpoint g) (value (_extent g)) (value (_sampling g))
    else Ok (value (_gpts g)).
Proof.
  destruct (_locked (_extent g)) eqn:HE, (_locked (_gpts g)) eqn:HG,
           (_locked (_sampling g)) eqn:HS;
    try (cbn [get_extent get_gpts get_sampling Nat.add];
         rewrite ?HE, ?HG, ?HS; reflexivity).
  apply getters_all_locked; assumption.
Qed.

Lemma get_sampling_closed (n : nat) :
  get_sampling (2 + n) g =
    if E && G then
      if S' then Raise RecursionError
      else _adjusted_sampling (endpoint g) (value (_extent g)) (value (_gpts g))
    else Ok (value (_sampling g)).
Proof.
  destruct (_locked (_extent g)) eqn:HE, (_locked (_gpts g)) eqn:HG,
           (_locked (_sampling g)) eqn:HS;
    try (cbn [get_extent get_gpts get_sampling Nat.add];
         rewrite ?HE, ?HG, ?HS; reflexivity).
  apply getters_all_locked; assumption.
Qed.

Lemma extent_closed :
  extent g =
    if G && S' then
      if E then Raise RecursionError
      else _adjusted_extent (endpoint g) (value (_gpts g)) (value (_sampling g))
    else Ok (value (_extent g)).
Proof. exact (get_extent_closed 998). Qed.

Lemma gpts_closed :
  gpts g =
    if E && S' then
      if G then Raise RecursionError
      else _adjusted_sampling (endpoint g) (value (_extent g)) (value (_sampling g))
    else Ok (value (_gpts g)).
Proof. exact (get_gpts_closed 998). Qed.

Lemma sampling_closed :
  sampling g =
    if E && G then
      if S' then Raise RecursionError
      else _adjusted_sampling (endpoint g) (value (_extent g)) (value (_gpts g))
    else Ok (value (_sampling g)).
Proof. exact (get_sampling_closed 998). Qed.

End GetterFacts.

Global Opaque extent gpts sampling.

(* ===================================================================== *)
(** ** Cache invalidation                                                  *)
(* ===================================================================== *)

Section CacheFacts.

Import CacheModel.

Context {Data : Type}.
Implicit Types (c : Cache Data) (k name : string) (ks : list string).

Lemma pop_keys_cache ks : forall c k,
  _cache (foldl pop_key c ks) !! k =
    if bool_decide (k ∈ ks) then None else _cache c !! k.
Proof.
  induction ks as [|k0 ks IH]; intros c k; cbn [foldl].
  - rewrite bool_decide_eq_false_2 by (apply not_elem_of_nil). reflexivity.
  - rewrite IH. cbn [pop_key _cache].
    destruct (decide (k = k0)) as [->|Hne].
    + rewrite lookup_delete_eq.
      rewrite (bool_decide_eq_true_2 (k0 ∈ k0 :: ks)) by (left).
      destruct (bool_decide (k0 ∈ ks)); reflexivity.
    + rewrite lookup_delete_ne by congruence.
      destruct (decide (k ∈ ks)) as [Hin|Hnin].
      * rewrite !bool_decide_eq_true_2; [reflexivity|by right|assumption].
      * rewrite !bool_decide_eq_false_2; [reflexivity| |assumption].
        intros [?|?]%elem_of_cons; congruence.
Qed.

Lemma pop_keys_conditions ks : forall c k,
  _clear_conditions (foldl pop_key c ks) !! k =
    if bool_decide (k ∈ ks) then None else _clear_conditions c !! k.
Proof.
  induction ks as [|k0 ks IH]; intros c k; cbn [foldl].
  - rewrite bool_decide_eq_false_2 by (apply not_elem_of_nil). reflexivity.
  - rewrite IH. cbn [pop_key _clear_conditions].
    destruct (decide (k = k0)) as [->|Hne].
    + rewrite lookup_delete_eq.
      rewrite (bool_decide_eq_true_2 (k0 ∈ k0 :: ks)) by (left).
      destruct (bool_decide (k0 ∈ ks)); reflexivity.
    + rewrite lookup_delete_ne by congruence.
      destruct (decide (k ∈ ks)) as [Hin|Hnin].
      * rewrite !bool_decide_eq_true_2; [reflexivity|by right|assumption].
      * rewrite !bool_decide_eq_false_2; [reflexivity| |assumption].
        intros [?|?]%elem_of_cons; congruence.
Qed.

(** The keys put on the [pop] list by a notification that reports a change. *)
Lemma elem_of_pop_list name c k :
  k ∈ pop_list (Message name true) c <->
  exists conditions,
    _clear_conditions c !! k = Some conditions /\ selected name conditions = true.
Proof.
  unfold pop_list. cbn [change notifier].
  rewrite list_elem_of_In, in_map_iff. split.
  - intros ([k' cond] & <- & Hin). apply filter_In in Hin as [Hin Hsel].
    apply list_elem_of_In, elem_of_map_to_list in Hin. eauto.
  - intros (cond & Hk & Hsel). exists (k, cond). split; [reflexivity|].
    apply filter_In. split; [|exact Hsel].
    apply list_elem_of_In, elem_of_map_to_list. exact Hk.
Qed.

Lemma pop_list_no_change name c : pop_list (Message name false) c = [].
Proof. reflexivity. Qed.

End CacheFacts.

(** C5. A notification for property [P] that reports a change removes an
    entry (its data and its clear-condition) when its clear-condition is
    [None] or contains [P], and keeps every entry whose condition set does
    not contain [P]; a notification that reports no change leaves the whole
    cache as it was. *)
Theorem Cache_notify_purges_exactly {Data : Type}
    (c : CacheModel.Cache Data) (P k : string) :
  let c' := CacheModel.notify (Message P true) c in
  (CacheModel._clear_conditions c !! k = Some None \/
   (exists names, CacheModel._clear_conditions c !! k = Some (Some names) /\ P ∈ names) ->
   CacheModel._cache c' !! k = None /\ CacheModel._clear_conditions c' !! k = None) /\
  (forall names, CacheModel._clear_conditions c !! k = Some (Some names) -> P ∉ names ->
   CacheModel._cache c' !! k = CacheModel._cache c !! k /\
   CacheModel._clear_conditions c' !! k = Some (Some names)) /\
  CacheModel.notify (Message P false) c = c.
Proof.
  cbn zeta. unfold CacheModel.notify.
  rewrite pop_list_no_change. cbn [foldl].
  rewrite pop_keys_cache, pop_keys_conditions.
  repeat split.
  - assert (Hin : k ∈ CacheModel.pop_list (Message P true) c).
    { apply elem_of_pop_list. destruct H as [H|(names & H & HP)].
      - exists None. split; [exact H|reflexivity].
      - exists (Some names). split; [exact H|].
        cbn. apply bool_decide_eq_true_2. exact HP. }
    rewrite bool_decide_eq_true_2 by exact Hin. reflexivity.
  - assert (Hin : k ∈ CacheModel.pop_list (Message P true) c).
    { apply elem_of_pop_list. destruct H as [H|(names & H & HP)].
      - exists None. split; [exact H|reflexivity].
      - exists (Some names). split; [exact H|].
        cbn. apply bool_decide_eq_true_2. exact HP. }
    rewrite bool_decide_eq_true_2 by exact Hin. reflexivity.
  - rewrite bool_decide_eq_false_2; [reflexivity|].
    intros (cond & Hk & Hsel)%elem_of_pop_list.
    rewrite H in Hk. injection Hk as <-. cbn in Hsel.
    apply bool_decide_eq_true_1 in Hsel. contradiction.
  - rewrite bool_decide_eq_false_2; [exact H|].
    intros (cond & Hk & Hsel)%elem_of_pop_list.
    rewrite H in Hk. injection Hk as <-. cbn in Hsel.
    apply bool_decide_eq_true_1 in Hsel. contradiction.
Qed.

(** On a cache with three entries, notified of a change of [extent]: the
    entry that depends on [extent] goes, the one that depends on [gpts]
    stays. *)
Lemma Cache_notify_purges_exactly_witness :
  let c' := CacheModel.notify (Message "extent" true) Examples.three_entries in
  (CacheModel._cache c' !! "b" = None /\
   CacheModel._clear_conditions c' !! "b" = None) /\
  (CacheModel._cache c' !! "c" = CacheModel._cache Examples.three_entries !! "c" /\
   CacheModel._clear_conditions c' !! "c" = Some (Some ["gpts"])).
Proof.
  cbn zeta.
  pose proof (Cache_notify_purges_exactly Examples.three_entries "extent" "b")
    as (Hb & _ & _).
  pose proof (Cache_notify_purges_exactly Examples.three_entries "extent" "c")
    as (_ & Hc & _).
  split.
  - apply Hb. right. exists ["extent"]. split; [reflexivity|]. left.
  - apply Hc; [reflexivity|].
    intros H. apply list_elem_of_In in H. destruct H as [H|[]]. discriminate H.
Defined.

(* ===================================================================== *)
(** ** Locked properties                                                   *)
(* ===================================================================== *)

Lemma set_value_locked (p : GridProperty) (v : pyval) :
  _locked p = true ->
  set_value v p = (p, Raise (RuntimeError "grid property locked")).
Proof. intros H. unfold set_value. rewrite H. reflexivity. Qed.

Lemma extent_setter_over_determined (g : Grid) (v : pyval) :
  _locked (_gpts g) = true -> _locked (_sampling g) = true ->
  extent_setter v g = (g, Raise (RuntimeError no_message)).
Proof.
  intros HG HS. unfold extent_setter, mbind, read, both_locked.
  rewrite HG, HS. reflexivity.
Qed.

(** C7. On a grid whose gpts and sampling are both locked, setting the
    extent raises and leaves the grid as it was: the setter itself raises
    its [RuntimeError], unless the decorator's read of the old extent has
    raised before. And a write to the value of a locked [GridProperty]
    raises [RuntimeError] and leaves the property as it was. *)
Theorem locked_grid_rejects_writes (g : Grid) (p : GridProperty) (v : pyval) :
  (_locked (_gpts g) = true -> _locked (_sampling g) = true ->
   extent_setter v g = (g, Raise (RuntimeError no_message)) /\
   (exists e, set_extent v g = (g, Raise e)) /\
   (forall old, extent g = Ok old ->
      set_extent v g = (g, Raise (RuntimeError no_message)))) /\
  (_locked p = true ->
   set_value v p = (p, Raise (RuntimeError "grid property locked")) /\
   value (fst (set_value v p)) = value p).
Proof.
  split.
  - intros HG HS.
    pose proof (extent_setter_over_determined g v HG HS) as Hbody.
    split; [exact Hbody|].
    unfold set_extent, notify, mbind, read.
    destruct (extent g) as [old|e] eqn:Hold.
    + rewrite Hbody. split; [eauto|]. intros ? _. reflexivity.
    + split; [eauto|]. intros ? [=].
  - intros Hp. rewrite (set_value_locked p v Hp). split; reflexivity.
Qed.

(** A grid with a locked 64 by 64 gpts and a locked sampling, and a locked
    property, on which the statement above is exercised. *)
Lemma locked_grid_rejects_writes_witness :
  let p := MkProp DInt 2 (Some [64; 64]%Q) true in
  let g := MkGrid 2 false (MkProp DFloat 2 None false) p
                  (MkProp DFloat 2 (Some [0.1; 0.1]%Q) true) in
  set_extent (PScalar 10) g = (g, Raise (RuntimeError no_message)) /\
  set_value (PScalar 32) p = (p, Raise (RuntimeError "grid property locked")).
Proof.
  intros p g.
  pose proof (locked_grid_rejects_writes g p (PScalar 10)) as [Hg _].
  pose proof (locked_grid_rejects_writes g p (PScalar 32)) as [_ Hp].
  split.
  - destruct (Hg eq_refl eq_refl) as (_ & _ & H).
    apply (H (PArray [6.4; 6.4]%Q)).
    rewrite extent_closed. vm_compute. reflexivity.
  - apply Hp. reflexivity.
Defined.

(* ===================================================================== *)
(** ** The gpts derived from extent and sampling                           *)
(* ===================================================================== *)



(* ===================================================================== *)
(** ** Energies of a wave and of a contrast transfer function              *)
(* ===================================================================== *)

Section EnergyFacts.

Import EnergyModel.

(** [Energy.check_same_energy] of [bases.py] is stricter than the
    matching done by [apply_ctf]: it raises as soon as one of the two
    energies is undefined and the other is not. *)
Lemma check_same_energy_one_undefined (x : Q) :
  check_same_energy (MkEnergy (Some x)) (MkEnergy None)
    = Raise (RuntimeError "inconsistent energies") /\
  check_same_energy (MkEnergy None) (MkEnergy (Some x))
    = Raise (RuntimeError "inconsistent energies").
Proof. split; reflexivity. Qed.



End EnergyFacts.


Section ApplyCtfFacts.

Import WavesModel.

Variable Arr : Type.
Variable shape : Arr -> list nat.
Variable CTF : Type.
Variable evaluate_on_grid : CTF -> option Q -> Waves Arr -> Arr.
Variable check_is_grid_defined : Waves Arr -> result unit.
Variable fft2_convolve : Arr -> Arr -> bool -> result Arr.

Local Abbreviation rest :=
  (apply_ctf_rest Arr shape CTF evaluate_on_grid check_is_grid_defined fft2_convolve).
Local Abbreviation run :=
  (apply_ctf Arr shape CTF evaluate_on_grid check_is_grid_defined fft2_convolve).

Lemma with_energy_same (w : Waves Arr) : with_energy Arr w (energy Arr w) = w.
Proof. destruct w. reflexivity. Qed.


End ApplyCtfFacts.




(* ===================================================================== *)
(** ** Metadata of the exit wave                                           *)
(* ===================================================================== *)

Section WavesFacts.

Import WavesModel.

Variable Arr : Type.
Variable shape : Arr -> list nat.
Variable stack : list Arr -> Arr.
Variable copy_array : Arr -> Arr.
Variable Potential : Type.
Variable num_frozen_phonons : Potential -> nat.
Variable frozen_phonon_potentials : Potential -> list Potential.
Variable propagate : Arr -> Potential -> nat -> Arr.
Variable _validate_potential : Waves Arr -> Potential -> result Potential.

Local Abbreviation run :=
  (multislice Arr shape stack copy_array Potential num_frozen_phonons
              frozen_phonon_potentials propagate _validate_potential).

(** One realization: the engine's exit wave, whose metadata are those of
    the incoming wave. *)
Lemma multislice_single_metadata (w w' : Waves Arr) (p p' : Potential) (n : nat) :
  _validate_potential w p = Ok p' -> num_frozen_phonons p' = 1%nat ->
  run w p n = Ok w' ->
  extent Arr w' = extent Arr w /\ energy Arr w' = energy Arr w /\
  tilt Arr w' = tilt Arr w /\
  antialias_aperture Arr w' = antialias_aperture Arr w.
Proof.
  intros Hv H1. unfold multislice. rewrite Hv. cbn [Py.bind].
  rewrite H1. cbn [Nat.eqb]. intros [= <-]. repeat split.
Qed.

(** Several realizations: extent, energy and tilt are passed on, the
    antialiasing cutoff is the literal [2 / 3.]. *)
Lemma multislice_ensemble_metadata (w w' : Waves Arr) (p p' : Potential) (n : nat) :
  _validate_potential w p = Ok p' -> num_frozen_phonons p' <> 1%nat ->
  run w p n = Ok w' ->
  extent Arr w' = extent Arr w /\ energy Arr w' = energy Arr w /\
  tilt Arr w' = tilt Arr w /\
  antialias_aperture Arr w' = (2 # 3)%Q /\
  extra_axes_metadata Arr w' =
    MkAxis "frozen_phonons" "ensemble" :: extra_axes_metadata Arr w.
Proof.
  intros Hv H1. unfold multislice. rewrite Hv. cbn [Py.bind].
  apply Nat.eqb_neq in H1. rewrite H1.
  destruct (exit_waves_loop _ _ _ _ _ _ _ _) as [ws|e]; [|discriminate].
  cbn [Py.bind]. unfold Waves_init.
  destruct (Nat.ltb _ _); [discriminate|].
  intros [= <-]. repeat split.
Qed.

End WavesFacts.

(** C2. A wave whose antialiasing cutoff is 1/3, propagated through a
    potential with two frozen phonon realizations: the exit wave has the
    extent, energy and tilt of the incoming wave, and an antialiasing cutoff
    of 2/3; through a potential with one realization the cutoff stays 1/3. *)
Theorem multislice_ensemble_resets_antialias_aperture :
  exists w2 w1,
    Examples.toy_multislice Examples.downsampled_wave 2%nat 1%nat = Ok w2 /\
    Examples.toy_multislice Examples.downsampled_wave 1%nat 1%nat = Ok w1 /\
    WavesModel.antialias_aperture _ Examples.downsampled_wave = (1 # 3)%Q /\
    WavesModel.antialias_aperture _ w1 = (1 # 3)%Q /\
    WavesModel.antialias_aperture _ w2 = (2 # 3)%Q /\
    WavesModel.extent _ w2 = WavesModel.extent _ Examples.downsampled_wave /\
    WavesModel.energy _ w2 = WavesModel.energy _ Examples.downsampled_wave /\
    WavesModel.tilt _ w2 = WavesModel.tilt _ Examples.downsampled_wave.
Proof.
  eexists _, _. split; [reflexivity|]. split; [reflexivity|].
  repeat split.
Qed.

(* ===================================================================== *)
(** ** The annular detector                                                *)
(* ===================================================================== *)

Lemma detect_is_ones (self : DetectModel._PolarDetector) (sh : list nat) :
  DetectModel.detect self sh = repeat 1%Q (hd 0%nat sh).
Proof. reflexivity. Qed.

(** C1. [detect] returns 1 for each wave, whatever the detector and the
    wave: for one 4 by 4 plane wave, whose far-field intensity (after the
    crop to the centre) is 256 on a single pixel, an annular detector with
    angles 0.05 and 0.1 whose bin holds the three other pixels reports 1,
    while the intensity in the bin divided by the total is 0. *)
Theorem AnnularDetector_detect_ignores_bin :
  DetectModel.detect (DetectModel.AnnularDetector (Some 0.05%Q) (Some 0.1%Q))
                     [1; 4; 4]%nat = [1%Q] /\
  (DetectModel.bin_fraction [0; 0; 0; 256]%Q [0; 1; 2]%nat == 0)%Q /\
  forall self self' sh,
    DetectModel.detect self sh = DetectModel.detect self' sh.
Proof.
  split; [reflexivity|]. split; [reflexivity|]. reflexivity.
Qed.

(* ===================================================================== *)
(** ** Convolution by multiplication in Fourier space                      *)
(* ===================================================================== *)

Section DeviceFacts.

Import DeviceModel.

Variable C : Type.
Variable fft2 ifft2 : ndarray C -> ndarray C.
Variable multiply : ndarray C -> ndarray C -> result (ndarray C).

Local Abbreviation convolve := (fft2_convolve C fft2 ifft2 multiply).

(** The copy made for [overwrite_x=False] is a new object. *)
Lemma fresh_ref_not_allocated (h : gmap nat (ndarray C)) (a : nat) (x : ndarray C) :
  h !! a = Some x -> a <> fresh (dom h).
Proof.
  intros Ha Heq. pose proof (is_fresh (dom h)) as Hf. apply Hf.
  assert (Hin : a ∈ dom h) by (eapply elem_of_dom_2; exact Ha).
  rewrite Heq in Hin. exact Hin.
Qed.

Lemma fft2_convolve_2d_copy (h : gmap nat (ndarray C)) (a kernel : nat)
    (x k y : ndarray C) :
  h !! a = Some x -> h !! kernel = Some k ->
  length (shape C x) = 2%nat ->
  multiply (fft2 x) k = Ok y ->
  convolve a kernel false h =
    (<[fresh (dom h) := ifft2 y]> h, Ok (fresh (dom h))).
Proof.
  intros Ha Hk Hdim Hmul.
  pose proof (fresh_ref_not_allocated h kernel k Hk) as Hfresh.
  unfold fft2_convolve, _fft_convolve, copy, fft2_overwrite, ifft2_overwrite,
         imul, deref, assign, mbind, mret, lift, negb.
  rewrite Ha. rewrite lookup_insert_eq. rewrite Hdim. cbn [Nat.eqb].
  rewrite !lookup_insert_eq.
  rewrite lookup_insert_ne by congruence.
  rewrite lookup_insert_ne by congruence.
  rewrite Hk, Hmul. rewrite !lookup_insert_eq.
  rewrite !insert_insert_eq. reflexivity.
Qed.

Lemma fft2_convolve_nd_copy (h : gmap nat (ndarray C)) (a kernel : nat)
    (x : ndarray C) :
  h !! a = Some x -> (3 <= length (shape C x))%nat ->
  convolve a kernel false h = (<[fresh (dom h) := x]> h, Raise ValueError).
Proof.
  intros Ha Hdim.
  unfold fft2_convolve, copy, deref, mbind, raise, negb.
  rewrite Ha. rewrite lookup_insert_eq.
  destruct (Nat.eqb_spec (length (shape C x)) 2) as [E|_]; [lia|].
  rewrite andb_false_r. reflexivity.
Qed.

End DeviceFacts.

(** C9. With [overwrite_x=False], on a two-dimensional array the call
    returns a new array that holds the inverse transform of the product of
    the forward transform with the kernel, and the array passed in (like
    every array that existed) is unchanged; on an array of three or more
    dimensions the call raises [ValueError], again without touching the
    array passed in. *)
Theorem fft2_convolve_without_overwrite (C : Type)
    (fft2 ifft2 : DeviceModel.ndarray C -> DeviceModel.ndarray C)
    (multiply : DeviceModel.ndarray C -> DeviceModel.ndarray C ->
                result (DeviceModel.ndarray C))
    (h : gmap nat (DeviceModel.ndarray C)) (a kernel : nat)
    (x : DeviceModel.ndarray C) :
  h !! a = Some x ->
  (length (DeviceModel.shape C x) = 2%nat ->
   forall k y, h !! kernel = Some k -> multiply (fft2 x) k = Ok y ->
   exists h' r,
     DeviceModel.fft2_convolve C fft2 ifft2 multiply a kernel false h = (h', Ok r) /\
     h' !! r = Some (ifft2 y) /\ h' !! a = Some x /\
     forall b z, h !! b = Some z -> h' !! b = Some z) /\
  ((3 <= length (DeviceModel.shape C x))%nat ->
   exists h',
     DeviceModel.fft2_convolve C fft2 ifft2 multiply a kernel false h
       = (h', Raise ValueError) /\
     h' !! a = Some x).
Proof.
  intros Ha. split.
  - intros Hdim k y Hk Hmul.
    eexists _, _. split; [eapply fft2_convolve_2d_copy; eassumption|].
    split; [apply lookup_insert_eq|].
    assert (Hkeep : forall b z, h !! b = Some z ->
                      <[fresh (dom h) := ifft2 y]> h !! b = Some z).
    { intros b z Hb. rewrite lookup_insert_ne; [exact Hb|].
      intros Heq. symmetry in Heq. revert Heq.
      eapply fresh_ref_not_allocated; eassumption. }
    split; [apply Hkeep; exact Ha|exact Hkeep].
  - intros Hdim. eexists. split; [eapply fft2_convolve_nd_copy; eassumption|].
    rewrite lookup_insert_ne; [exact Ha|].
    intros Heq. symmetry in Heq. revert Heq.
    eapply fresh_ref_not_allocated; eassumption.
Qed.

Lemma fft2_convolve_without_overwrite_witness :
  let id_fft (x : DeviceModel.ndarray Z) := x in
  let mul (x k : DeviceModel.ndarray Z) :=
    Ok (DeviceModel.MkArray Z (DeviceModel.shape Z x)
          (List.map (fun p => fst p * snd p)
                    (combine (DeviceModel.data Z x) (DeviceModel.data Z k)))) in
  let image := DeviceModel.MkArray Z [2; 2]%nat [1; 2; 3; 4] in
  let batch := DeviceModel.MkArray Z [1; 2; 2]%nat [1; 2; 3; 4] in
  let kern := DeviceModel.MkArray Z [2; 2]%nat [1; 0; 0; 1] in
  let h : gmap nat (DeviceModel.ndarray Z) :=
    <[0%nat := image]> (<[1%nat := kern]> (<[2%nat := batch]> ∅)) in
  (exists h' r,
     DeviceModel.fft2_convolve Z id_fft id_fft mul 0%nat 1%nat false h = (h', Ok r) /\
     h' !! r = Some (DeviceModel.MkArray Z [2; 2]%nat [1; 0; 0; 4]) /\
     h' !! 0%nat = Some image /\
     forall b z, h !! b = Some z -> h' !! b = Some z) /\
  (exists h',
     DeviceModel.fft2_convolve Z id_fft id_fft mul 2%nat 1%nat false h
       = (h', Raise ValueError) /\
     h' !! 2%nat = Some batch).
Proof.
  intros id_fft mul image batch kern h. split.
  - apply (fft2_convolve_without_overwrite Z id_fft id_fft mul h 0%nat 1%nat image
             eq_refl) with (k := kern); reflexivity.
  - apply (fft2_convolve_without_overwrite Z id_fft id_fft mul h 2%nat 1%nat batch
             eq_refl). cbn. lia.
Defined.

(* ===================================================================== *)
(** ** Bin labels of the polar regions                                     *)
(* ===================================================================== *)

Section ShiftFacts.

Context {A : Type}.

Lemma length_fftshift1 (l : list A) : length (DetectModel.fftshift1 l) = length l.
Proof.
  unfold DetectModel.fftshift1.
  rewrite length_app, length_skipn, length_firstn.
  pose proof (Nat.Div0.div_le_upper_bound (length l) 2 (length l)). lia.
Qed.

(** After the shift, the element of index [i] sits at [shifted n i]. *)
Lemma fftshift1_lookup (l : list A) (i : nat) :
  (i < length l)%nat ->
  DetectModel.fftshift1 l !! DetectModel.shifted (length l) i = l !! i.
Proof.
  intros Hi. unfold DetectModel.fftshift1, DetectModel.shifted.
  set (n := length l) in *. set (s := (n / 2)%nat).
  assert (Hs : (s <= n)%nat).
  { subst s. apply Nat.Div0.div_le_upper_bound. lia. }
  assert (Hlen : length (skipn (n - s) l) = s).
  { rewrite length_skipn. fold n. lia. }
  destruct (Nat.lt_ge_cases (i + s) n) as [Hlt|Hge].
  - rewrite Nat.mod_small by exact Hlt.
    rewrite lookup_app_r by (rewrite Hlen; lia).
    rewrite Hlen. replace (i + s - s)%nat with i by lia.
    apply lookup_take_lt. lia.
  - replace ((i + s) mod n)%nat with (i + s - n)%nat.
    + rewrite lookup_app_l by (rewrite Hlen; lia).
      rewrite lookup_drop. f_equal. lia.
    + apply (Nat.mod_unique (i + s) n 1); lia.
Qed.

End ShiftFacts.

Section RegionFacts.

Import DetectModel PolarModel.

Variables prec emax : Z.
Variable floor_angle : spec_float -> spec_float -> Z.
Variables (gpts : nat * nat) (sampling : spec_float * spec_float).
Variables (wavelength inner outer : spec_float).
Variables (nbins_radial nbins_azimuthal : Z).

Local Abbreviation bin' :=
  (bin prec emax floor_angle inner outer nbins_radial nbins_azimuthal).

Lemma length_fftfreq (n : nat) (d : spec_float) : length (fftfreq n d) = n.
Proof. unfold fftfreq. rewrite length_map, length_seq. reflexivity. Qed.

Lemma length_alpha_x :
  length (alpha_x prec emax gpts sampling wavelength) = fst gpts.
Proof.
  unfold alpha_x. cbn [spatial_frequencies fst]. rewrite !length_map.
  apply length_fftfreq.
Qed.

Lemma length_alpha_y :
  length (alpha_y prec emax gpts sampling wavelength) = snd gpts.
Proof.
  unfold alpha_y. cbn [spatial_frequencies snd]. rewrite !length_map.
  apply length_fftfreq.
Qed.

(** The clip keeps the angular bin in [0 .. nbins_azimuthal - 1]. *)
Lemma angular_bin_range (ax ay : spec_float) :
  0 < nbins_azimuthal ->
  0 <= angular_bin floor_angle nbins_azimuthal ax ay < nbins_azimuthal.
Proof. intros Hn. unfold angular_bin, clip. lia. Qed.

(** The label of the pixel of frequency indices [(i, j)], found in the
    result at the shifted indices. *)
Lemma polar_regions_lookup (i j : nat) (ax ay : spec_float) :
  alpha_x prec emax gpts sampling wavelength !! i = Some ax ->
  alpha_y prec emax gpts sampling wavelength !! j = Some ay ->
  exists row,
    polar_regions prec emax floor_angle gpts sampling wavelength inner outer
                  nbins_radial nbins_azimuthal !! shifted (fst gpts) i = Some row /\
    row !! shifted (snd gpts) j = Some (bin' ax ay).
Proof.
  intros Hx Hy.
  pose proof (lookup_lt_Some _ _ _ Hx) as Hi. rewrite length_alpha_x in Hi.
  pose proof (lookup_lt_Some _ _ _ Hy) as Hj. rewrite length_alpha_y in Hj.
  unfold polar_regions, fftshift, bins.
  set (ys := alpha_y prec emax gpts sampling wavelength) in *.
  set (xs := alpha_x prec emax gpts sampling wavelength) in *.
  set (rows := List.map fftshift1 (List.map (fun ax0 => List.map (fun ay0 => bin' ax0 ay0) ys) xs)).
  assert (Hrows : length rows = fst gpts).
  { subst rows. rewrite !length_map. apply length_alpha_x. }
  exists (fftshift1 (List.map (fun ay0 => bin' ax ay0) ys)). split.
  - rewrite <- Hrows at 1. rewrite fftshift1_lookup by lia.
    subst rows. rewrite List.map_map.
    change (List.map ?f xs) with (f <$> xs).
    rewrite list_lookup_fmap, Hx. reflexivity.
  - assert (Hlen : length (List.map (fun ay0 => bin' ax ay0) ys) = snd gpts).
    { rewrite length_map. apply length_alpha_y. }
    rewrite <- Hlen at 1. rewrite fftshift1_lookup by lia.
    change (List.map ?f ys) with (f <$> ys).
    rewrite list_lookup_fmap, Hy. reflexivity.
Qed.

End RegionFacts.

(** C10. A pixel whose scattering angle lies in [[inner, outer)] gets a
    label outside [[0, nbins_radial * nbins_azimuthal)]. The call is
    [polar_regions((16, 16), (0.0625, 0.0625), 0.02, 0., 0.10000000000000002, 41, 4)]:
    the frequencies are the whole numbers [0, 1, ..., -2, -1], the pixel of
    frequency [(5, 0)] has the angle [5 * 0.02 = 0.1], which is below
    [outer], the double that follows [0.1]. In exact arithmetic the radial
    quotient [41 * (alpha - inner) / (outer - inner)] is below 41 and is
    truncated to 40; in binary64 [41 * 0.1] is rounded to
    [4.1000000000000005] and its quotient by [outer] to [41.0], so that the
    radial bin is [nbins_radial] itself and the label, found at [[13][8]]
    after the shift, is the angular bin of the pixel (clipped to
    [0 .. 3]) plus [41 * 4], a number from 164 on, where the bins are
    numbered up to 163. The same holds when the arrays are binary32. *)
Theorem polar_regions_label_out_of_range
    (floor_angle : spec_float -> spec_float -> Z) :
  let number (n d : Z) :=
    SFdiv 53 1024 (PolarModel.float_of_int 53 1024 n)
                  (PolarModel.float_of_int 53 1024 d) in
  let wavelength := number 2 100 in
  let sampling := number 1 16 in
  let inner := S754_zero false in
  let outer := SFsucc 53 1024 (number 1 10) in
  let labels prec emax :=
    PolarModel.polar_regions prec emax floor_angle (16, 16)%nat
      (sampling, sampling) wavelength inner outer 41 4 in
  let alpha_x prec emax :=
    nth 5 (PolarModel.alpha_x prec emax (16, 16)%nat (sampling, sampling)
             wavelength) S754_nan in
  let alpha_y prec emax :=
    nth 0 (PolarModel.alpha_y prec emax (16, 16)%nat (sampling, sampling)
             wavelength) S754_nan in
  let angle prec emax :=
    PolarModel.alpha prec emax (alpha_x prec emax) (alpha_y prec emax) in
  let angular_bin prec emax :=
    Z.min 3 (Z.max 0 (floor_angle (alpha_x prec emax) (alpha_y prec emax))) in
  (alpha_x 53 1024 = number 1 10 /\ alpha_y 53 1024 = S754_zero false /\
   angle 53 1024 = number 1 10 /\
   SFleb inner (angle 53 1024) = true /\
   SFltb (angle 53 1024) outer = true /\
   Qfloor (41 * (PolarModel.exact (angle 53 1024) - PolarModel.exact inner)
              / (PolarModel.exact outer - PolarModel.exact inner)) = 40 /\
   exists row lab,
     labels 53 1024 !! 13%nat = Some row /\ row !! 8%nat = Some lab /\
     lab = angular_bin 53 1024 + 41 * 4 /\ 41 * 4 <= lab) /\
  (SFleb (PolarModel.cast 24 128 inner) (angle 24 128) = true /\
   SFltb (angle 24 128) (PolarModel.cast 24 128 outer) = true /\
   exists row lab,
     labels 24 128 !! 13%nat = Some row /\ row !! 8%nat = Some lab /\
     lab = angular_bin 24 128 + 41 * 4 /\ 41 * 4 <= lab).
Proof.
  intros number wavelength sampling inner outer labels alpha_x alpha_y angle
         angular_bin.
  assert (Hlabel : forall prec emax ax ay,
            PolarModel.alpha_x prec emax (16, 16)%nat (sampling, sampling)
              wavelength !! 5%nat = Some ax ->
            PolarModel.alpha_y prec emax (16, 16)%nat (sampling, sampling)
              wavelength !! 0%nat = Some ay ->
            PolarModel.valid prec emax inner outer ax ay = true ->
            PolarModel.radial_bin prec emax inner outer 41 ax ay = 41 ->
            exists row lab,
              labels prec emax !! 13%nat = Some row /\ row !! 8%nat = Some lab /\
              lab = Z.min 3 (Z.max 0 (floor_angle ax ay)) + 41 * 4 /\
              41 * 4 <= lab).
  { intros prec emax ax ay Hx Hy Hv Hr.
    destruct (polar_regions_lookup prec emax floor_angle (16, 16)%nat
                (sampling, sampling) wavelength inner outer 41 4 5 0 ax ay Hx Hy)
      as (row & Hrow & Hlab).
    exists row, (Z.min 3 (Z.max 0 (floor_angle ax ay)) + 41 * 4).
    split; [exact Hrow|].
    change (DetectModel.shifted (snd (16, 16)%nat) 0) with 8%nat in Hlab.
    split; [|split; [reflexivity|lia]].
    rewrite Hlab. f_equal. unfold PolarModel.bin. rewrite Hv, Hr.
    unfold PolarModel.angular_bin, DetectModel.clip. reflexivity. }
  assert (Hx64 : PolarModel.alpha_x 53 1024 (16, 16)%nat (sampling, sampling)
                   wavelength !! 5%nat
                 = Some (S754_finite false 7205759403792794 (-56)))
    by (vm_compute; reflexivity).
  assert (Hy64 : PolarModel.alpha_y 53 1024 (16, 16)%nat (sampling, sampling)
                   wavelength !! 0%nat = Some (S754_zero false))
    by (vm_compute; reflexivity).
  assert (Hx32 : PolarModel.alpha_x 24 128 (16, 16)%nat (sampling, sampling)
                   wavelength !! 5%nat
                 = Some (S754_finite false 13421772 (-27)))
    by (vm_compute; reflexivity).
  assert (Hy32 : PolarModel.alpha_y 24 128 (16, 16)%nat (sampling, sampling)
                   wavelength !! 0%nat = Some (S754_zero false))
    by (vm_compute; reflexivity).
  assert (Ex64 : alpha_x 53 1024 = S754_finite false 7205759403792794 (-56))
    by (vm_compute; reflexivity).
  assert (Ey64 : alpha_y 53 1024 = S754_zero false) by (vm_compute; reflexivity).
  assert (Ex32 : alpha_x 24 128 = S754_finite false 13421772 (-27))
    by (vm_compute; reflexivity).
  assert (Ey32 : alpha_y 24 128 = S754_zero false) by (vm_compute; reflexivity).
  split.
  - split; [vm_compute; reflexivity|].
    split; [vm_compute; reflexivity|].
    split; [vm_compute; reflexivity|].
    split; [vm_compute; reflexivity|].
    split; [vm_compute; reflexivity|].
    split; [vm_compute; reflexivity|].
    subst angular_bin. cbn beta. rewrite Ex64, Ey64.
    apply (Hlabel 53 1024 _ _ Hx64 Hy64); vm_compute; reflexivity.
  - split; [vm_compute; reflexivity|].
    split; [vm_compute; reflexivity|].
    subst angular_bin. cbn beta. rewrite Ex32, Ey32.
    apply (Hlabel 24 128 _ _ Hx32 Hy32); vm_compute; reflexivity.
Qed.

(* ===================================================================== *)
(** ** Vectors, broadcasting and validation                                *)
(* ===================================================================== *)

Section VectorFacts.

Import GridRelation.

Lemma length_zip_with_Q (f : Q -> Q -> Q) (xs ys : list Q) :
  length xs = length ys -> length (zip_with_Q f xs ys) = length ys.
Proof.
  revert ys. induction xs as [|x xs IH]; intros [|y ys] H; cbn in *;
    try reflexivity; try discriminate.
  f_equal. apply IH. congruence.
Qed.

Lemma zip_with_Q_repeat_l (f : Q -> Q -> Q) (q : Q) (ys : list Q) :
  zip_with_Q f (repeat q (length ys)) ys = List.map (f q) ys.
Proof. induction ys as [|y ys IH]; cbn; [reflexivity|]. f_equal. exact IH. Qed.

Lemma zip_with_Q_repeat_r (f : Q -> Q -> Q) (xs : list Q) (q : Q) :
  zip_with_Q f xs (repeat q (length xs)) = List.map (fun x => f x q) xs.
Proof. induction xs as [|x xs IH]; cbn; [reflexivity|]. f_equal. exact IH. Qed.

Lemma forallb_repeat (ok : Q -> bool) (q : Q) (n : nat) :
  ok q = true -> forallb ok (repeat q n) = true.
Proof. intros H. induction n; cbn; [reflexivity|]. rewrite H. exact IHn. Qed.

(** An admissible argument stands for a vector of the right length, all of
    whose entries are admissible, and is not [None]. *)
Lemma vector_of_spec (dims : nat) (ok : Q -> bool) (v : pyval) :
  vector_of dims ok v = true ->
  length (as_vector dims v) = dims /\
  forallb ok (as_vector dims v) = true /\
  is_None v = false.
Proof.
  destruct v as [|q|xs]; cbn; [discriminate| |].
  - intros H. rewrite repeat_length. auto using forallb_repeat.
  - intros [H1 H2]%andb_true_iff. apply Nat.eqb_eq in H1. auto.
Qed.

Lemma binop_vector_l (f : Q -> Q -> Q) (dims : nat) (ok : Q -> bool)
    (v : pyval) (ys : list Q) :
  vector_of dims ok v = true -> length ys = dims ->
  binop f v (PArray ys) = Ok (PArray (zip_with_Q f (as_vector dims v) ys)).
Proof.
  intros Hv <-. destruct v as [|q|xs]; cbn in *; [discriminate| |].
  - rewrite zip_with_Q_repeat_l. reflexivity.
  - apply andb_true_iff in Hv as [H1 _]. unfold broadcast. rewrite H1. reflexivity.
Qed.

Lemma binop_vector_r (f : Q -> Q -> Q) (dims : nat) (ok : Q -> bool)
    (xs : list Q) (v : pyval) :
  vector_of dims ok v = true -> length xs = dims ->
  binop f (PArray xs) v = Ok (PArray (zip_with_Q f xs (as_vector dims v))).
Proof.
  intros Hv <-. destruct v as [|q|ys]; cbn in *; [discriminate| |].
  - rewrite zip_with_Q_repeat_r. reflexivity.
  - apply andb_true_iff in Hv as [H1 _]. unfold broadcast.
    rewrite Nat.eqb_sym, H1. reflexivity.
Qed.

Lemma binop_arrays (f : Q -> Q -> Q) (xs ys : list Q) :
  length xs = length ys ->
  binop f (PArray xs) (PArray ys) = Ok (PArray (zip_with_Q f xs ys)).
Proof.
  intros H. cbn. unfold broadcast. rewrite H, Nat.eqb_refl. reflexivity.
Qed.

Lemma map_astype_float (xs : list Q) : List.map (astype DFloat) xs = xs.
Proof. apply List.map_id. Qed.

Lemma astype_int_count (ep : bool) (x : Q) :
  is_count ep x = true -> astype DInt x = x.
Proof.
  destruct x as [n d]. unfold is_count. cbn [Qden Qnum].
  intros [Hd Hn]%andb_true_iff. apply Pos.eqb_eq in Hd. subst d.
  apply Z.leb_le in Hn. unfold astype, trunc.
  assert (H0 : Qle_bool 0 (n # 1) = true).
  { apply Qle_bool_iff. unfold Qle. cbn. destruct ep; lia. }
  rewrite H0. unfold Qfloor, inject_Z. rewrite Z.div_1_r. reflexivity.
Qed.

Lemma map_astype_int (ep : bool) (xs : list Q) :
  forallb (is_count ep) xs = true -> List.map (astype DInt) xs = xs.
Proof.
  induction xs as [|x xs IH]; cbn [List.map forallb]; [reflexivity|].
  intros [Hx Hxs]%andb_true_iff.
  rewrite (astype_int_count ep x Hx), IH by exact Hxs. reflexivity.
Qed.

Lemma _validate_vector (d : dtype) (dims : nat) (ok : Q -> bool) (v : pyval) :
  vector_of dims ok v = true ->
  _validate d dims v = Ok (Some (List.map (astype d) (as_vector dims v))).
Proof.
  destruct v as [|q|xs]; cbn; [discriminate| |].
  - intros _. rewrite map_repeat. reflexivity.
  - intros [H1 _]%andb_true_iff. rewrite H1. reflexivity.
Qed.

Lemma _validate_array (d : dtype) (xs : list Q) :
  _validate d (length xs) (PArray xs) = Ok (Some (List.map (astype d) xs)).
Proof. cbn. rewrite Nat.eqb_refl. reflexivity. Qed.

End VectorFacts.

(* ===================================================================== *)
(** ** Evaluation of the constructor and of the setters                    *)
(* ===================================================================== *)

(** Symbolic execution of a method: reduce the monadic plumbing while
    leaving the arithmetic on vectors folded ([run]), and read the
    properties through their closed forms ([step]). *)
Ltac run :=
  cbn -[_validate _adjusted_sampling _adjusted_gpts _adjusted_extent
        zip_with_Q GridRelation.adjusted_count GridRelation.as_vector
        Nat.eqb length List.map astype].

Ltac step :=
  progress (rewrite ?extent_closed, ?gpts_closed, ?sampling_closed,
                    ?andb_false_r; run).

Ltac open_consistent H :=
  destruct H as [ (HE & HG & HS) (DE & DG & DS) (NE & NG & NS)
                  (VE & VG & VS) (LE & LG & LS) Pe Pp Ps R ].

Section GridEvaluation.

Import GridRelation.

Lemma adjusted_count_repeat ep q n :
  adjusted_count ep (repeat q n) = repeat (if ep then q - 1 else q)%Q n.
Proof.
  destruct ep; cbn; [|reflexivity].
  induction n; cbn; [reflexivity|]. f_equal. exact IHn.
Qed.

Lemma length_adjusted_count ep p : length (adjusted_count ep p) = length p.
Proof. destruct ep; cbn; [apply length_map|reflexivity]. Qed.

Lemma _validate_length d n xs :
  length xs = n -> _validate d n (PArray xs) = Ok (Some (List.map (astype d) xs)).
Proof. intros <-. apply _validate_array. Qed.

(** The closed forms on admissible arguments. *)
Lemma _adjusted_sampling_count_array ep dims ok v p :
  vector_of dims ok v = true -> length p = dims ->
  _adjusted_sampling ep v (PArray p) =
    Ok (PArray (zip_with_Q Qdiv (as_vector dims v) (adjusted_count ep p))).
Proof.
  intros Hv Hp. unfold _adjusted_sampling, adjusted_count.
  destruct ep; cbn [binop Py.bind].
  - apply (binop_vector_l Qdiv dims ok); [exact Hv|]. rewrite length_map. exact Hp.
  - apply (binop_vector_l Qdiv dims ok); assumption.
Qed.

Lemma _adjusted_sampling_count_vector ep dims ok e v :
  vector_of dims ok v = true -> length e = dims ->
  _adjusted_sampling ep (PArray e) v =
    Ok (PArray (zip_with_Q Qdiv e (adjusted_count ep (as_vector dims v)))).
Proof.
  intros Hv He. unfold _adjusted_sampling.
  destruct v as [|q|xs]; [discriminate| |].
  - cbn [as_vector]. rewrite adjusted_count_repeat. subst dims.
    rewrite zip_with_Q_repeat_r. destruct ep; reflexivity.
  - cbn in Hv. apply andb_true_iff in Hv as [Hl _]. apply Nat.eqb_eq in Hl.
    cbn [as_vector]. unfold adjusted_count. destruct ep; cbn [binop Py.bind].
    + apply binop_arrays. rewrite length_map. congruence.
    + apply binop_arrays. congruence.
Qed.

Lemma _adjusted_extent_count_vector ep dims ok v s :
  vector_of dims ok v = true -> length s = dims ->
  _adjusted_extent ep v (PArray s) =
    Ok (PArray (zip_with_Q Qmult (adjusted_count ep (as_vector dims v)) s)).
Proof.
  intros Hv Hs. unfold _adjusted_extent.
  destruct v as [|q|xs]; [discriminate| |].
  - cbn [as_vector]. rewrite adjusted_count_repeat. subst dims.
    rewrite zip_with_Q_repeat_l. destruct ep; reflexivity.
  - cbn in Hv. apply andb_true_iff in Hv as [Hl _]. apply Nat.eqb_eq in Hl.
    cbn [as_vector]. unfold adjusted_count. destruct ep; cbn [binop Py.bind].
    + apply binop_arrays. rewrite length_map. congruence.
    + apply binop_arrays. congruence.
Qed.

Lemma _adjusted_extent_count_array ep dims ok p v :
  vector_of dims ok v = true -> length p = dims ->
  _adjusted_extent ep (PArray p) v =
    Ok (PArray (zip_with_Q Qmult (adjusted_count ep p) (as_vector dims v))).
Proof.
  intros Hv Hp. unfold _adjusted_extent, adjusted_count.
  destruct ep; cbn [binop Py.bind].
  - apply (binop_vector_r Qmult dims ok); [exact Hv|]. rewrite length_map. exact Hp.
  - apply (binop_vector_r Qmult dims ok); assumption.
Qed.


Lemma _adjusted_gpts_vector_l ep dims ok v s :
  vector_of dims ok v = true -> length s = dims ->
  _adjusted_gpts ep v (PArray s) =
    Ok (PArray (List.map (ceil_count ep) (zip_with_Q Qdiv (as_vector dims v) s))).
Proof.
  intros Hv Hs. unfold _adjusted_gpts.
  rewrite (binop_vector_l Qdiv dims ok) by assumption.
  cbn [Py.bind unop]. destruct ep; cbn [binop]; rewrite ?List.map_map; reflexivity.
Qed.

Lemma _adjusted_gpts_vector_r ep dims ok e v :
  vector_of dims ok v = true -> length e = dims ->
  _adjusted_gpts ep (PArray e) v =
    Ok (PArray (List.map (ceil_count ep) (zip_with_Q Qdiv e (as_vector dims v)))).
Proof.
  intros Hv Hs. unfold _adjusted_gpts.
  rewrite (binop_vector_r Qdiv dims ok) by assumption.
  cbn [Py.bind unop]. destruct ep; cbn [binop]; rewrite ?List.map_map; reflexivity.
Qed.


(** The three setters on a consistent grid. *)
Lemma extent_setter_consistent g e p s v :
  consistent g e p s -> vector_of (dimensions g) positive v = true ->
  extent_setter v g =
    (MkGrid (dimensions g) (endpoint g)
       (MkProp DFloat (dimensions g) (Some (as_vector (dimensions g) v)) false)
       (_gpts g)
       (MkProp DFloat (dimensions g)
          (Some (zip_with_Q Qdiv (as_vector (dimensions g) v)
                            (adjusted_count (endpoint g) p))) false),
     Ok tt).
Proof.
  intros H Hv. open_consistent H.
  destruct g as [dims ep [dE nE vE lE] [dG nG vG lG] [dS nS vS lS]].
  cbn in *. subst.
  destruct (vector_of_spec _ _ _ Hv) as (Lv & Pv & Nv).
  unfold extent_setter, mbind, read, both_locked. run.
  rewrite gpts_closed. run. rewrite Nv. run.
  rewrite (_adjusted_sampling_count_array ep (length e) positive) by assumption.
  unfold write_sampling, write_extent, set_value. run.
  rewrite _validate_length
    by (rewrite length_zip_with_Q; rewrite length_adjusted_count; congruence).
  run. rewrite (_validate_vector DFloat (length e) positive) by assumption.
  rewrite !map_astype_float. reflexivity.
Qed.

Lemma gpts_setter_consistent g e p s v :
  consistent g e p s ->
  vector_of (dimensions g) (is_count (endpoint g)) v = true ->
  gpts_setter v g =
    (MkGrid (dimensions g) (endpoint g)
       (_extent g)
       (MkProp DInt (dimensions g) (Some (as_vector (dimensions g) v)) false)
       (MkProp DFloat (dimensions g)
          (Some (zip_with_Q Qdiv e
                   (adjusted_count (endpoint g) (as_vector (dimensions g) v))))
          false),
     Ok tt).
Proof.
  intros H Hv. open_consistent H.
  destruct g as [dims ep [dE nE vE lE] [dG nG vG lG] [dS nS vS lS]].
  cbn in *. subst.
  destruct (vector_of_spec _ _ _ Hv) as (Lv & Pv & Nv).
  unfold gpts_setter, mbind, read, both_locked. run.
  rewrite extent_closed. run. rewrite Nv. run.
  rewrite (_adjusted_sampling_count_vector ep (length e) (is_count ep)) by auto.
  unfold write_sampling, write_gpts, set_value. run.
  rewrite _validate_length
    by (rewrite length_zip_with_Q; rewrite length_adjusted_count; congruence).
  run. rewrite (_validate_vector DInt (length e) (is_count ep)) by assumption.
  rewrite map_astype_float, (map_astype_int ep) by assumption. reflexivity.
Qed.

Lemma sampling_setter_consistent g e p s v :
  consistent g e p s ->
  vector_of (dimensions g) positive v = true ->
  let c := List.map (astype DInt)
             (List.map (ceil_count (endpoint g))
                (zip_with_Q Qdiv e (as_vector (dimensions g) v))) in
  sampling_setter v g =
    (MkGrid (dimensions g) (endpoint g)
       (_extent g)
       (MkProp DInt (dimensions g) (Some c) false)
       (MkProp DFloat (dimensions g)
          (Some (zip_with_Q Qdiv e (adjusted_count (endpoint g) c))) false),
     Ok tt).
Proof.
  intros H Hv c. open_consistent H.
  destruct g as [dims ep [dE nE vE lE] [dG nG vG lG] [dS nS vS lS]].
  cbn in *. subst.
  destruct (vector_of_spec _ _ _ Hv) as (Lv & Pv & Nv).
  assert (Lc : length c = length e).
  { subst c. rewrite !length_map, length_zip_with_Q; congruence. }
  unfold sampling_setter, mbind, read, lift, both_locked. run.
  rewrite extent_closed. run. rewrite Nv. run.
  rewrite (_adjusted_gpts_vector_r ep (length e) positive) by auto.
  unfold write_sampling, write_gpts, set_value. run.
  rewrite _validate_length
    by (rewrite length_map, length_zip_with_Q; congruence).
  run. rewrite extent_closed, gpts_closed. run.
  fold c.
  rewrite (_adjusted_sampling_count_array ep (length e) positive (PArray e)) by
    (cbn; rewrite ?Nat.eqb_refl, ?Pe; auto).
  run. cbn [as_vector].
  rewrite _validate_length
    by (rewrite length_zip_with_Q; rewrite length_adjusted_count; congruence).
  rewrite map_astype_float. reflexivity.
Qed.

Lemma Grid_init_extent_gpts dims ep e p :
  vector_of dims positive e = true ->
  vector_of dims (is_count ep) p = true ->
  Grid_init (Raw e) (Raw p) (Raw PNone) dims ep =
    Ok (MkGrid dims ep
          (MkProp DFloat dims (Some (as_vector dims e)) false)
          (MkProp DInt dims (Some (as_vector dims p)) false)
          (MkProp DFloat dims
             (Some (zip_with_Q Qdiv (as_vector dims e)
                      (adjusted_count ep (as_vector dims p)))) false)).
Proof.
  intros He Hp.
  destruct (vector_of_spec _ _ _ He) as (Le & Pe & Ne).
  destruct (vector_of_spec _ _ _ Hp) as (Lp & Pp & Np).
  assert (Hdiv : _adjusted_sampling ep (PArray (as_vector dims e))
                                      (PArray (as_vector dims p)) =
                 Ok (PArray (zip_with_Q Qdiv (as_vector dims e)
                               (adjusted_count ep (as_vector dims p))))).
  { rewrite (_adjusted_sampling_count_array ep dims positive (PArray (as_vector dims e)));
      [reflexivity| |exact Lp].
    cbn. rewrite Le, Nat.eqb_refl, Pe. reflexivity. }
  assert (Hlen : length (zip_with_Q Qdiv (as_vector dims e)
                           (adjusted_count ep (as_vector dims p))) = dims).
  { rewrite length_zip_with_Q; rewrite length_adjusted_count; congruence. }
  unfold Grid_init, property_of, GridProperty_init.
  rewrite (_validate_vector DFloat dims positive e He).
  rewrite (_validate_vector DInt dims (is_count ep) p Hp).
  rewrite map_astype_float, (map_astype_int ep) by exact Pp.
  cbn [Py.bind _validate].
  unfold init_body, mbind, read, lift, skip, mret.
  change (arg_is_None (Raw e)) with (is_None e).
  change (arg_is_None (Raw p)) with (is_None p).
  rewrite Ne, Np. repeat step.
  rewrite Hdiv. unfold write_sampling, set_value. repeat step.
  rewrite (_validate_length DFloat dims _ Hlen). repeat step.
  rewrite Hdiv. repeat step. rewrite (_validate_length DFloat dims _ Hlen). repeat step.
  rewrite Hdiv. repeat step. rewrite (_validate_length DFloat dims _ Hlen).
  rewrite map_astype_float. reflexivity.
Qed.

Lemma Grid_init_extent_sampling dims ep e s :
  vector_of dims positive e = true ->
  vector_of dims positive s = true ->
  let c := List.map (astype DInt)
             (List.map (ceil_count ep)
                (zip_with_Q Qdiv (as_vector dims e) (as_vector dims s))) in
  Grid_init (Raw e) (Raw PNone) (Raw s) dims ep =
    Ok (MkGrid dims ep
          (MkProp DFloat dims (Some (as_vector dims e)) false)
          (MkProp DInt dims (Some c) false)
          (MkProp DFloat dims
             (Some (zip_with_Q Qdiv (as_vector dims e) (adjusted_count ep c)))
             false)).
Proof.
  intros He Hs c.
  destruct (vector_of_spec _ _ _ He) as (Le & Pe & Ne).
  destruct (vector_of_spec _ _ _ Hs) as (Ls & Ps & Ns).
  assert (Lc : length c = dims).
  { subst c. rewrite !length_map, length_zip_with_Q; congruence. }
  assert (Hceil : _adjusted_gpts ep (PArray (as_vector dims e))
                                   (PArray (as_vector dims s)) =
                  Ok (PArray (List.map (ceil_count ep)
                     (zip_with_Q Qdiv (as_vector dims e) (as_vector dims s))))).
  { rewrite (_adjusted_gpts_vector_r ep dims positive (as_vector dims e)
               (PArray (as_vector dims s))); [reflexivity| |exact Le].
    cbn. rewrite Ls, Nat.eqb_refl, Ps. reflexivity. }
  assert (Hdiv : _adjusted_sampling ep (PArray (as_vector dims e)) (PArray c) =
                 Ok (PArray (zip_with_Q Qdiv (as_vector dims e)
                               (adjusted_count ep c)))).
  { rewrite (_adjusted_sampling_count_array ep dims positive (PArray (as_vector dims e)));
      [reflexivity| |exact Lc].
    cbn. rewrite Le, Nat.eqb_refl, Pe. reflexivity. }
  assert (Hlen : length (zip_with_Q Qdiv (as_vector dims e)
                           (adjusted_count ep c)) = dims).
  { rewrite length_zip_with_Q; rewrite length_adjusted_count; congruence. }
  unfold Grid_init, property_of, GridProperty_init.
  rewrite (_validate_vector DFloat dims positive e He).
  rewrite (_validate_vector DFloat dims positive s Hs).
  rewrite !map_astype_float.
  cbn [Py.bind _validate].
  unfold init_body, mbind, read, lift, skip, mret.
  change (arg_is_None (Raw e)) with (is_None e).
  rewrite Ne. repeat step.
  rewrite Hceil. unfold write_gpts, write_sampling, set_value. repeat step.
  rewrite _validate_length
    by (rewrite length_map, length_zip_with_Q; congruence).
  repeat step. fold c.
  rewrite Hdiv. repeat step. rewrite (_validate_length DFloat dims _ Hlen).
  repeat step. rewrite map_astype_float. reflexivity.
Qed.

Lemma Grid_init_gpts_sampling dims ep p s :
  vector_of dims (is_count ep) p = true ->
  vector_of dims positive s = true ->
  let x := zip_with_Q Qmult (adjusted_count ep (as_vector dims p))
                      (as_vector dims s) in
  Grid_init (Raw PNone) (Raw p) (Raw s) dims ep =
    Ok (MkGrid dims ep
          (MkProp DFloat dims (Some x) false)
          (MkProp DInt dims (Some (as_vector dims p)) false)
          (MkProp DFloat dims
             (Some (zip_with_Q Qdiv x (adjusted_count ep (as_vector dims p))))
             false)).
Proof.
  intros Hp Hs x.
  destruct (vector_of_spec _ _ _ Hp) as (Lp & Pp & Np).
  destruct (vector_of_spec _ _ _ Hs) as (Ls & Ps & Ns).
  assert (Lx : length x = dims).
  { subst x. rewrite length_zip_with_Q; rewrite ?length_adjusted_count; congruence. }
  assert (Hmul : _adjusted_extent ep (PArray (as_vector dims p))
                                    (PArray (as_vector dims s)) = Ok (PArray x)).
  { rewrite (_adjusted_extent_count_array ep dims positive (as_vector dims p)
               (PArray (as_vector dims s))); [reflexivity| |exact Lp].
    cbn. rewrite Ls, Nat.eqb_refl, Ps. reflexivity. }
  assert (Hdiv : _adjusted_sampling ep (PArray x) (PArray (as_vector dims p)) =
                 Ok (PArray (zip_with_Q Qdiv x
                               (adjusted_count ep (as_vector dims p))))).
  { unfold _adjusted_sampling, adjusted_count.
    destruct ep; cbn [binop Py.bind]; apply binop_arrays;
      rewrite ?length_map; congruence. }
  assert (Hlen : length (zip_with_Q Qdiv x
                           (adjusted_count ep (as_vector dims p))) = dims).
  { rewrite length_zip_with_Q; rewrite length_adjusted_count; congruence. }
  unfold Grid_init, property_of, GridProperty_init.
  rewrite (_validate_vector DInt dims (is_count ep) p Hp).
  rewrite (_validate_vector DFloat dims positive s Hs).
  rewrite map_astype_float, (map_astype_int ep) by exact Pp.
  cbn [Py.bind _validate].
  unfold init_body, mbind, read, lift, skip, mret.
  change (arg_is_None (Raw p)) with (is_None p).
  rewrite Np. repeat step.
  rewrite Hmul. unfold write_extent, write_sampling, set_value. repeat step.
  rewrite (_validate_length DFloat dims _ Lx). repeat step.
  rewrite map_astype_float.
  rewrite Hdiv. repeat step. rewrite (_validate_length DFloat dims _ Hlen).
  rewrite map_astype_float. reflexivity.
Qed.

Lemma positive_spec (x : Q) : positive x = true <-> (0 < x)%Q.
Proof.
  unfold positive. rewrite negb_true_iff. split.
  - intros H. apply Qnot_le_lt. intros Hle. apply Qle_bool_iff in Hle. congruence.
  - intros H. destruct (Qle_bool x 0) eqn:E; [|reflexivity].
    apply Qle_bool_iff in E. exfalso. exact (Qlt_not_le _ _ H E).
Qed.

Lemma positive_div (x y : Q) :
  positive x = true -> positive y = true -> positive (x / y) = true.
Proof.
  rewrite !positive_spec. intros Hx Hy.
  apply Qlt_shift_div_l; [exact Hy|]. rewrite Qmult_0_l. exact Hx.
Qed.

Lemma positive_mult (x y : Q) :
  positive x = true -> positive y = true -> positive (x * y) = true.
Proof.
  rewrite !positive_spec. intros Hx Hy.
  rewrite <- (Qmult_0_l y). apply Qmult_lt_compat_r; assumption.
Qed.

Lemma is_count_adjusted (ep : bool) (x : Q) :
  is_count ep x = true -> positive (if ep then x - 1 else x)%Q = true.
Proof.
  destruct x as [n d]. unfold is_count. cbn [Qden Qnum].
  intros [Hd Hn]%andb_true_iff. apply Pos.eqb_eq in Hd. subst d.
  apply Z.leb_le in Hn. apply positive_spec.
  destruct ep; unfold Qlt; cbn; lia.
Qed.

Lemma forallb_adjusted_count (ep : bool) (p : list Q) :
  forallb (is_count ep) p = true -> forallb positive (adjusted_count ep p) = true.
Proof.
  unfold adjusted_count. induction p as [|x p IH]; [destruct ep; reflexivity|].
  cbn [forallb]. intros [Hx Hp]%andb_true_iff.
  pose proof (is_count_adjusted ep x Hx) as Hx'. specialize (IH Hp).
  destruct ep; cbn [List.map forallb]; rewrite Hx', IH; reflexivity.
Qed.

Lemma forallb_zip_with_Q (f : Q -> Q -> Q) (P1 P2 P3 : Q -> bool) :
  (forall x y, P1 x = true -> P2 y = true -> P3 (f x y) = true) ->
  forall xs ys, forallb P1 xs = true -> forallb P2 ys = true ->
  forallb P3 (zip_with_Q f xs ys) = true.
Proof.
  intros Hf. induction xs as [|x xs IH]; intros [|y ys]; cbn; try reflexivity.
  intros [Hx Hxs]%andb_true_iff [Hy Hys]%andb_true_iff.
  rewrite (Hf x y Hx Hy), (IH ys Hxs Hys). reflexivity.
Qed.

Lemma ceil_count_is_count (ep : bool) (r : Q) :
  positive r = true -> is_count ep (ceil_count ep r) = true.
Proof.
  intros Hr%positive_spec.
  assert (Hc : 1 <= Qceiling r).
  { assert (H : (0 < inject_Z (Qceiling r))%Q).
    { eapply Qlt_le_trans; [exact Hr|apply Qle_ceiling]. }
    change 0%Q with (inject_Z 0) in H. rewrite <- Zlt_Qlt in H. lia. }
  unfold is_count, ceil_count, ceil_int. destruct ep; cbn.
  - apply Z.leb_le. lia.
  - apply Z.leb_le. lia.
Qed.

Lemma forallb_map (P : Q -> bool) (f : Q -> Q) (P' : Q -> bool) (xs : list Q) :
  (forall x, P x = true -> P' (f x) = true) ->
  forallb P xs = true -> forallb P' (List.map f xs) = true.
Proof.
  intros Hf. induction xs as [|x xs IH]; cbn; [reflexivity|].
  intros [Hx Hxs]%andb_true_iff. rewrite (Hf x Hx), (IH Hxs). reflexivity.
Qed.

Lemma quotient_relation (e q : list Q) :
  length e = length q -> forallb positive q = true ->
  Forall3 (fun x y z => x == y * z)%Q e q (zip_with_Q Qdiv e q).
Proof.
  revert q. induction e as [|x e IH]; intros [|y q] Hlen Hq; cbn in *;
    try discriminate; [constructor|].
  apply andb_true_iff in Hq as [Hy Hq]. constructor.
  - apply positive_spec in Hy. field. intros H0. rewrite H0 in Hy.
    exact (Qlt_irrefl _ Hy).
  - apply IH; [congruence|exact Hq].
Qed.

Lemma relation_div (ep : bool) (e p : list Q) :
  length e = length p -> forallb (is_count ep) p = true ->
  relation ep e p (zip_with_Q Qdiv e (adjusted_count ep p)).
Proof.
  intros Hlen Hp. unfold relation. apply quotient_relation.
  - rewrite length_adjusted_count. exact Hlen.
  - apply forallb_adjusted_count. exact Hp.
Qed.

End GridEvaluation.

(* ===================================================================== *)
(** ** The relation between extent, gpts and sampling is an invariant      *)
(* ===================================================================== *)

Section GridInvariant.

Import GridRelation.

(** Every state reached below has this shape: an extent [e], a count [p]
    and the sampling [e / p] (or [e / (p - 1)]). *)
Lemma consistent_quotient (dims : nat) (ep : bool) (e p : list Q) :
  length e = dims -> length p = dims ->
  forallb positive e = true -> forallb (is_count ep) p = true ->
  consistent
    (MkGrid dims ep (MkProp DFloat dims (Some e) false)
            (MkProp DInt dims (Some p) false)
            (MkProp DFloat dims
               (Some (zip_with_Q Qdiv e (adjusted_count ep p))) false))
    e p (zip_with_Q Qdiv e (adjusted_count ep p)).
Proof.
  intros Le Lp Pe Pp. constructor; cbn; auto.
  - repeat split; try assumption.
    rewrite length_zip_with_Q; rewrite length_adjusted_count; congruence.
  - apply (forallb_zip_with_Q Qdiv positive positive positive positive_div);
      [exact Pe|apply forallb_adjusted_count; exact Pp].
  - apply relation_div; congruence.
Qed.

(** A consistent grid is determined by its three values. *)
Lemma consistent_shape (g : Grid) (e p s : list Q) :
  consistent g e p s ->
  g = MkGrid (dimensions g) (endpoint g)
             (MkProp DFloat (dimensions g) (Some e) false)
             (MkProp DInt (dimensions g) (Some p) false)
             (MkProp DFloat (dimensions g) (Some s) false).
Proof.
  intros H. open_consistent H.
  destruct g as [dims ep [dE nE vE lE] [dG nG vG lG] [dS nS vS lS]].
  cbn in *. subst. reflexivity.
Qed.

Lemma ceil_counts (ep : bool) (e v : list Q) :
  forallb positive e = true -> forallb positive v = true ->
  forallb (is_count ep)
          (List.map (astype DInt)
             (List.map (ceil_count ep) (zip_with_Q Qdiv e v))) = true /\
  List.map (astype DInt) (List.map (ceil_count ep) (zip_with_Q Qdiv e v))
    = List.map (ceil_count ep) (zip_with_Q Qdiv e v).
Proof.
  intros Pe Pv.
  assert (H : forallb (is_count ep)
                (List.map (ceil_count ep) (zip_with_Q Qdiv e v)) = true).
  { apply (forallb_map positive); [apply ceil_count_is_count|].
    apply (forallb_zip_with_Q Qdiv positive positive positive positive_div);
      assumption. }
  rewrite (map_astype_int ep) by exact H. auto.
Qed.

(** The decorator succeeds only if the setter it wraps has succeeded, and
    leaves the grid as the setter left it. *)
Lemma notify_success (name : string) (getter : Grid -> result pyval)
    (func : pyval -> M Grid unit) (v : pyval) (g g' : Grid) (m : message) :
  notify name getter func v g = (g', Ok m) -> func v g = (g', Ok tt).
Proof.
  unfold notify, mbind, read, lift, mret.
  destruct (getter g) as [old|]; [|discriminate].
  destruct (func v g) as [g1 [[]|]]; [|discriminate].
  destruct (any_ne old v); intros [= <- _]. reflexivity.
Qed.

(** The message it broadcasts names the property and tells whether the old
    value and the argument differ. *)
Lemma notify_message (name : string) (getter : Grid -> result pyval)
    (func : pyval -> M Grid unit) (v : pyval) (g g' : Grid) (m : message) :
  notify name getter func v g = (g', Ok m) ->
  notifier m = name /\
  exists old, getter g = Ok old /\ any_ne old v = Ok (change m).
Proof.
  unfold notify, mbind, read, lift, mret.
  destruct (getter g) as [old|]; [|discriminate].
  destruct (func v g) as [g1 [[]|]]; [|discriminate].
  destruct (any_ne old v) as [b|] eqn:Hb; intros [= _ <-].
  split; [reflexivity|]. exists old. auto.
Qed.

Lemma consistent_after_set_extent (g g' : Grid) (e p s : list Q) (v : pyval)
    (m : message) :
  consistent g e p s -> vector_of (dimensions g) positive v = true ->
  set_extent v g = (g', Ok m) ->
  exists e' p' s', consistent g' e' p' s' /\
                   dimensions g' = dimensions g /\ endpoint g' = endpoint g.
Proof.
  intros Hc Hv Hset. apply notify_success in Hset.
  rewrite (extent_setter_consistent g e p s v Hc Hv) in Hset.
  injection Hset as <-.
  destruct (vector_of_spec _ _ _ Hv) as (Lv & Pv & _).
  pose proof (consistent_shape g e p s Hc) as Hg.
  assert (HG : _gpts g = MkProp DInt (dimensions g) (Some p) false)
    by (rewrite Hg at 1; reflexivity).
  rewrite HG. eexists _, _, _. split; [|split; reflexivity].
  apply consistent_quotient; try assumption; apply Hc.
Qed.

Lemma consistent_after_set_gpts (g g' : Grid) (e p s : list Q) (v : pyval)
    (m : message) :
  consistent g e p s ->
  vector_of (dimensions g) (is_count (endpoint g)) v = true ->
  set_gpts v g = (g', Ok m) ->
  exists e' p' s', consistent g' e' p' s' /\
                   dimensions g' = dimensions g /\ endpoint g' = endpoint g.
Proof.
  intros Hc Hv Hset. apply notify_success in Hset.
  rewrite (gpts_setter_consistent g e p s v Hc Hv) in Hset.
  injection Hset as <-.
  destruct (vector_of_spec _ _ _ Hv) as (Lv & Pv & _).
  pose proof (consistent_shape g e p s Hc) as Hg.
  assert (HE : _extent g = MkProp DFloat (dimensions g) (Some e) false)
    by (rewrite Hg at 1; reflexivity).
  rewrite HE. eexists _, _, _. split; [|split; reflexivity].
  apply consistent_quotient; try assumption; apply Hc.
Qed.

Lemma consistent_after_set_sampling (g g' : Grid) (e p s : list Q) (v : pyval)
    (m : message) :
  consistent g e p s -> vector_of (dimensions g) positive v = true ->
  set_sampling v g = (g', Ok m) ->
  exists e' p' s', consistent g' e' p' s' /\
                   dimensions g' = dimensions g /\ endpoint g' = endpoint g.
Proof.
  intros Hc Hv Hset. apply notify_success in Hset.
  rewrite (sampling_setter_consistent g e p s v Hc Hv) in Hset.
  injection Hset as <-.
  destruct (vector_of_spec _ _ _ Hv) as (Lv & Pv & _).
  pose proof (consistent_shape g e p s Hc) as Hg.
  assert (HE : _extent g = MkProp DFloat (dimensions g) (Some e) false)
    by (rewrite Hg at 1; reflexivity).
  rewrite HE.
  destruct (ceil_counts (endpoint g) e (as_vector (dimensions g) v))
    as [Hcount Heq]; [apply Hc|exact Pv|].
  eexists _, _, _. split; [|split; reflexivity].
  apply consistent_quotient; try assumption; try apply Hc.
  rewrite !length_map, length_zip_with_Q; [exact Lv|].
  rewrite Lv. apply Hc.
Qed.

Lemma reachable_consistent (g : Grid) :
  reachable g -> exists e p s, consistent g e p s.
Proof.
  induction 1 as [dims ep e p g He Hp Hinit|dims ep e s g He Hs Hinit
                 |dims ep p s g Hp Hs Hinit
                 |g v g' m _ (e & p & s & IH) Hv Hset
                 |g v g' m _ (e & p & s & IH) Hv Hset
                 |g v g' m _ (e & p & s & IH) Hv Hset].
  - rewrite (Grid_init_extent_gpts dims ep e p He Hp) in Hinit.
    injection Hinit as <-.
    destruct (vector_of_spec _ _ _ He) as (Le & Pe & _).
    destruct (vector_of_spec _ _ _ Hp) as (Lp & Pp & _).
    eexists _, _, _. apply consistent_quotient; assumption.
  - rewrite (Grid_init_extent_sampling dims ep e s He Hs) in Hinit.
    injection Hinit as <-.
    destruct (vector_of_spec _ _ _ He) as (Le & Pe & _).
    destruct (vector_of_spec _ _ _ Hs) as (Ls & Ps & _).
    destruct (ceil_counts ep (as_vector dims e) (as_vector dims s) Pe Ps)
      as [Hcount Heq].
    eexists _, _, _. apply consistent_quotient; try assumption.
    rewrite !length_map, length_zip_with_Q; congruence.
  - rewrite (Grid_init_gpts_sampling dims ep p s Hp Hs) in Hinit.
    injection Hinit as <-.
    destruct (vector_of_spec _ _ _ Hp) as (Lp & Pp & _).
    destruct (vector_of_spec _ _ _ Hs) as (Ls & Ps & _).
    eexists _, _, _. apply consistent_quotient; try assumption.
    + rewrite length_zip_with_Q; rewrite ?length_adjusted_count; congruence.
    + apply (forallb_zip_with_Q Qmult positive positive positive positive_mult);
        [apply forallb_adjusted_count; exact Pp|exact Ps].
  - destruct (consistent_after_set_extent g g' e p s v m IH Hv Hset)
      as (e' & p' & s' & H & _). eauto.
  - destruct (consistent_after_set_gpts g g' e p s v m IH Hv Hset)
      as (e' & p' & s' & H & _). eauto.
  - destruct (consistent_after_set_sampling g g' e p s v m IH Hv Hset)
      as (e' & p' & s' & H & _). eauto.
Qed.

End GridInvariant.

(** C4, as amended. On every grid built by the constructor from two of
    extent, gpts and sampling given as positive numbers or vectors (gpts in
    whole numbers, at least 1, at least 2 with the endpoint), and after every
    successful setter call on any of the three with such an argument, the
    stored values satisfy [extent = gpts * sampling] componentwise,
    [(gpts - 1) * sampling] when the grid includes its endpoint. *)
Theorem grid_relation_invariant (g : Grid) :
  GridRelation.reachable g -> GridRelation.stored_relation g.
Proof.
  intros H. destruct (reachable_consistent g H) as (e & p & s & Hc).
  exists e, p, s. destruct Hc as [_ _ _ (VE & VG & VS) _ _ _ _ R]. auto.
Qed.

(** A grid built from an extent of 5 and a sampling of 2 in two dimensions
    (3 points, sampling 5/3), then given 4 points. *)
Lemma grid_relation_invariant_witness :
  exists g0 g1 m,
    Grid_init (Raw (PScalar 5)) (Raw PNone) (Raw (PArray [2; 2]%Q)) 2 false = Ok g0 /\
    set_gpts (PArray [4; 4]%Q) g0 = (g1, Ok m) /\
    _value (_sampling g1) = Some [5 # 4; 5 # 4]%Q /\
    GridRelation.stored_relation g1.
Proof.
  eexists _, _, _.
  split; [vm_compute; reflexivity|].
  split; [vm_compute; reflexivity|].
  split; [reflexivity|].
  apply grid_relation_invariant.
  eapply (GridRelation.after_set_gpts _ (PArray [4; 4]%Q)).
  - eapply (GridRelation.from_extent_sampling 2 false (PScalar 5) (PArray [2; 2]%Q)).
    + reflexivity.
    + reflexivity.
    + vm_compute. reflexivity.
  - reflexivity.
  - vm_compute. reflexivity.
Defined.

(** C4, as stated, fails: setters succeed on other arguments and leave the
    relation broken. On [Grid(extent=5, gpts=10)], [g.gpts = 10.5] computes
    the sampling from the number given, [5 / 10.5], and stores the gpts
    truncated to 10, so that [5 <> 10 * (10 / 21)]; and [g.sampling = None]
    stores [None] beside a defined extent and gpts. *)
Lemma grid_relation_lost_by_setter :
  exists g g1 g2,
    Grid_init (Raw (PScalar 5)) (Raw (PScalar 10)) (Raw PNone) 2 false = Ok g /\
    GridRelation.stored_relation g /\
    set_gpts (PScalar (21 # 2)) g = (g1, Ok (Message "gpts" true)) /\
    _value (_extent g1) = Some [5; 5]%Q /\
    _value (_gpts g1) = Some [10; 10]%Q /\
    _value (_sampling g1) = Some [10 # 21; 10 # 21]%Q /\
    ~ GridRelation.stored_relation g1 /\
    set_sampling PNone g = (g2, Ok (Message "sampling" true)) /\
    _value (_extent g2) = Some [5; 5]%Q /\
    _value (_gpts g2) = Some [10; 10]%Q /\
    _value (_sampling g2) = None /\
    ~ GridRelation.stored_relation g2.
Proof.
  eexists _, _, _.
  split; [vm_compute; reflexivity|].
  split.
  { exists [5; 5]%Q, [10; 10]%Q, [5 # 10; 5 # 10]%Q.
    repeat split; try reflexivity.
    repeat constructor; reflexivity. }
  split; [vm_compute; reflexivity|].
  split; [reflexivity|]. split; [reflexivity|]. split; [reflexivity|].
  split.
  { intros (e & p & s & He & Hp & Hs & R).
    cbn in He, Hp, Hs. injection He as <-. injection Hp as <-. injection Hs as <-.
    unfold GridRelation.relation in R. cbn in R.
    inversion R as [|x y z e' p' s' H _]; subst. vm_compute in H. discriminate. }
  split; [vm_compute; reflexivity|].
  split; [reflexivity|]. split; [reflexivity|]. split; [reflexivity|].
  intros (e & p & s & _ & _ & Hs & _). cbn in Hs. discriminate.
Qed.

(* ===================================================================== *)
(** ** The gpts the constructor derives from extent and sampling           *)
(* ===================================================================== *)

Section LockedInit.




End LockedInit.



(* ===================================================================== *)
(** ** Matching two grids                                                  *)
(* ===================================================================== *)

Ltac lens :=
  repeat first [rewrite length_map | rewrite length_adjusted_count
               | rewrite length_zip_with_Q];
  try congruence.

Section GridMatch.

Import GridRelation.

Lemma getters_plain (g : Grid) :
  plain g ->
  extent g = Ok (value (_extent g)) /\ gpts g = Ok (value (_gpts g)) /\
  sampling g = Ok (value (_sampling g)).
Proof.
  intros [(HE & HS) _ _ _ _ _].
  rewrite extent_closed, gpts_closed, sampling_closed, HE, HS.
  rewrite andb_false_r. auto.
Qed.

Lemma any_ne_arrays (xs ys : list Q) :
  length xs = length ys ->
  any_ne (PArray xs) (PArray ys) = Ok (vectors_differ xs ys).
Proof.
  intros H. cbn. unfold broadcast. rewrite H, Nat.eqb_refl. reflexivity.
Qed.

Lemma vectors_differ_false (xs ys : list Q) :
  length xs = length ys -> vectors_differ xs ys = false -> Forall2 Qeq xs ys.
Proof.
  unfold vectors_differ. revert ys.
  induction xs as [|x xs IH]; intros [|y ys] Hlen; cbn in *; try discriminate;
    [constructor|].
  intros [Hxy H]%orb_false_iff. constructor.
  - destruct (Qneq_bool x y) eqn:E; [discriminate Hxy|].
    unfold Qneq_bool in E. apply negb_false_iff, Qeq_bool_iff in E. exact E.
  - apply IH; [congruence|exact H].
Qed.

Lemma Forall2_Qeq_refl (xs : list Q) : Forall2 Qeq xs xs.
Proof. induction xs; constructor; [apply Qeq_refl|assumption]. Qed.

(** The decorator around a setter whose old value can be read and compared. *)
Lemma notify_run (name : string) (getter : Grid -> result pyval)
    (func : pyval -> M Grid unit) (v old : pyval) (b : bool) (g : Grid) :
  getter g = Ok old -> any_ne old v = Ok b ->
  notify name getter func v g =
    match func v g with
    | (g', Ok _) => (g', Ok (Message name b))
    | (g', Raise e) => (g', Raise e)
    end.
Proof.
  intros Hg Hne. unfold notify, mbind, read, lift, mret. rewrite Hg.
  destruct (func v g) as [g' [[]|e]]; [rewrite Hne|]; reflexivity.
Qed.

Lemma any_ne_stored (o : option (list Q)) (v : list Q) :
  (forall e, o = Some e -> length e = length v) ->
  exists b, any_ne (of_option o) (PArray v) = Ok b.
Proof.
  intros H. destruct o as [e|]; cbn [of_option].
  - rewrite any_ne_arrays by (apply H; reflexivity). eauto.
  - cbn. eauto.
Qed.

Lemma _adjusted_sampling_arrays ep e p :
  length e = length p ->
  _adjusted_sampling ep (PArray e) (PArray p) =
    Ok (PArray (zip_with_Q Qdiv e (adjusted_count ep p))).
Proof.
  intros H. unfold _adjusted_sampling, adjusted_count.
  destruct ep; cbn [binop Py.bind]; apply binop_arrays;
    rewrite ?length_map; exact H.
Qed.

Lemma _adjusted_extent_arrays ep p s :
  length p = length s ->
  _adjusted_extent ep (PArray p) (PArray s) =
    Ok (PArray (zip_with_Q Qmult (adjusted_count ep p) s)).
Proof.
  intros H. unfold _adjusted_extent, adjusted_count.
  destruct ep; cbn [binop Py.bind]; apply binop_arrays;
    rewrite ?length_map; exact H.
Qed.

Lemma _adjusted_gpts_arrays ep e s :
  length e = length s ->
  _adjusted_gpts ep (PArray e) (PArray s) =
    Ok (PArray (List.map (ceil_count ep) (zip_with_Q Qdiv e s))).
Proof.
  intros H. unfold _adjusted_gpts. rewrite (binop_arrays Qdiv e s H).
  cbn [Py.bind unop]. destruct ep; cbn [binop]; rewrite ?List.map_map; reflexivity.
Qed.

Lemma extent_setter_plain (g : Grid) (v : list Q) :
  plain g -> length v = dimensions g ->
  extent_setter (PArray v) g =
    let dims := dimensions g in
    let ep := endpoint g in
    let E := MkProp DFloat dims (Some v) false in
    match _value (_gpts g), _value (_sampling g) with
    | Some p, _ =>
        (MkGrid dims ep E (_gpts g)
           (MkProp DFloat dims (Some (zip_with_Q Qdiv v (adjusted_count ep p))) false),
         Ok tt)
    | None, Some s =>
        if _locked (_gpts g) then (MkGrid dims ep E (_gpts g) (_sampling g), Ok tt)
        else
          let c := List.map (astype DInt)
                     (List.map (ceil_count ep) (zip_with_Q Qdiv v s)) in
          (MkGrid dims ep E (MkProp DInt dims (Some c) false)
             (MkProp DFloat dims (Some (zip_with_Q Qdiv v (adjusted_count ep c))) false),
           Ok tt)
    | None, None => (MkGrid dims ep E (_gpts g) (_sampling g), Ok tt)
    end.
Proof.
  intros [(HE & HS) (DE & DG & DS) (NE & NG & NS) LE LG LS] Lv.
  destruct g as [dims ep [dE nE vE lE] [dG nG vG lG] [dS nS vS lS]].
  cbn in *. subst.
  unfold extent_setter, mbind, read, lift, both_locked,
         write_sampling, write_gpts, write_extent, set_value. run.
  rewrite andb_false_r. repeat step.
  destruct vG as [p|]; run.
  - destruct (LG p eq_refl) as [Lp _].
    rewrite _adjusted_sampling_arrays by congruence. run.
    rewrite _validate_length by lens. run.
    rewrite _validate_length by lens.
    rewrite !map_astype_float. reflexivity.
  - repeat step. destruct vS as [s|]; run.
    + pose proof (LS s eq_refl) as Ls. destruct lG; run.
      * rewrite _validate_length by lens. rewrite !map_astype_float. reflexivity.
      * rewrite _adjusted_gpts_arrays by congruence. run.
        rewrite _validate_length by lens. run. repeat step.
        rewrite _adjusted_sampling_arrays by lens. run.
        rewrite _validate_length by lens. run.
        rewrite _validate_length by lens.
        rewrite !map_astype_float. reflexivity.
    + rewrite orb_true_r. run.
      rewrite _validate_length by lens. rewrite !map_astype_float. reflexivity.
Qed.

Lemma gpts_setter_plain (g : Grid) (e v : list Q) :
  plain g -> _value (_extent g) = Some e ->
  length v = dimensions g -> List.map (astype DInt) v = v ->
  gpts_setter (PArray v) g =
    let dims := dimensions g in
    let ep := endpoint g in
    let S' := MkProp DFloat dims
                (Some (zip_with_Q Qdiv e (adjusted_count ep v))) false in
    if _locked (_gpts g)
    then (MkGrid dims ep (_extent g) (_gpts g) S',
          Raise (RuntimeError "grid property locked"))
    else (MkGrid dims ep (_extent g) (MkProp DInt dims (Some v) false) S', Ok tt).
Proof.
  intros [(HE & HS) (DE & DG & DS) (NE & NG & NS) LE LG LS] He Lv Iv.
  destruct g as [dims ep [dE nE vE lE] [dG nG vG lG] [dS nS vS lS]].
  cbn in *. subst.
  pose proof (LE e eq_refl) as Le.
  unfold gpts_setter, mbind, read, lift, both_locked,
         write_sampling, write_gpts, write_extent, set_value. run.
  repeat step.
  rewrite _adjusted_sampling_arrays by congruence. run.
  rewrite _validate_length by lens. run.
  rewrite !map_astype_float.
  destruct lG; run; [reflexivity|].
  rewrite _validate_length by lens. rewrite Iv. reflexivity.
Qed.


Lemma plain_build (dims : nat) (ep lG : bool) (oe op os : option (list Q)) :
  (forall e, oe = Some e -> length e = dims) ->
  (forall p, op = Some p -> length p = dims /\ List.map (astype DInt) p = p) ->
  (forall s, os = Some s -> length s = dims) ->
  plain (MkGrid dims ep (MkProp DFloat dims oe false) (MkProp DInt dims op lG)
                (MkProp DFloat dims os false)).
Proof. intros He Hp Hs. constructor; cbn; auto. Qed.

Lemma plain_shape (g : Grid) :
  plain g ->
  g = MkGrid (dimensions g) (endpoint g)
        (MkProp DFloat (dimensions g) (_value (_extent g)) false)
        (MkProp DInt (dimensions g) (_value (_gpts g)) (_locked (_gpts g)))
        (MkProp DFloat (dimensions g) (_value (_sampling g)) false).
Proof.
  intros [(HE & HS) (DE & DG & DS) (NE & NG & NS) _ _ _].
  destruct g as [dims ep [dE nE vE lE] [dG nG vG lG] [dS nS vS lS]].
  cbn in *. subst. reflexivity.
Qed.

Lemma astype_int_idempotent (xs : list Q) :
  List.map (astype DInt) (List.map (astype DInt) xs) = List.map (astype DInt) xs.
Proof.
  rewrite List.map_map. apply List.map_ext. intros x.
  unfold astype, trunc.
  assert (H : forall z, (if Qle_bool 0 (inject_Z z) then Qfloor (inject_Z z)
                         else Qceiling (inject_Z z)) = z).
  { intros z. rewrite Qfloor_Z, Qceiling_Z. destruct (Qle_bool _ _); reflexivity. }
  rewrite H. reflexivity.
Qed.

Lemma set_extent_plain_inv (g g' : Grid) (v : list Q) (m : message) :
  plain g -> length v = dimensions g ->
  set_extent (PArray v) g = (g', Ok m) ->
  plain g' /\ dimensions g' = dimensions g /\
  _value (_extent g') = Some v /\
  _locked (_gpts g') = _locked (_gpts g) /\
  gpts_kept_or_derived g g'.
Proof.
  intros Hp Lv Hset. apply notify_success in Hset.
  rewrite (extent_setter_plain g v Hp Lv) in Hset. cbn zeta in Hset.
  pose proof Hp as [_ _ _ LE LG LS].
  unfold gpts_kept_or_derived.
  rewrite (plain_shape g Hp) in Hset |- *. cbn [_value _gpts _sampling _locked dimensions endpoint] in *.
  destruct (_value (_gpts g)) as [p|] eqn:EG.
  - injection Hset as <-. cbn.
    split; [|split; [reflexivity|split; [reflexivity|split; [reflexivity|left; reflexivity]]]].
    apply plain_build; auto.
    + intros e [= <-]. exact Lv.
    + intros s [= <-]. destruct (LG p eq_refl). lens.
  - destruct (_value (_sampling g)) as [s|] eqn:ES.
    + destruct (_locked (_gpts g)) eqn:EL.
      * injection Hset as <-. cbn.
        split; [|split; [reflexivity|split; [reflexivity|split; [reflexivity|left; reflexivity]]]].
        apply plain_build; auto. intros e [= <-]. exact Lv.
      * injection Hset as <-. cbn.
        split; [|split; [reflexivity|split; [reflexivity|split; [reflexivity|]]]].
        -- pose proof (LS s eq_refl).
           apply plain_build.
           ++ intros e [= <-]. exact Lv.
           ++ intros p [= <-]. split; [lens|apply astype_int_idempotent].
           ++ intros s' [= <-]. lens.
        -- right. split; [reflexivity|]. split; [reflexivity|]. congruence.
    + injection Hset as <-. cbn.
      split; [|split; [reflexivity|split; [reflexivity|split; [reflexivity|left; reflexivity]]]].
      apply plain_build; auto. intros e [= <-]. exact Lv.
Qed.

Lemma set_gpts_plain_inv (g g' : Grid) (e v : list Q) (m : message) :
  plain g -> _value (_extent g) = Some e ->
  length v = dimensions g -> List.map (astype DInt) v = v ->
  set_gpts (PArray v) g = (g', Ok m) ->
  _value (_extent g') = Some e /\ _value (_gpts g') = Some v.
Proof.
  intros Hp He Lv Iv Hset. apply notify_success in Hset.
  rewrite (gpts_setter_plain g e v Hp He Lv Iv) in Hset. cbn zeta in Hset.
  destruct (_locked (_gpts g)); [discriminate|].
  injection Hset as <-. cbn. auto.
Qed.

(** The test of [check_grids_can_match] on one pair of stored values. *)
Lemma mismatch_test (o1 o2 : option (list Q)) :
  (forall x y, o1 = Some x -> o2 = Some y -> length x = length y) ->
  exists b,
    any_ne (of_option o1) (of_option o2) = Ok b /\
    (negb (is_None (of_option o1)) && negb (is_None (of_option o2)) && b = false ->
     forall x y, o1 = Some x -> o2 = Some y -> Forall2 Qeq x y).
Proof.
  intros Hlen. destruct o1 as [x|], o2 as [y|]; cbn [of_option].
  - rewrite (any_ne_arrays x y (Hlen x y eq_refl eq_refl)).
    eexists. split; [reflexivity|]. cbn. intros Hd x' y' [= <-] [= <-].
    apply vectors_differ_false; [apply Hlen; reflexivity|exact Hd].
  - cbn. eexists. split; [reflexivity|]. intros _ ? ? _ [=].
  - cbn. eexists. split; [reflexivity|]. intros _ ? ? [=].
  - cbn. eexists. split; [reflexivity|]. intros _ ? ? [=].
Qed.

Lemma check_plain (g1 g2 : Grid) :
  plain g1 -> plain g2 -> dimensions g1 = dimensions g2 ->
  check_grids_can_match g1 g2 = Ok tt ->
  (forall e1 e2, _value (_extent g1) = Some e1 -> _value (_extent g2) = Some e2 ->
                 Forall2 Qeq e1 e2) /\
  (forall p1 p2, _value (_gpts g1) = Some p1 -> _value (_gpts g2) = Some p2 ->
                 Forall2 Qeq p1 p2).
Proof.
  intros H1 H2 Hd.
  destruct (getters_plain g1 H1) as (Xe1 & Xp1 & _).
  destruct (getters_plain g2 H2) as (Xe2 & Xp2 & _).
  unfold check_grids_can_match. rewrite Xe1, Xe2, Xp1, Xp2. unfold value.
  cbn [Py.bind].
  destruct (mismatch_test (_value (_extent g1)) (_value (_extent g2)))
    as (be & -> & Hbe).
  { intros x y Hx Hy. rewrite (p_extent _ H1 x Hx), (p_extent _ H2 y Hy). exact Hd. }
  destruct (mismatch_test (_value (_gpts g1)) (_value (_gpts g2)))
    as (bp & -> & Hbp).
  { intros x y Hx Hy.
    destruct (p_gpts _ H1 x Hx) as [-> _]. destruct (p_gpts _ H2 y Hy) as [-> _].
    exact Hd. }
  cbn [Py.bind].
  destruct (_ && _ && be) eqn:Te; [discriminate|].
  destruct (_ && _ && bp) eqn:Tp; [discriminate|].
  intros _. split; [apply Hbe; reflexivity|apply Hbp; reflexivity].
Qed.

Lemma match_extent_inv (g1 g2 a1 a2 : Grid) :
  plain g1 -> plain g2 -> dimensions g1 = dimensions g2 ->
  match_extent (g1, g2) = ((a1, a2), Ok tt) ->
  plain a1 /\ plain a2 /\
  dimensions a1 = dimensions g1 /\ dimensions a2 = dimensions g2 /\
  ((exists e, _value (_extent g1) = None /\ _value (_extent g2) = Some e /\
              a2 = g2 /\ _value (_extent a1) = Some e /\
              gpts_kept_or_derived g1 a1) \/
   (exists e, _value (_extent g1) = Some e /\ _value (_extent g2) = None /\
              a1 = g1 /\ _value (_extent a2) = Some e /\
              gpts_kept_or_derived g2 a2) \/
   (exists e1 e2, _value (_extent g1) = Some e1 /\ _value (_extent g2) = Some e2 /\
                  a1 = g1 /\ a2 = g2)).
Proof.
  intros H1 H2 Hd.
  destruct (getters_plain g1 H1) as (Xe1 & _ & _).
  destruct (getters_plain g2 H2) as (Xe2 & _ & _).
  unfold match_extent, mbind, read, on_fst, on_snd, skip, mret, raise.
  cbn [fst snd]. rewrite Xe1, Xe2. unfold value.
  destruct (_value (_extent g1)) as [e1|] eqn:E1,
           (_value (_extent g2)) as [e2|] eqn:E2;
    cbn [of_option is_None andb fst snd].
  - intros [= <- <-]. repeat (split; [assumption || reflexivity|]).
    right. right. eauto 10.
  - destruct (set_extent (PArray e1) g2) as [g2' [m|err]] eqn:Hset; cbn;
      [|discriminate].
    intros [= <- <-].
    destruct (set_extent_plain_inv g2 g2' e1 m H2) as (P2 & D2 & V2 & _ & K2);
      [rewrite (p_extent _ H1 e1 E1); exact Hd|exact Hset|].
    repeat (split; [assumption || reflexivity|]).
    right. left. eauto 10.
  - destruct (set_extent (PArray e2) g1) as [g1' [m|err]] eqn:Hset; cbn;
      [|discriminate].
    intros [= <- <-].
    destruct (set_extent_plain_inv g1 g1' e2 m H1) as (P1 & D1 & V1 & _ & K1);
      [rewrite (p_extent _ H2 e2 E2); symmetry; exact Hd|exact Hset|].
    repeat (split; [assumption || reflexivity|]).
    left. eauto 10.
  - discriminate.
Qed.

Lemma match_gpts_inv (a1 a2 b1 b2 : Grid) (e1 e2 : list Q) :
  plain a1 -> plain a2 -> dimensions a1 = dimensions a2 ->
  _value (_extent a1) = Some e1 -> _value (_extent a2) = Some e2 ->
  match_gpts (a1, a2) = ((b1, b2), Ok tt) ->
  _value (_extent b1) = Some e1 /\ _value (_extent b2) = Some e2 /\
  ((exists p, (_value (_gpts a1) = None \/ _value (_gpts a2) = None) /\
              _value (_gpts b1) = Some p /\ _value (_gpts b2) = Some p) \/
   (exists p1 p2, _value (_gpts a1) = Some p1 /\ _value (_gpts a2) = Some p2 /\
                  b1 = a1 /\ b2 = a2)).
Proof.
  intros H1 H2 Hd E1 E2.
  destruct (getters_plain a1 H1) as (_ & Xp1 & _).
  destruct (getters_plain a2 H2) as (_ & Xp2 & _).
  unfold match_gpts, mbind, read, on_fst, on_snd, skip, mret, raise.
  cbn [fst snd]. rewrite Xp1, Xp2. unfold value.
  destruct (_value (_gpts a1)) as [p1|] eqn:G1,
           (_value (_gpts a2)) as [p2|] eqn:G2;
    cbn [of_option is_None andb fst snd].
  - intros [= <- <-]. split; [exact E1|]. split; [exact E2|]. right. eauto 10.
  - destruct (set_gpts (PArray p1) a2) as [a2' [m|err]] eqn:Hset; cbn;
      [|discriminate].
    intros [= <- <-]. destruct (p_gpts _ H1 p1 G1) as [L1 I1].
    destruct (set_gpts_plain_inv a2 a2' e2 p1 m H2 E2) as (V2 & W2);
      [congruence|exact I1|exact Hset|].
    split; [exact E1|]. split; [exact V2|]. left. exists p1. auto.
  - destruct (set_gpts (PArray p2) a1) as [a1' [m|err]] eqn:Hset; cbn;
      [|discriminate].
    intros [= <- <-]. destruct (p_gpts _ H2 p2 G2) as [L2 I2].
    destruct (set_gpts_plain_inv a1 a1' e1 p2 m H1 E1) as (V1 & W1);
      [congruence|exact I2|exact Hset|].
    split; [exact V1|]. split; [exact E2|]. left. exists p2. auto.
  - discriminate.
Qed.

(** What a successful [match_grid] leaves behind. *)
Lemma match_grid_success (g1 g2 g1' g2' : Grid) :
  plain g1 -> plain g2 -> dimensions g1 = dimensions g2 ->
  match_grid (g1, g2) = ((g1', g2'), Ok tt) ->
  same_vector (_value (_extent g1')) (_value (_extent g2')) /\
  (~ derives_gpts g1 g2 -> ~ derives_gpts g2 g1 ->
   same_vector (_value (_gpts g1')) (_value (_gpts g2'))).
Proof.
  intros H1 H2 Hd. unfold match_grid, mbind, read. cbn [fst snd].
  destruct (check_grids_can_match g1 g2) as [[]|] eqn:Hc; [|discriminate].
  destruct (check_plain g1 g2 H1 H2 Hd Hc) as (Ce & Cp).
  destruct (match_extent (g1, g2)) as [[a1 a2] [[]|]] eqn:Hme; [|discriminate].
  intros Hmg.
  destruct (match_extent_inv g1 g2 a1 a2 H1 H2 Hd Hme)
    as (P1 & P2 & D1 & D2 & Hext).
  assert (Hda : dimensions a1 = dimensions a2) by congruence.
  assert (Hex : exists e1 e2, _value (_extent a1) = Some e1 /\
                              _value (_extent a2) = Some e2 /\ Forall2 Qeq e1 e2).
  { destruct Hext as [(e & E1 & E2 & -> & V1 & _)
                     |[(e & E1 & E2 & -> & V2 & _)|(e1 & e2 & E1 & E2 & -> & ->)]].
    - exists e, e. auto using Forall2_Qeq_refl.
    - exists e, e. auto using Forall2_Qeq_refl.
    - exists e1, e2. auto. }
  destruct Hex as (e1 & e2 & V1 & V2 & Heq).
  destruct (match_gpts_inv a1 a2 g1' g2' e1 e2 P1 P2 Hda V1 V2 Hmg)
    as (W1 & W2 & Hg).
  split; [exists e1, e2; auto|].
  intros N12 N21.
  destruct Hg as [(p & _ & B1 & B2)|(p1 & p2 & G1 & G2 & -> & ->)].
  { exists p, p. auto using Forall2_Qeq_refl. }
  exists p1, p2. split; [exact G1|]. split; [exact G2|].
  destruct Hext as [(e & E1 & E2 & -> & _ & K)
                   |[(e & E1 & E2 & -> & _ & K)|(? & ? & _ & _ & -> & ->)]].
  - destruct K as [K|(Kn & Kl & Ks)].
    + apply Cp; congruence.
    + exfalso. apply N12. unfold derives_gpts. repeat split; congruence.
  - destruct K as [K|(Kn & Kl & Ks)].
    + apply Cp; congruence.
    + exfalso. apply N21. unfold derives_gpts. repeat split; congruence.
  - apply Cp; assumption.
Qed.

(** Without a gpts on either side, and without a sampling from which one
    could be derived, the call raises. *)
Lemma match_grid_gpts_undefined (g1 g2 : Grid) :
  plain g1 -> plain g2 -> dimensions g1 = dimensions g2 ->
  _value (_gpts g1) = None -> _value (_gpts g2) = None ->
  (_value (_extent g1) = None -> _value (_sampling g1) = None) ->
  (_value (_extent g2) = None -> _value (_sampling g2) = None) ->
  raises (snd (match_grid (g1, g2))).
Proof.
  intros H1 H2 Hd G1 G2 S1 S2.
  destruct (match_grid (g1, g2)) as [[b1 b2] [[]|err]] eqn:Hm;
    [exfalso|eexists; reflexivity].
  revert Hm. unfold match_grid, mbind, read. cbn [fst snd].
  destruct (check_grids_can_match g1 g2) as [[]|] eqn:Hc; [|discriminate].
  destruct (match_extent (g1, g2)) as [[a1 a2] [[]|]] eqn:Hme; [|discriminate].
  intros Hmg.
  destruct (match_extent_inv g1 g2 a1 a2 H1 H2 Hd Hme)
    as (P1 & P2 & D1 & D2 & Hext).
  assert (Hda : dimensions a1 = dimensions a2) by congruence.
  assert (Hex : exists e1 e2, _value (_extent a1) = Some e1 /\
                              _value (_extent a2) = Some e2 /\
                              _value (_gpts a1) = None /\ _value (_gpts a2) = None).
  { destruct Hext as [(e & E1 & E2 & -> & V1 & K)
                     |[(e & E1 & E2 & -> & V2 & K)|(e1 & e2 & E1 & E2 & -> & ->)]].
    - exists e, e. repeat split; auto.
      destruct K as [K|(_ & _ & Ks)]; [congruence|]. exfalso. auto.
    - exists e, e. repeat split; auto.
      destruct K as [K|(_ & _ & Ks)]; [congruence|]. exfalso. auto.
    - exists e1, e2. auto. }
  destruct Hex as (e1 & e2 & V1 & V2 & N1 & N2).
  destruct (match_gpts_inv a1 a2 b1 b2 e1 e2 P1 P2 Hda V1 V2 Hmg)
    as (_ & _ & Hg).
  revert Hmg. unfold match_gpts, mbind, read, raise. cbn [fst snd].
  destruct (getters_plain a1 P1) as (_ & -> & _).
  destruct (getters_plain a2 P2) as (_ & -> & _).
  unfold value. rewrite N1, N2. cbn. discriminate.
Qed.

(** A mismatch is found before anything is written. *)
Lemma match_grid_extent_mismatch (g1 g2 : Grid) (e1 e2 : list Q) :
  extent g1 = Ok (PArray e1) -> extent g2 = Ok (PArray e2) ->
  any_ne (PArray e1) (PArray e2) = Ok true ->
  match_grid (g1, g2) = ((g1, g2), Raise (RuntimeError "inconsistent grid extent")).
Proof.
  intros X1 X2 Hne. unfold match_grid, mbind, read, check_grids_can_match.
  cbn [fst snd]. rewrite X1, X2. cbn [Py.bind]. rewrite Hne. reflexivity.
Qed.

Lemma match_grid_gpts_mismatch (g1 g2 : Grid) (p1 p2 : list Q) :
  gpts g1 = Ok (PArray p1) -> gpts g2 = Ok (PArray p2) ->
  any_ne (PArray p1) (PArray p2) = Ok true ->
  exists err, match_grid (g1, g2) = ((g1, g2), Raise err).
Proof.
  intros X1 X2 Hne. unfold match_grid, mbind, read, check_grids_can_match.
  cbn [fst snd]. rewrite X1, X2.
  destruct (extent g1) as [se|]; cbn [Py.bind]; [|eauto].
  destruct (extent g2) as [oe|]; cbn [Py.bind]; [|eauto].
  destruct (any_ne se oe) as [de|]; cbn [Py.bind]; [|eauto].
  destruct (_ && _ && de); [eauto|].
  rewrite Hne. cbn. eauto.
Qed.

(** No extent on either side: the call raises, nothing is written. *)
Lemma match_grid_extent_undefined (g1 g2 : Grid) :
  extent g1 = Ok PNone -> extent g2 = Ok PNone ->
  exists err, match_grid (g1, g2) = ((g1, g2), Raise err).
Proof.
  intros X1 X2.
  unfold match_grid, match_extent, mbind, read, raise, check_grids_can_match.
  cbn [fst snd]. rewrite X1, X2. cbn [Py.bind any_ne is_None negb andb].
  destruct (gpts g1) as [sp|]; cbn [Py.bind]; [|eauto].
  destruct (gpts g2) as [op|]; cbn [Py.bind]; [|eauto].
  destruct (any_ne sp op) as [dp|]; cbn [Py.bind]; [|eauto].
  destruct (_ && _ && dp); eauto.
Qed.

End GridMatch.

(** C8 as stated fails. A grid that holds only a sampling of 0.1 is matched
    with a grid of extent 1.05 and 10 points: the call succeeds, the first
    grid gets the extent and derives 11 points from it, and the two gpts
    differ. Matched with a grid that holds only an extent, where gpts is
    undefined on both sides, the call succeeds as well. *)
Lemma match_grid_gpts_may_differ :
  Grid_init (Raw PNone) (Raw PNone) (Raw (PScalar (1 # 10))) 2 false
    = Ok Examples.sampling_only /\
  Grid_init (Raw (PScalar (105 # 100))) (Raw (PScalar 10)) (Raw PNone) 2 false
    = Ok Examples.extent_and_gpts /\
  Grid_init (Raw (PScalar (105 # 100))) (Raw PNone) (Raw PNone) 2 false
    = Ok Examples.extent_only /\
  (exists g1' g2',
     match_grid (Examples.sampling_only, Examples.extent_and_gpts)
       = ((g1', g2'), Ok tt) /\
     _value (_gpts g1') = Some [11; 11]%Q /\
     _value (_gpts g2') = Some [10; 10]%Q /\
     ~ Forall2 Qeq [11; 11]%Q [10; 10]%Q) /\
  (gpts Examples.sampling_only = Ok PNone /\
   gpts Examples.extent_only = Ok PNone /\
   exists g1' g2',
     match_grid (Examples.sampling_only, Examples.extent_only)
       = ((g1', g2'), Ok tt) /\
     _value (_gpts g1') = Some [11; 11]%Q /\
     _value (_gpts g2') = Some [11; 11]%Q).
Proof.
  split; [vm_compute; reflexivity|].
  split; [vm_compute; reflexivity|].
  split; [vm_compute; reflexivity|].
  split.
  - eexists _, _. split; [vm_compute; reflexivity|].
    split; [reflexivity|]. split; [reflexivity|].
    intros H. inversion H as [|? ? ? ? Hq _]. discriminate Hq.
  - split; [vm_compute; reflexivity|]. split; [vm_compute; reflexivity|].
    eexists _, _. split; [vm_compute; reflexivity|].
    split; reflexivity.
Qed.

(** C8, amended. For two grids [g1] (self) and [g2] (other):
    - if both define extent, or both define gpts, and [np.any(a != b)] is
      true of the two values, the call raises and neither grid is changed;
    - if extent is undefined on both, the call raises;
    - for grids of one dimension whose extent and sampling are not locked:
      if gpts is undefined on both and a grid without extent has no
      sampling either, the call raises; and after a successful call both
      grids hold equal extents, and equal gpts unless one grid received its
      extent while it held a sampling and no gpts (its gpts is then derived
      from the two) and the other grid had a gpts of its own. *)
Theorem match_grid_contract (g1 g2 : Grid) :
  (forall e1 e2, extent g1 = Ok (PArray e1) -> extent g2 = Ok (PArray e2) ->
     any_ne (PArray e1) (PArray e2) = Ok true ->
     match_grid (g1, g2)
       = ((g1, g2), Raise (RuntimeError "inconsistent grid extent"))) /\
  (forall p1 p2, gpts g1 = Ok (PArray p1) -> gpts g2 = Ok (PArray p2) ->
     any_ne (PArray p1) (PArray p2) = Ok true ->
     exists err, match_grid (g1, g2) = ((g1, g2), Raise err)) /\
  (extent g1 = Ok PNone -> extent g2 = Ok PNone ->
     exists err, match_grid (g1, g2) = ((g1, g2), Raise err)) /\
  (GridRelation.plain g1 -> GridRelation.plain g2 ->
   dimensions g1 = dimensions g2 ->
   (_value (_gpts g1) = None -> _value (_gpts g2) = None ->
    (_value (_extent g1) = None -> _value (_sampling g1) = None) ->
    (_value (_extent g2) = None -> _value (_sampling g2) = None) ->
    raises (snd (match_grid (g1, g2)))) /\
   (forall g1' g2', match_grid (g1, g2) = ((g1', g2'), Ok tt) ->
      GridRelation.same_vector (_value (_extent g1')) (_value (_extent g2')) /\
      (~ GridRelation.derives_gpts g1 g2 -> ~ GridRelation.derives_gpts g2 g1 ->
       GridRelation.same_vector (_value (_gpts g1')) (_value (_gpts g2'))))).
Proof.
  split; [intros; eapply match_grid_extent_mismatch; eassumption|].
  split; [intros; eapply match_grid_gpts_mismatch; eassumption|].
  split; [intros; eapply match_grid_extent_undefined; eassumption|].
  intros H1 H2 Hd. split.
  - intros. apply match_grid_gpts_undefined; assumption.
  - intros g1' g2' Hm. apply match_grid_success; assumption.
Qed.

Lemma match_grid_contract_witness :
  match_grid (Examples.extent_two, Examples.extent_and_gpts)
    = ((Examples.extent_two, Examples.extent_and_gpts),
       Raise (RuntimeError "inconsistent grid extent")) /\
  (exists err, match_grid (Examples.nothing_defined, Examples.sampling_only)
                 = ((Examples.nothing_defined, Examples.sampling_only), Raise err)) /\
  raises (snd (match_grid (Examples.extent_two, Examples.extent_only))) /\
  (exists g1' g2',
     match_grid (Examples.array_grid, Examples.extent_and_gpts) = ((g1', g2'), Ok tt) /\
     GridRelation.same_vector (_value (_extent g1')) (_value (_extent g2')) /\
     GridRelation.same_vector (_value (_gpts g1')) (_value (_gpts g2'))).
Proof.
  assert (Hplain : forall g, In g [Examples.extent_two; Examples.extent_only;
                                   Examples.array_grid; Examples.extent_and_gpts] ->
                             GridRelation.plain g).
  { intros g Hg. cbn in Hg.
    destruct Hg as [<-|[<-|[<-|[<-|[]]]]]; apply plain_build;
      intros ? [= <-]; repeat split; reflexivity. }
  split; [|split; [|split]].
  - apply (match_grid_contract Examples.extent_two Examples.extent_and_gpts)
      with (e1 := [2; 2]%Q) (e2 := [105 # 100; 105 # 100]%Q);
      vm_compute; reflexivity.
  - apply (match_grid_contract Examples.nothing_defined Examples.sampling_only);
      vm_compute; reflexivity.
  - apply (match_grid_contract Examples.extent_two Examples.extent_only);
      try (apply Hplain; cbn; tauto); try reflexivity; intros [=].
  - destruct (match_grid (Examples.array_grid, Examples.extent_and_gpts))
      as [[g1' g2'] r] eqn:Hm.
    assert (Hr : r = Ok tt).
    { apply (f_equal snd) in Hm. cbn [snd] in Hm. rewrite <- Hm.
      vm_compute. reflexivity. }
    subst r. exists g1', g2'. split; [reflexivity|].
    destruct (match_grid_contract Examples.array_grid Examples.extent_and_gpts)
      as (_ & _ & _ & H).
    destruct H as (_ & H); [apply Hplain; cbn; tauto|apply Hplain; cbn; tauto
                           |reflexivity|].
    destruct (H g1' g2' Hm) as (He & Hp). split; [exact He|].
    apply Hp; intros (HE & HG & _); discriminate.
Defined.

(* ===================================================================== *)
(** ** Cached methods                                                      *)
(* ===================================================================== *)

Section CachedFacts.

Import CacheModel CachedMethods.

Context {Data : Type}.
Implicit Types (c : Cache Data) (name : string).

(** What a call of a cached method does, by cases on the lookup. *)
Lemma cached_method_hit cc name (func : M (Cache Data) Data) c d :
  _cache c !! name = Some d -> cached_method cc name func c = (c, Ok d).
Proof. intros H. unfold cached_method, retrieve_from_cache. rewrite H. reflexivity. Qed.

Lemma cached_method_miss cc name (func : M (Cache Data) Data) c :
  _cache c !! name = None ->
  cached_method cc name func c =
    match func c with
    | (c', Ok d) => (update_cache name d cc c', Ok d)
    | (c', Raise e) => (c', Raise e)
    end.
Proof.
  intros H. unfold cached_method, retrieve_from_cache, mbind. rewrite H.
  destruct (func c) as [c' [d|e]]; reflexivity.
Qed.

Lemma cached_method_stored cc name (func : M (Cache Data) Data) c c1 d :
  cached_method cc name func c = (c1, Ok d) -> _cache c1 !! name = Some d.
Proof.
  destruct (_cache c !! name) as [d0|] eqn:E.
  - rewrite (cached_method_hit _ _ _ _ d0 E). intros [= <- <-]. exact E.
  - rewrite (cached_method_miss _ _ _ _ E).
    destruct (func c) as [c' [d'|e]]; [|discriminate].
    intros [= <- <-]. cbn. apply lookup_insert_eq.
Qed.

End CachedFacts.

(** X1. A cached method computes once: when a call has returned [d], any
    later call under the same name returns [d] again, whatever the wrapped
    function would compute by then, and leaves the cache as it is. *)
Theorem cached_method_memoizes {Data : Type}
    (cc cc' : option (list string)) (name : string)
    (func func' : M (CacheModel.Cache Data) Data)
    (c c1 : CacheModel.Cache Data) (d : Data) :
  CachedMethods.cached_method cc name func c = (c1, Ok d) ->
  CachedMethods.cached_method cc' name func' c1 = (c1, Ok d).
Proof.
  intros H. apply cached_method_hit. exact (cached_method_stored _ _ _ _ _ _ H).
Qed.

Lemma cached_method_memoizes_witness :
  CachedMethods.cached_method (Some ["gpts"]) "kernel" (mret 8%nat)
    (CacheModel.update_cache "kernel" 7%nat (Some ["extent"]) CacheModel.empty)
  = (CacheModel.update_cache "kernel" 7%nat (Some ["extent"]) CacheModel.empty,
     Ok 7%nat).
Proof.
  apply (cached_method_memoizes (Some ["extent"]) (Some ["gpts"]) "kernel"
           (mret 7%nat) (mret 8%nat) CacheModel.empty).
  reflexivity.
Defined.

(** X2. A result computed on a miss is served until a notification reports
    a change of a property it depends on: after the notification [msg] the
    lookup fails exactly when [msg] reports a change and the clear
    conditions of the method are [None] or contain the notifier, and
    returns the cached result otherwise. *)
Theorem cached_method_invalidation {Data : Type}
    (cc : option (list string)) (name : string)
    (func : M (CacheModel.Cache Data) Data)
    (c c1 : CacheModel.Cache Data) (d : Data) (msg : message) :
  CacheModel.retrieve_from_cache c name = Raise KeyError ->
  CachedMethods.cached_method cc name func c = (c1, Ok d) ->
  CacheModel.retrieve_from_cache (CacheModel.notify msg c1) name =
    if change msg && CacheModel.selected (notifier msg) cc
    then Raise KeyError else Ok d.
Proof.
  intros Hmiss Hcall.
  assert (Hnone : CacheModel._cache c !! name = None).
  { unfold CacheModel.retrieve_from_cache in Hmiss.
    destruct (CacheModel._cache c !! name); [discriminate|reflexivity]. }
  rewrite (cached_method_miss _ _ _ _ Hnone) in Hcall.
  destruct (func c) as [c' [d'|e]]; [|discriminate].
  injection Hcall as <- <-.
  unfold CacheModel.retrieve_from_cache, CacheModel.notify.
  rewrite pop_keys_cache. destruct msg as [P [|]]; cbn [change notifier andb].
  - destruct (CacheModel.selected P cc) eqn:Hsel.
    + rewrite bool_decide_eq_true_2; [reflexivity|].
      apply elem_of_pop_list. exists cc. split; [|exact Hsel].
      cbn. apply lookup_insert_eq.
    + rewrite bool_decide_eq_false_2.
      * cbn. rewrite lookup_insert_eq. reflexivity.
      * intros (cond & Hk & Hs)%elem_of_pop_list. cbn in Hk.
        rewrite lookup_insert_eq in Hk. injection Hk as <-. congruence.
  - rewrite pop_list_no_change.
    rewrite bool_decide_eq_false_2 by (apply not_elem_of_nil).
    cbn. rewrite lookup_insert_eq. reflexivity.
Qed.

Lemma cached_method_invalidation_witness :
  CacheModel.retrieve_from_cache
    (CacheModel.notify (Message "extent" true)
       (CacheModel.update_cache "kernel" 7%nat (Some ["extent"]) CacheModel.empty))
    "kernel" = Raise KeyError.
Proof.
  apply (cached_method_invalidation (Some ["extent"]) "kernel" (mret 7%nat)
           CacheModel.empty _ 7%nat (Message "extent" true)).
  - reflexivity.
  - reflexivity.
Defined.

Section CachedArgsFacts.

Import CacheModel CachedMethods.

Context {Args : Type} `{Countable Args} {Data : Type}.
Implicit Types (c : Cache (gmap Args Data)) (name : string).

Lemma cached_with_args_hit cc name func (args : Args) c t (d : Data) :
  _cache c !! name = Some t -> t !! args = Some d ->
  cached_method_with_args cc name func args c = (c, Ok d).
Proof.
  intros Ht Hd. unfold cached_method_with_args, retrieve_from_cache.
  rewrite Ht. cbn. rewrite Hd. reflexivity.
Qed.

Lemma cached_with_args_miss cc name func (args : Args) c :
  table_of c name !! args = None ->
  cached_method_with_args cc name func args c =
    match func args c with
    | (c', Ok d) =>
        (match _cache c' !! name with
         | Some t => MkCache (<[name := <[args := d]> t]> (_cache c'))
                             (_clear_conditions c')
         | None => update_cache name {[args := d]} cc c'
         end, Ok d)
    | (c', Raise e) => (c', Raise e)
    end.
Proof.
  intros Hm. unfold cached_method_with_args, retrieve_from_cache, mbind.
  unfold table_of in Hm.
  destruct (_cache c !! name) as [t|] eqn:Ht; cbn in *.
  - rewrite Hm. destruct (func args c) as [c' [d|e]]; [|reflexivity].
    destruct (_cache c' !! name); reflexivity.
  - destruct (func args c) as [c' [d|e]]; [|reflexivity].
    destruct (_cache c' !! name); reflexivity.
Qed.

End CachedArgsFacts.

(** X3. A cached method with arguments computes once for each tuple of
    arguments: when a call with [args] has returned [d], any later call
    with [args] returns [d] again and leaves the cache as it is; and, when
    the wrapped function does not touch the cache, the results stored for
    other arguments are kept. *)
Theorem cached_method_with_args_memoizes {Args : Type} `{Countable Args}
    {Data : Type} (cc cc' : option (list string)) (name : string)
    (func func' : Args -> M (CacheModel.Cache (gmap Args Data)) Data)
    (args : Args) (c c1 : CacheModel.Cache (gmap Args Data)) (d : Data) :
  CachedMethods.cached_method_with_args cc name func args c = (c1, Ok d) ->
  CachedMethods.cached_method_with_args cc' name func' args c1 = (c1, Ok d) /\
  (fst (func args c) = c ->
   forall args', args' <> args ->
     CachedMethods.table_of c1 name !! args' = CachedMethods.table_of c name !! args').
Proof.
  intros Hcall.
  destruct (CachedMethods.table_of c name !! args) as [d0|] eqn:E.
  - unfold CachedMethods.table_of in E.
    destruct (CacheModel._cache c !! name) as [t|] eqn:Ht; cbn in E;
      [|rewrite lookup_empty in E; discriminate].
    rewrite (cached_with_args_hit _ _ _ _ _ t d0 Ht E) in Hcall.
    injection Hcall as <- <-. split.
    + exact (cached_with_args_hit _ _ _ _ _ t d0 Ht E).
    + reflexivity.
  - rewrite (cached_with_args_miss _ _ _ _ _ E) in Hcall.
    destruct (func args c) as [c' [d'|e]] eqn:Hf; [|discriminate].
    injection Hcall as <- <-.
    destruct (CacheModel._cache c' !! name) as [t|] eqn:Ht.
    + split.
      * apply (cached_with_args_hit _ _ _ _ _ (<[args := d']> t)); cbn;
          apply lookup_insert_eq.
      * cbn. intros -> args' Hne. unfold CachedMethods.table_of. cbn.
        rewrite lookup_insert_eq, Ht. cbn. apply lookup_insert_ne. congruence.
    + split.
      * apply (cached_with_args_hit _ _ _ _ _ {[args := d']}); cbn.
        -- apply lookup_insert_eq.
        -- apply lookup_singleton_eq.
      * cbn. intros -> args' Hne. unfold CachedMethods.table_of. cbn.
        rewrite lookup_insert_eq, Ht. cbn. apply lookup_singleton_ne. congruence.
Qed.

Lemma cached_method_with_args_memoizes_witness :
  let c1 := CacheModel.update_cache "potential" ({[3%nat := 9%nat]} : gmap nat nat)
              None CacheModel.empty in
  CachedMethods.cached_method_with_args (Some ["gpts"]) "potential"
    (fun n => mret (n + 1)%nat) 3%nat c1 = (c1, Ok 9%nat).
Proof.
  cbn zeta.
  apply (cached_method_with_args_memoizes None (Some ["gpts"]) "potential"
           (fun n => mret (n * n)%nat) (fun n => mret (n + 1)%nat) 3%nat
           CacheModel.empty).
  reflexivity.
Defined.
(* ===================================================================== *)
(** ** Observers                                                           *)
(* ===================================================================== *)

Section ObserverFacts.

Import CacheModel ObserverModel.

Lemma register_observer_spec (x : nat) (o : Observable) :
  NoDup (_observers o) ->
  NoDup (_observers (register_observer x o)) /\
  forall y, y ∈ _observers (register_observer x o) <-> y ∈ _observers o \/ y = x.
Proof.
  intros Hnd. unfold register_observer.
  destruct (bool_decide (x ∈ _observers o)) eqn:E.
  - apply bool_decide_eq_true_1 in E. split; [exact Hnd|].
    intros y. split; [auto|]. intros [Hy| ->]; assumption.
  - apply bool_decide_eq_false_1 in E. cbn. split.
    + apply NoDup_app. split; [exact Hnd|]. split.
      * intros y Hy Hx. apply list_elem_of_singleton in Hx. subst. contradiction.
      * apply NoDup_singleton.
    + intros y. rewrite elem_of_app, list_elem_of_singleton. reflexivity.
Qed.

Lemma registered_spec (rs : list nat) : forall o,
  NoDup (_observers o) ->
  let o' := foldl (fun o r => register_observer r o) o rs in
  NoDup (_observers o') /\
  forall y, y ∈ _observers o' <-> y ∈ _observers o \/ y ∈ rs.
Proof.
  induction rs as [|r rs IH]; intros o Hnd; cbn [foldl].
  - split; [exact Hnd|]. intros y. rewrite elem_of_nil. tauto.
  - destruct (register_observer_spec r o Hnd) as [Hnd' Hin].
    destruct (IH _ Hnd') as [Hnd'' Hin'']. split; [exact Hnd''|].
    intros y. rewrite Hin'', Hin, elem_of_cons. tauto.
Qed.

Context {Data : Type}.

Lemma foldl_alter (f : Cache Data -> Cache Data) (l : list nat) :
  forall (st : gmap nat (Cache Data)) (r : nat),
  NoDup l ->
  foldl (fun st' x => alter f x st') st l !! r =
    if bool_decide (r ∈ l) then f <$> st !! r else st !! r.
Proof.
  induction l as [|a l IH]; intros st r Hnd; cbn [foldl].
  - rewrite bool_decide_eq_false_2 by (apply not_elem_of_nil). reflexivity.
  - apply NoDup_cons in Hnd as [Ha Hnd]. rewrite IH by exact Hnd.
    destruct (decide (r = a)) as [->|Hne].
    + rewrite (bool_decide_eq_false_2 (a ∈ l)) by exact Ha.
      rewrite (bool_decide_eq_true_2 (a ∈ a :: l)) by left.
      apply lookup_alter_eq.
    + rewrite lookup_alter_ne by congruence.
      destruct (decide (r ∈ l)) as [Hin|Hnin].
      * rewrite !bool_decide_eq_true_2; [reflexivity|by right|assumption].
      * rewrite !bool_decide_eq_false_2; [reflexivity| |assumption].
        intros [?|?]%elem_of_cons; congruence.
Qed.

End ObserverFacts.

(** X4. However the observers were registered, and however often each of
    them was, a notification reaches every registered cache exactly once
    and no other object: the cache of each registered reference is replaced
    by the cache notified once, the rest of the store is unchanged, and the
    call does not raise. *)
Theorem notify_observers_reaches_each_once {Data : Type}
    (rs : list nat) (msg : message)
    (st : gmap nat (CacheModel.Cache Data)) :
  let o := foldl (fun o r => ObserverModel.register_observer r o)
                 ObserverModel.Observable_init rs in
  snd (ObserverModel.notify_observers o msg st) = Ok tt /\
  forall r,
    fst (ObserverModel.notify_observers o msg st) !! r =
      if bool_decide (r ∈ rs) then CacheModel.notify msg <$> st !! r
      else st !! r.
Proof.
  cbn zeta. split; [reflexivity|]. intros r.
  unfold ObserverModel.notify_observers. cbn [fst].
  destruct (registered_spec rs ObserverModel.Observable_init (NoDup_nil_2))
    as [Hnd Hin].
  rewrite foldl_alter by exact Hnd.
  destruct (decide (r ∈ rs)) as [Hr|Hr].
  - rewrite !bool_decide_eq_true_2; [reflexivity|exact Hr|].
    apply Hin. right. exact Hr.
  - rewrite !bool_decide_eq_false_2; [reflexivity|exact Hr|].
    intros [H0|H1]%Hin; [|contradiction].
    cbn in H0. apply elem_of_nil in H0. exact H0.
Qed.
(* ===================================================================== *)
(** ** Copies of a grid                                                    *)
(* ===================================================================== *)

Section CopyFacts.

Import GridRelation GridExtras.

Lemma GridProperty_copy_float (dims : nat) (o : option (list Q)) (l : bool) :
  (forall e, o = Some e -> length e = dims) ->
  GridProperty_copy (MkProp DFloat dims o l) = Ok (MkProp DFloat dims o false).
Proof.
  intros H. unfold GridProperty_copy, GridProperty_init, value. cbn.
  destruct o as [e|]; cbn; [|reflexivity].
  rewrite (H e eq_refl), Nat.eqb_refl. cbn. rewrite map_astype_float. reflexivity.
Qed.

Lemma GridProperty_copy_int (dims : nat) (o : option (list Q)) (l : bool) :
  (forall p, o = Some p -> length p = dims /\ List.map (astype DInt) p = p) ->
  GridProperty_copy (MkProp DInt dims o l) = Ok (MkProp DInt dims o false).
Proof.
  intros H. unfold GridProperty_copy, GridProperty_init, value. cbn.
  destruct o as [p|]; cbn; [|reflexivity].
  destruct (H p eq_refl) as [Hl Hp]. rewrite Hl, Nat.eqb_refl. cbn [negb].
  cbn [Py.bind]. rewrite Hp. reflexivity.
Qed.

(** The constructor handed three properties whose values are defined. *)
Lemma Grid_init_properties (dims : nat) (e p s : list Q) :
  length e = dims -> length p = dims -> length s = dims ->
  Grid_init (AsProperty (MkProp DFloat dims (Some e) false))
            (AsProperty (MkProp DInt dims (Some p) false))
            (AsProperty (MkProp DFloat dims (Some s) false)) dims false =
    Ok (MkGrid dims false (MkProp DFloat dims (Some e) false)
               (MkProp DInt dims (Some p) false)
               (MkProp DFloat dims (Some (zip_with_Q Qdiv e p)) false)).
Proof.
  intros Le Lp Ls.
  unfold Grid_init, property_of. cbn [Py.bind].
  unfold init_body, mbind, read, lift, skip, mret, write_sampling, set_value.
  repeat step.
  rewrite _adjusted_sampling_arrays by congruence. run.
  rewrite _validate_length by lens. repeat step.
  rewrite _adjusted_sampling_arrays by congruence. run.
  rewrite _validate_length by lens. rewrite !map_astype_float. reflexivity.
Qed.

(** The constructor handed a property without a value for the extent and
    one with a value for the gpts, or the other way round. *)
Lemma Grid_init_gpts_property_only (dims : nat) (p : list Q) :
  Grid_init (AsProperty (MkProp DFloat dims None false))
            (AsProperty (MkProp DInt dims (Some p) false))
            (AsProperty (MkProp DFloat dims None false)) dims false =
    Raise TypeError.
Proof.
  unfold Grid_init, property_of. cbn [Py.bind].
  unfold init_body, mbind, read, lift, skip, mret, write_sampling, set_value.
  repeat step. reflexivity.
Qed.

Lemma Grid_init_extent_property_only (dims : nat) (e : list Q) :
  Grid_init (AsProperty (MkProp DFloat dims (Some e) false))
            (AsProperty (MkProp DInt dims None false))
            (AsProperty (MkProp DFloat dims None false)) dims false =
    Raise TypeError.
Proof.
  unfold Grid_init, property_of. cbn [Py.bind].
  unfold init_body, mbind, read, lift, skip, mret, write_sampling, set_value.
  repeat step. reflexivity.
Qed.

Lemma is_count_weaken (ep : bool) (p : list Q) :
  forallb (is_count ep) p = true -> forallb (is_count false) p = true.
Proof.
  induction p as [|x p IH]; cbn; [reflexivity|].
  intros [Hx Hp]%andb_true_iff. rewrite (IH Hp), andb_true_r.
  unfold is_count in *. apply andb_true_iff in Hx as [Hd Hn].
  rewrite Hd. cbn. apply Z.leb_le. apply Z.leb_le in Hn. destruct ep; lia.
Qed.

(** The sampling of a grid without endpoint is the quotient. *)
Lemma relation_quotient (e p s : list Q) :
  forallb (is_count false) p = true -> relation false e p s ->
  Forall2 Qeq s (zip_with_Q Qdiv e p).
Proof.
  unfold relation. cbn [adjusted_count]. intros Hp H. revert Hp.
  induction H as [|x y z e p s Hxyz H IH]; cbn; [constructor|].
  intros [Hy Hp]%andb_true_iff. constructor; [|exact (IH Hp)].
  apply (is_count_adjusted false), positive_spec in Hy.
  rewrite Hxyz. field. intros H0. rewrite H0 in Hy. exact (Qlt_irrefl _ Hy).
Qed.

End CopyFacts.

(** X5. The copy of a grid whose three values are defined and related is a
    grid with the same extent and gpts, without endpoint whatever the
    original had, and with the sampling [extent / gpts]; this is the
    sampling of the original when the original has no endpoint. *)
Theorem Grid_copy_drops_endpoint (g : Grid) (e p s : list Q) :
  GridRelation.consistent g e p s ->
  exists g',
    GridExtras.Grid_copy g = Ok g' /\
    endpoint g' = false /\
    GridRelation.consistent g' e p (zip_with_Q Qdiv e p) /\
    (endpoint g = false -> Forall2 Qeq s (zip_with_Q Qdiv e p)).
Proof.
  intros H. pose proof (consistent_shape g e p s H) as Hg.
  open_consistent H.
  assert (Ip : List.map (astype DInt) p = p)
    by (apply (map_astype_int (endpoint g)); exact Pp).
  exists (MkGrid (dimensions g) false
            (MkProp DFloat (dimensions g) (Some e) false)
            (MkProp DInt (dimensions g) (Some p) false)
            (MkProp DFloat (dimensions g) (Some (zip_with_Q Qdiv e p)) false)).
  split.
  - rewrite Hg at 1. unfold GridExtras.Grid_copy. cbn [_extent _gpts _sampling dimensions].
    rewrite GridProperty_copy_float by (intros ? [= <-]; exact LE).
    rewrite GridProperty_copy_int by (intros ? [= <-]; auto).
    rewrite GridProperty_copy_float by (intros ? [= <-]; exact LS).
    cbn [Py.bind]. apply Grid_init_properties; assumption.
  - split; [reflexivity|]. split.
    + apply (consistent_quotient (dimensions g) false e p); auto.
      apply (is_count_weaken (endpoint g)). exact Pp.
    + intros Hep. apply relation_quotient.
      * apply (is_count_weaken (endpoint g)). exact Pp.
      * rewrite <- Hep. exact R.
Qed.

Lemma Grid_copy_drops_endpoint_witness :
  exists g',
    GridExtras.Grid_copy
      (MkGrid 1 true (MkProp DFloat 1 (Some [4%Q]) false)
              (MkProp DInt 1 (Some [5%Q]) false)
              (MkProp DFloat 1 (Some [1%Q]) false)) = Ok g' /\
    endpoint g' = false /\
    GridRelation.consistent g' [4%Q] [5%Q] (zip_with_Q Qdiv [4%Q] [5%Q]) /\
    (true = false -> Forall2 Qeq [1%Q] (zip_with_Q Qdiv [4%Q] [5%Q])).
Proof.
  apply (Grid_copy_drops_endpoint
           (MkGrid 1 true (MkProp DFloat 1 (Some [4%Q]) false)
                   (MkProp DInt 1 (Some [5%Q]) false)
                   (MkProp DFloat 1 (Some [1%Q]) false))).
  constructor; cbn; auto.
  constructor; [reflexivity|constructor].
Defined.

(** X6. A grid that has an extent but no gpts, or a gpts but no extent
    (and no sampling), cannot be copied: the constructor is handed property
    objects, takes them for given values and divides by a value that is
    [None], so that [copy] raises [TypeError]. *)
Theorem Grid_copy_half_defined_raises (g : Grid) :
  GridRelation.plain g ->
  _value (_sampling g) = None ->
  (_value (_extent g) = None /\ _value (_gpts g) <> None) \/
  (_value (_extent g) <> None /\ _value (_gpts g) = None) ->
  GridExtras.Grid_copy g = Raise TypeError.
Proof.
  intros Hp Hs Hcase. pose proof (plain_shape g Hp) as Hg.
  destruct Hp as [_ _ _ LE LG LS].
  rewrite Hg. unfold GridExtras.Grid_copy. cbn [_extent _gpts _sampling dimensions].
  rewrite GridProperty_copy_float by exact LE.
  rewrite GridProperty_copy_int by exact LG.
  rewrite GridProperty_copy_float by exact LS.
  cbn [Py.bind]. rewrite Hs.
  destruct Hcase as [[He Hg'] | [He Hg']].
  - rewrite He. destruct (_value (_gpts g)) as [p|]; [|congruence].
    apply Grid_init_gpts_property_only.
  - rewrite Hg'. destruct (_value (_extent g)) as [e|]; [|congruence].
    apply Grid_init_extent_property_only.
Qed.

Lemma Grid_copy_half_defined_raises_witness :
  GridExtras.Grid_copy Examples.extent_only = Raise TypeError.
Proof.
  apply Grid_copy_half_defined_raises.
  - constructor; cbn; auto; try discriminate.
    intros e [= <-]. reflexivity.
  - reflexivity.
  - right. split; [discriminate|reflexivity].
Defined.
(* ===================================================================== *)
(** ** The message of a decorated setter and its delivery                  *)
(* ===================================================================== *)

Section MessageFacts.

Import GridRelation ObserverModel.

Lemma Forall2_Qeq_sym (xs ys : list Q) : Forall2 Qeq xs ys -> Forall2 Qeq ys xs.
Proof. induction 1; constructor; [symmetry|]; assumption. Qed.

(** The sampling of a grid is the quotient of its extent by its count. *)
Lemma relation_quotient_count (ep : bool) (e p s : list Q) :
  forallb (is_count ep) p = true -> relation ep e p s ->
  Forall2 Qeq s (zip_with_Q Qdiv e (adjusted_count ep p)).
Proof.
  intros Hp%forallb_adjusted_count. unfold relation.
  generalize dependent (adjusted_count ep p). intros q Hq H.
  induction H as [|x y z e' q' s' Hxyz H IH]; cbn; [constructor|].
  cbn in Hq. apply andb_true_iff in Hq as [Hy Hq].
  constructor; [|exact (IH Hq)].
  apply positive_spec in Hy.
  rewrite Hxyz. field. intros H0. rewrite H0 in Hy. exact (Qlt_irrefl _ Hy).
Qed.

Lemma setter_notifier (which : grid_property) (g g' : Grid) (v : pyval)
    (m : message) :
  setter_of which v g = (g', Ok m) -> notifier m = name_of which.
Proof.
  destruct which; cbn; intros Hset;
    exact (proj1 (notify_message _ _ _ _ _ _ _ Hset)).
Qed.

End MessageFacts.

(** X8. What a write through a decorated setter tells the observing caches.
    When the setter of the extent, the gpts or the sampling returns, one
    message is delivered: it carries the name of the property that was
    written, and the cache of every registered reference is replaced by
    that cache notified once with it, the rest of the store being left
    alone; when the setter raises, the exception is passed on and nothing is
    delivered. The name is that of the written property even where the
    setter has recomputed another one: after [g.extent = 2] on the grid of
    extent 1.05 with 10 points the stored sampling is 0.2 instead of 0.105,
    and the entry whose clear condition is [('sampling',)] is still in the
    cache. *)
Theorem notifying_setter_delivers_written_name {Data : Type}
    (which : ObserverModel.grid_property) (rs : list nat) (g : Grid)
    (v : pyval) (st : gmap nat (CacheModel.Cache Data)) :
  let o := foldl (fun o r => ObserverModel.register_observer r o)
                 ObserverModel.Observable_init rs in
  let setter := match which with
                | ObserverModel.Extent => set_extent
                | ObserverModel.Gpts => set_gpts
                | ObserverModel.Sampling => set_sampling
                end in
  let name := match which with
              | ObserverModel.Extent => "extent"
              | ObserverModel.Gpts => "gpts"
              | ObserverModel.Sampling => "sampling"
              end in
  match setter v g with
  | (g', Ok m) =>
      notifier m = name /\
      exists st',
        ObserverModel.notifying_setter o which v (g, st) = ((g', st'), Ok tt) /\
        forall r,
          st' !! r = if bool_decide (r ∈ rs) then CacheModel.notify m <$> st !! r
                     else st !! r
  | (g', Raise e) =>
      ObserverModel.notifying_setter o which v (g, st) = ((g', st), Raise e)
  end /\
  let R := ObserverModel.notifying_setter
             (ObserverModel.register_observer 0%nat ObserverModel.Observable_init)
             ObserverModel.Extent (PScalar 2)
             (Examples.extent_and_gpts,
              ({[0%nat := MoreExamples.sampling_entry]}
                 : gmap nat (CacheModel.Cache nat))) in
  snd R = Ok tt /\
  _value (_sampling Examples.extent_and_gpts) = Some [105 # 1000; 105 # 1000]%Q /\
  (exists s', _value (_sampling (fst (fst R))) = Some s' /\
              Forall2 Qeq s' [2 # 10; 2 # 10]%Q) /\
  exists c', snd (fst R) !! 0%nat = Some c' /\
             CacheModel._cache c' !! "d" = Some 4%nat.
Proof.
  cbn zeta. split.
  - assert (Hsetter : match which with
                      | ObserverModel.Extent => set_extent
                      | ObserverModel.Gpts => set_gpts
                      | ObserverModel.Sampling => set_sampling
                      end = ObserverModel.setter_of which) by (destruct which; reflexivity).
    assert (Hname : match which with
                    | ObserverModel.Extent => "extent"
                    | ObserverModel.Gpts => "gpts"
                    | ObserverModel.Sampling => "sampling"
                    end = ObserverModel.name_of which) by (destruct which; reflexivity).
    rewrite Hsetter, Hname.
    unfold ObserverModel.notifying_setter, mbind, on_fst, on_snd. cbn [fst snd].
    destruct (ObserverModel.setter_of which v g) as [g1 [m|err]] eqn:Hset;
      cbn [fst snd]; [|reflexivity].
    split; [exact (setter_notifier _ _ _ _ _ Hset)|].
    eexists. split; [reflexivity|]. intros r.
    destruct (registered_spec rs ObserverModel.Observable_init (NoDup_nil_2))
      as [Hnd Hin]. cbn zeta in Hnd, Hin.
    rewrite foldl_alter by exact Hnd.
    destruct (decide (r ∈ rs)) as [Hr|Hr].
    + rewrite !bool_decide_eq_true_2; [reflexivity|exact Hr|].
      apply Hin. right. exact Hr.
    + rewrite !bool_decide_eq_false_2; [reflexivity|exact Hr|].
      intros [H0|H1]%Hin; [|contradiction].
      cbn in H0. apply elem_of_nil in H0. exact H0.
  - split; [vm_compute; reflexivity|]. split; [reflexivity|]. split.
    + eexists. split; [vm_compute; reflexivity|].
      constructor; [reflexivity|]. constructor; [reflexivity|]. constructor.
    + eexists. split; vm_compute; reflexivity.
Qed.
(* ===================================================================== *)
(** ** Spatial frequencies of a grid                                       *)
(* ===================================================================== *)

(** Linear arithmetic with quotients and remainders by constants. *)
Ltac div_lia := zify; Z.div_mod_to_equations; lia.

Section FrequencyFacts.

Import GridRelation GridExtras.

Lemma is_even_inject_Z (z : Z) : is_even (inject_Z z) = Z.eqb (z mod 2) 0.
Proof.
  unfold is_even, DetectModel.Qmod.
  assert (Hf : Qfloor (inject_Z z / 2) = z / 2).
  { unfold Qdiv, Qmult, Qinv, inject_Z, Qfloor. cbn. f_equal. lia. }
  rewrite Hf.
  assert (Hq : (inject_Z z - 2 * inject_Z (z / 2) == inject_Z (z mod 2))%Q).
  { rewrite Z.mod_eq by lia. unfold Z.sub.
    rewrite inject_Z_plus, inject_Z_opp, inject_Z_mult. reflexivity. }
  destruct (Z.eqb_spec (z mod 2) 0) as [H0|H0].
  - apply Qeq_bool_iff. rewrite Hq, H0. reflexivity.
  - destruct (Qeq_bool _ 0) eqn:E; [|reflexivity].
    apply Qeq_bool_iff in E. rewrite Hq in E.
    exfalso. apply H0. unfold Qeq in E. cbn in E. lia.
Qed.

Lemma inject_Z_pos (z : Z) : 0 < z -> (0 < inject_Z z)%Q.
Proof. intros H. change 0%Q with (inject_Z 0). rewrite <- Zlt_Qlt. exact H. Qed.

Lemma Qpos_neq_0 (q : Q) : (0 < q)%Q -> ~ (q == 0)%Q.
Proof. intros H H0. rewrite H0 in H. exact (Qlt_irrefl _ H). Qed.

(** The two limits are the lowest and the highest multiple of the
    frequency step [1 / (n d)] among the discrete Fourier frequencies. *)
Lemma frequency_limits_closed (n : Z) (d : Q) :
  1 <= n -> (0 < d)%Q ->
  (fst (frequency_limits d (inject_Z n)) ==
     inject_Z (- (n / 2)) * (1 / (inject_Z n * d)))%Q /\
  (snd (frequency_limits d (inject_Z n)) ==
     inject_Z ((n - 1) / 2) * (1 / (inject_Z n * d)))%Q.
Proof.
  intros Hn Hd. apply Qpos_neq_0 in Hd.
  unfold frequency_limits. rewrite is_even_inject_Z.
  destruct (Z.eqb_spec (n mod 2) 0) as [He|Ho]; cbn [fst snd].
  - assert (Hy : exists y, n = 2 * y /\ 1 <= y).
    { exists (n / 2). split; div_lia. }
    destruct Hy as (y & -> & Hy).
    replace (2 * y / 2) with y by div_lia.
    replace ((2 * y - 1) / 2) with (y - 1) by div_lia.
    assert (Hq : ~ (inject_Z y == 0)%Q) by (apply Qpos_neq_0, inject_Z_pos; lia).
    unfold Z.sub. rewrite inject_Z_plus, inject_Z_mult, !inject_Z_opp.
    change (inject_Z 2) with 2%Q. change (inject_Z 1) with 1%Q.
    split; field; auto.
  - assert (Hy : exists y, n = 2 * y + 1 /\ 0 <= y).
    { exists (n / 2). split; div_lia. }
    destruct Hy as (y & -> & Hy).
    replace ((2 * y + 1) / 2) with y by div_lia.
    replace ((2 * y + 1 - 1) / 2) with y by div_lia.
    assert (Hq : ~ (2 * inject_Z y + 1 == 0)%Q).
    { apply Qpos_neq_0.
      assert (H1 : (0 <= inject_Z y)%Q)
        by (change 0%Q with (inject_Z 0); rewrite <- Zle_Qle; exact Hy).
      apply Qlt_le_trans with (y := 1%Q); [reflexivity|].
      rewrite <- (Qplus_0_l 1) at 1. apply Qplus_le_compat; [|apply Qle_refl].
      rewrite <- (Qmult_0_r 2). apply Qmult_le_l; [reflexivity|exact H1]. }
    rewrite inject_Z_plus, inject_Z_mult, !inject_Z_opp.
    change (inject_Z 2) with 2%Q. change (inject_Z 1) with 1%Q.
    split; field; auto.
Qed.

(** The multiples of the frequency step that [np.fft.fftfreq] lists. *)
Lemma fftfreq_entries (N : nat) (d x : Q) :
  In x (DetectModel.fftfreq N d) <->
  exists k, (k < N)%nat /\
    x = (inject_Z (if Nat.ltb k ((N - 1) / 2 + 1) then Z.of_nat k
                   else Z.of_nat k - Z.of_nat N) *
         (1 / (inject_Z (Z.of_nat N) * d)))%Q.
Proof.
  unfold DetectModel.fftfreq. rewrite in_map_iff. split.
  - intros (k & <- & Hk%in_seq). exists k. split; [lia|reflexivity].
  - intros (k & Hk & ->). exists k. split; [reflexivity|]. apply in_seq. lia.
Qed.

Lemma frequency_limits_axis (n : Z) (d : Q) :
  1 <= n -> (0 < d)%Q ->
  let f := DetectModel.fftfreq (Z.to_nat n) d in
  let lim := frequency_limits d (inject_Z n) in
  (forall x, In x f -> (fst lim <= x)%Q /\ (x <= snd lim)%Q) /\
  (exists x, In x f /\ (x == fst lim)%Q) /\
  (exists x, In x f /\ (x == snd lim)%Q) /\
  (frequency_extent lim == (1 - 1 / inject_Z n) / d)%Q.
Proof.
  intros Hn Hd. cbn zeta.
  destruct (frequency_limits_closed n d Hn Hd) as [Hlo Hhi].
  set (N := Z.to_nat n). assert (HN : Z.of_nat N = n) by (subst N; lia).
  set (c := (1 / (inject_Z n * d))%Q) in *.
  assert (Hc : (0 <= c)%Q).
  { subst c. apply Qlt_le_weak. apply Qlt_shift_div_l.
    - rewrite <- (Qmult_0_l d). apply Qmult_lt_compat_r; [exact Hd|].
      apply inject_Z_pos. lia.
    - rewrite Qmult_0_l. reflexivity. }
  assert (Hdiv1 : Z.of_nat ((N - 1) / 2) = (n - 1) / 2).
  { rewrite Nat2Z.inj_div, Nat2Z.inj_sub by lia. rewrite HN. reflexivity. }
  assert (Hmono : forall a b, a <= b -> (inject_Z a * c <= inject_Z b * c)%Q).
  { intros a b Hab. apply Qmult_le_compat_r; [|exact Hc].
    rewrite <- Zle_Qle. exact Hab. }
  assert (Hhalf : (n - 1) / 2 + 1 + n / 2 = n).
  { div_lia. }
  repeat split.
  - apply fftfreq_entries in H as (k & Hk & ->). rewrite HN. fold c.
    rewrite Hlo. apply Hmono.
    destruct (Nat.ltb_spec k ((N - 1) / 2 + 1)); div_lia.
  - apply fftfreq_entries in H as (k & Hk & ->). rewrite HN. fold c.
    rewrite Hhi. apply Hmono.
    destruct (Nat.ltb_spec k ((N - 1) / 2 + 1)); div_lia.
  - exists (inject_Z (- (n / 2)) * c)%Q. split; [|symmetry; exact Hlo].
    apply fftfreq_entries.
    exists (if Nat.eqb N 1 then 0%nat else ((N - 1) / 2 + 1)%nat).
    rewrite HN. fold c.
    destruct (Nat.eqb_spec N 1) as [E1|E1].
    + split; [lia|]. rewrite E1. cbn [Nat.ltb Nat.leb Nat.sub Nat.div Nat.add].
      replace n with 1 by lia. reflexivity.
    + split; [div_lia|].
      destruct (Nat.ltb_spec ((N - 1) / 2 + 1) ((N - 1) / 2 + 1)); [lia|].
      do 2 f_equal. div_lia.
  - exists (inject_Z ((n - 1) / 2) * c)%Q. split; [|symmetry; exact Hhi].
    apply fftfreq_entries. exists ((N - 1) / 2)%nat. rewrite HN. fold c.
    split; [div_lia|].
    destruct (Nat.ltb_spec ((N - 1) / 2) ((N - 1) / 2 + 1)); [|lia].
    do 2 f_equal. symmetry. exact Hdiv1.
  - unfold frequency_extent. rewrite Hlo, Hhi. subst c.
    rewrite inject_Z_opp.
    assert (Hsum : (inject_Z ((n - 1) / 2) + inject_Z (n / 2) == inject_Z n - 1)%Q).
    { rewrite <- inject_Z_plus. change 1%Q with (inject_Z 1).
      unfold Qminus. rewrite <- inject_Z_opp, <- inject_Z_plus.
      apply inject_Z_injective. div_lia. }
    assert (Hq : ~ (inject_Z n == 0)%Q) by (apply Qpos_neq_0, inject_Z_pos; lia).
    apply Qpos_neq_0 in Hd.
    transitivity ((inject_Z ((n - 1) / 2) + inject_Z (n / 2)) * (1 / (inject_Z n * d)))%Q;
      [field; auto|].
    rewrite Hsum. field; auto.
Qed.

(** A stored number of points is a whole number handed over as it is. *)
Lemma as_count_count (ep : bool) (err : exn) (x : Q) :
  is_count ep x = true ->
  as_count err x = Ok (Z.to_nat (Qnum x)) /\ x = inject_Z (Qnum x) /\ 1 <= Qnum x.
Proof.
  destruct x as [n d]. unfold is_count. cbn [Qnum Qden].
  intros [Hd Hn]%andb_true_iff. apply Pos.eqb_eq in Hd. subst d.
  apply Z.leb_le in Hn.
  assert (H1 : 1 <= n) by (destruct ep; lia).
  split; [|split; [reflexivity|exact H1]].
  unfold as_count. change (n # 1) with (inject_Z n). rewrite Qfloor_Z.
  rewrite (proj2 (Qeq_bool_iff _ _) (Qeq_refl _)).
  assert (H0 : Qle_bool 0 (inject_Z n) = true).
  { apply Qle_bool_iff. change 0%Q with (inject_Z 0). rewrite <- Zle_Qle. lia. }
  rewrite H0. reflexivity.
Qed.

Lemma check_is_grid_defined_consistent (g : Grid) (e p s : list Q) :
  consistent g e p s -> check_is_grid_defined g = Ok tt.
Proof.
  intros H. open_consistent H. unfold check_is_grid_defined.
  rewrite extent_closed, gpts_closed, HE, HG, HS. cbn.
  unfold value. rewrite VE, VG. reflexivity.
Qed.

Lemma consistent_getters (g : Grid) (e p s : list Q) :
  consistent g e p s ->
  extent g = Ok (PArray e) /\ gpts g = Ok (PArray p) /\ sampling g = Ok (PArray s).
Proof.
  intros H. open_consistent H.
  rewrite extent_closed, gpts_closed, sampling_closed, HE, HG, HS. cbn.
  unfold value. rewrite VE, VG, VS. auto.
Qed.

(** What the theorem below says of one axis: the frequencies [f] of the
    axis lie between the two limits, and both limits are among them. *)
Local Abbreviation within_limits :=
  (fun (f : list Q) (lim : Q * Q) =>
     (forall x, In x f -> (fst lim <= x)%Q /\ (x <= snd lim)%Q) /\
     (exists x, In x f /\ (x == fst lim)%Q) /\
     (exists x, In x f /\ (x == snd lim)%Q)).

Lemma axes_frequencies (ep : bool) : forall p s : list Q,
  length p = length s ->
  forallb (is_count ep) p = true -> forallb positive s = true ->
  exists fs,
    for_each (fun ps' => let* n := as_count ValueError (fst ps') in
                         Ok (DetectModel.fftfreq n (snd ps')))
             (zip p s) = Ok fs /\
    Forall2 within_limits fs (zip_with frequency_limits s p) /\
    Forall2 (fun lim ps' =>
               (frequency_extent lim == (1 - 1 / fst ps') / snd ps')%Q)
            (zip_with frequency_limits s p) (zip p s).
Proof.
  induction p as [|n p IH]; intros [|d s] Hlen Hp Hs; try discriminate.
  - exists []. cbn. repeat split; constructor.
  - cbn in Hp, Hs. apply andb_true_iff in Hp as [Hn Hp].
    apply andb_true_iff in Hs as [Hd Hs]. apply positive_spec in Hd.
    destruct (IH s) as (fs & Hfs & Hin & Hext); [cbn in Hlen; lia|exact Hp|exact Hs|].
    destruct (as_count_count ep ValueError n Hn) as (Hc & Hz & H1).
    destruct (frequency_limits_axis (Qnum n) d H1 Hd) as (Hb & Hlo & Hhi & He).
    rewrite <- Hz in Hb, Hlo, Hhi, He.
    exists (DetectModel.fftfreq (Z.to_nat (Qnum n)) d :: fs).
    cbn [zip zip_with for_each fst snd]. rewrite Hc. cbn [Py.bind].
    change (zip_with pair p s) with (zip p s). rewrite Hfs. cbn [Py.bind].
    split; [reflexivity|]. split; constructor; auto.
Qed.

End FrequencyFacts.

(** X9. On a grid whose three values are defined and related, the limits
    returned by [spatial_frequency_limits] are, axis by axis, the lowest
    and the highest of the discrete Fourier frequencies returned by
    [fftfreq]: every frequency lies between them, both are attained; and
    their distance is [(1 - 1 / gpts) / sampling], whether the number of
    points is even or odd. *)
Theorem spatial_frequency_limits_enclose_fftfreq (g : Grid) (e p s : list Q) :
  GridRelation.consistent g e p s ->
  exists fs lims,
    GridExtras.fftfreq g = Ok fs /\
    GridExtras.spatial_frequency_limits g = Ok lims /\
    Forall2 (fun (f : list Q) (lim : Q * Q) =>
               (forall x, In x f -> (fst lim <= x)%Q /\ (x <= snd lim)%Q) /\
               (exists x, In x f /\ (x == fst lim)%Q) /\
               (exists x, In x f /\ (x == snd lim)%Q)) fs lims /\
    Forall2 (fun lim ps =>
               (GridExtras.frequency_extent lim == (1 - 1 / fst ps) / snd ps)%Q)
            lims (zip p s).
Proof.
  intros H.
  destruct (consistent_getters g e p s H) as (He & Hg & Hs).
  pose proof (check_is_grid_defined_consistent g e p s H) as Hd.
  open_consistent H.
  destruct (axes_frequencies (endpoint g) p s) as (fs & Hfs & Hin & Hext);
    [congruence|exact Pp|exact Ps|].
  exists fs, (zip_with GridExtras.frequency_limits s p).
  unfold GridExtras.fftfreq, GridExtras.spatial_frequency_limits.
  rewrite Hd, Hg, Hs. cbn [Py.bind GridExtras.iter_values].
  repeat split; assumption.
Qed.

Lemma spatial_frequency_limits_enclose_fftfreq_witness :
  exists fs lims,
    GridExtras.fftfreq Examples.extent_and_gpts = Ok fs /\
    GridExtras.spatial_frequency_limits Examples.extent_and_gpts = Ok lims /\
    Forall2 (fun (f : list Q) (lim : Q * Q) =>
               (forall x, In x f -> (fst lim <= x)%Q /\ (x <= snd lim)%Q) /\
               (exists x, In x f /\ (x == fst lim)%Q) /\
               (exists x, In x f /\ (x == snd lim)%Q)) fs lims /\
    Forall2 (fun lim ps =>
               (GridExtras.frequency_extent lim == (1 - 1 / fst ps) / snd ps)%Q)
            lims (zip [10; 10]%Q [105 # 1000; 105 # 1000]%Q).
Proof.
  apply (spatial_frequency_limits_enclose_fftfreq Examples.extent_and_gpts
           [105 # 100; 105 # 100]%Q).
  constructor; cbn; auto.
  constructor; [reflexivity|]. constructor; [reflexivity|]. constructor.
Defined.
(* ===================================================================== *)
(** ** Coordinates of the grid points                                      *)
(* ===================================================================== *)

Section LinspaceFacts.

Import GridRelation GridExtras.

Lemma lookup_map_seq {A} (f : nat -> A) (n k : nat) (x : A) :
  List.map f (seq 0 n) !! k = Some x -> (k < n)%nat /\ x = f k.
Proof.
  change (List.map f (seq 0 n)) with (f <$> seq 0 n).
  rewrite list_lookup_fmap. intros H.
  destruct (seq 0 n !! k) as [j|] eqn:E; [|discriminate].
  apply lookup_seq in E as [-> Hk]. cbn in H. injection H as <-.
  split; [exact Hk|reflexivity].
Qed.

(** The points of [np.linspace] are the multiples of the sampling. *)
Lemma np_linspace_spacing (stop s : Q) (num : nat) (ep : bool) :
  ((if ep then 2 else 1) <= num)%nat ->
  (stop == inject_Z (Z.of_nat (if ep then num - 1 else num)) * s)%Q ->
  length (np_linspace stop num ep) = num /\
  forall k x, np_linspace stop num ep !! k = Some x ->
              (x == inject_Z (Z.of_nat k) * s)%Q.
Proof.
  intros Hnum Hstop. unfold np_linspace.
  set (div := if ep then (num - 1)%nat else num) in *.
  assert (Hdiv : (0 < div)%nat) by (subst div; destruct ep; lia).
  assert (Hstep : (stop / inject_Z (Z.of_nat div) == s)%Q).
  { rewrite Hstop. field. apply Qpos_neq_0, inject_Z_pos. lia. }
  destruct (Nat.ltb_spec 0 div) as [_|]; [|lia].
  set (y := List.map _ (seq 0 num)).
  assert (Hy : forall k x, y !! k = Some x ->
                 (k < num)%nat /\ (x == inject_Z (Z.of_nat k) * s)%Q).
  { intros k x Hk. apply lookup_map_seq in Hk as [Hk ->].
    split; [exact Hk|]. rewrite Hstep. reflexivity. }
  assert (Ly : length y = num) by (subst y; rewrite length_map, length_seq; reflexivity).
  destruct ep; cbn [andb].
  - destruct (Nat.ltb_spec 1 num) as [_|]; [|lia]. split.
    + rewrite length_app, length_firstn, Ly. cbn. lia.
    + intros k x Hk.
      destruct (Nat.lt_ge_cases k (num - 1)) as [Hlt|Hge].
      * rewrite lookup_app_l in Hk by (rewrite length_firstn, Ly; lia).
        change (firstn (num - 1) y) with (take (num - 1) y) in Hk.
        rewrite lookup_take_lt in Hk by exact Hlt.
        exact (proj2 (Hy k x Hk)).
      * rewrite lookup_app_r in Hk by (rewrite length_firstn, Ly; lia).
        rewrite length_firstn, Ly in Hk.
        replace (Init.Nat.min (num - 1) num) with (num - 1)%nat in Hk by lia.
        destruct (k - (num - 1))%nat as [|j] eqn:Ej; [|discriminate].
        cbn in Hk. injection Hk as <-.
        replace k with (num - 1)%nat by lia. exact Hstop.
  - split; [exact Ly|]. intros k x Hk. exact (proj2 (Hy k x Hk)).
Qed.

(** What the theorem below says of one axis with [n] points and the
    sampling [d]. *)
Local Abbreviation evenly_spaced :=
  (fun (l : list Q) (ps : Q * Q) =>
     length l = Z.to_nat (Qnum (fst ps)) /\
     forall k x, l !! k = Some x -> (x == inject_Z (Z.of_nat k) * snd ps)%Q).

Lemma axes_linspace (ep : bool) (e q s : list Q) :
  Forall3 (fun x y z => x == y * z)%Q e q s ->
  forall p, q = adjusted_count ep p -> forallb (is_count ep) p = true ->
  exists ls,
    for_each (fun pe => let* n := as_count TypeError (fst pe) in
                        Ok (np_linspace (snd pe) n ep))
             (zip p e) = Ok ls /\
    Forall2 evenly_spaced ls (zip p s).
Proof.
  induction 1 as [|x y z e q s Hxyz H IH]; intros p Eq Hp.
  - destruct p; [|destruct ep; discriminate].
    exists []. split; [reflexivity|constructor].
  - destruct p as [|n p]; [destruct ep; discriminate|].
    cbn in Hp. apply andb_true_iff in Hp as [Hn Hp].
    destruct (IH p) as (ls & Hls & Hall);
      [destruct ep; cbn in Eq |- *; congruence|exact Hp|].
    destruct (as_count_count ep TypeError n Hn) as (Hc & Hz & H1).
    remember (Qnum n) as m eqn:Em. clear Em. subst n.
    assert (Hy : y = if ep then (inject_Z m - 1)%Q else inject_Z m)
      by (destruct ep; cbn in Eq; congruence).
    assert (Hm : (if ep then 2 else 1) <= m).
    { unfold is_count in Hn. cbn [Qnum Qden inject_Z] in Hn.
      apply andb_true_iff in Hn as [_ Hm]. apply Z.leb_le in Hm. exact Hm. }
    assert (Hcount : ((if ep then 2 else 1) <= Z.to_nat m)%nat)
      by (destruct ep; lia).
    assert (Hstop : (x == inject_Z (Z.of_nat (if ep then Z.to_nat m - 1
                                              else Z.to_nat m)) * z)%Q).
    { rewrite Hxyz, Hy. apply Qmult_comp; [|reflexivity].
      destruct ep.
      - rewrite Nat2Z.inj_sub by lia. rewrite Z2Nat.id by lia.
        unfold Qminus. change 1%Q with (inject_Z 1).
        rewrite <- inject_Z_opp, <- inject_Z_plus. reflexivity.
      - rewrite Z2Nat.id by lia. reflexivity. }
    destruct (np_linspace_spacing x z _ ep Hcount Hstop) as [Hlen Hpts].
    exists (np_linspace x (Z.to_nat m) ep :: ls).
    cbn [zip zip_with for_each fst snd]. rewrite Hc. cbn [Py.bind].
    change (zip_with pair p e) with (zip p e). rewrite Hls. cbn [Py.bind].
    split; [reflexivity|]. constructor; [|exact Hall]. split; assumption.
Qed.

End LinspaceFacts.

(** X10. On a grid whose three values are defined and related, [linspace]
    returns for each axis as many points as the axis has grid points, and
    the point of index [k] is [k] times the sampling of the axis, with or
    without endpoint. *)
Theorem linspace_steps_are_the_sampling (g : Grid) (e p s : list Q) :
  GridRelation.consistent g e p s ->
  exists ls,
    GridExtras.linspace g = Ok ls /\
    Forall2 (fun (l : list Q) (ps : Q * Q) =>
               length l = Z.to_nat (Qnum (fst ps)) /\
               forall k x, l !! k = Some x ->
                           (x == inject_Z (Z.of_nat k) * snd ps)%Q)
            ls (zip p s).
Proof.
  intros H.
  destruct (consistent_getters g e p s H) as (He & Hg & Hs).
  pose proof (check_is_grid_defined_consistent g e p s H) as Hd.
  open_consistent H.
  destruct (axes_linspace (endpoint g) e _ s R p eq_refl Pp) as (ls & Hls & Hall).
  exists ls. unfold GridExtras.linspace.
  rewrite Hd, Hg, He. cbn [Py.bind GridExtras.iter_values].
  split; assumption.
Qed.

Lemma linspace_steps_are_the_sampling_witness :
  exists ls,
    GridExtras.linspace Examples.extent_and_gpts = Ok ls /\
    Forall2 (fun (l : list Q) (ps : Q * Q) =>
               length l = Z.to_nat (Qnum (fst ps)) /\
               forall k x, l !! k = Some x ->
                           (x == inject_Z (Z.of_nat k) * snd ps)%Q)
            ls (zip [10; 10]%Q [105 # 1000; 105 # 1000]%Q).
Proof.
  apply (linspace_steps_are_the_sampling Examples.extent_and_gpts
           [105 # 100; 105 # 100]%Q).
  constructor; cbn; auto.
  constructor; [reflexivity|]. constructor; [reflexivity|]. constructor.
Defined.
(* ===================================================================== *)
(** ** Arrays with a grid                                                  *)
(* ===================================================================== *)

Ltac open_array_consistent H :=
  destruct H as [ (HE & HG & HS) EP (DE & DG & DS) (NE & NG & NS)
                  (VE & VG & VS) (LE & LG & LS) Pe Pp Ps R ].

Section ArrayGridFacts.

Import GridRelation GridExtras.

Lemma array_consistent_shape (g : Grid) (e p s : list Q) :
  array_consistent g e p s ->
  g = MkGrid (dimensions g) false
             (MkProp DFloat (dimensions g) (Some e) false)
             (MkProp DInt (dimensions g) (Some p) true)
             (MkProp DFloat (dimensions g) (Some s) false).
Proof.
  intros H. open_array_consistent H.
  destruct g as [dims ep [dE nE vE lE] [dG nG vG lG] [dS nS vS lS]].
  cbn in *. subst. reflexivity.
Qed.

Lemma array_consistent_quotient (dims : nat) (e p : list Q) :
  length e = dims -> length p = dims ->
  forallb positive e = true -> forallb (is_count false) p = true ->
  array_consistent
    (MkGrid dims false (MkProp DFloat dims (Some e) false)
            (MkProp DInt dims (Some p) true)
            (MkProp DFloat dims (Some (zip_with_Q Qdiv e p)) false))
    e p (zip_with_Q Qdiv e p).
Proof.
  intros Le Lp Pe Pp. constructor; cbn; auto.
  - repeat split; try assumption. rewrite length_zip_with_Q; congruence.
  - apply (forallb_zip_with_Q Qdiv positive positive positive positive_div);
      [exact Pe|apply (forallb_adjusted_count false); exact Pp].
  - apply (relation_div false); congruence.
Qed.

Lemma product_relation (q s : list Q) :
  length q = length s ->
  Forall3 (fun x y z => x == y * z)%Q (zip_with_Q Qmult q s) q s.
Proof.
  revert s. induction q as [|y q IH]; intros [|z s] Hlen; cbn in *;
    try discriminate; constructor; [reflexivity|].
  apply IH. congruence.
Qed.

Lemma array_consistent_product (dims : nat) (p s : list Q) :
  length p = dims -> length s = dims ->
  forallb (is_count false) p = true -> forallb positive s = true ->
  array_consistent
    (MkGrid dims false (MkProp DFloat dims (Some (zip_with_Q Qmult p s)) false)
            (MkProp DInt dims (Some p) true)
            (MkProp DFloat dims (Some s) false))
    (zip_with_Q Qmult p s) p s.
Proof.
  intros Lp Ls Pp Ps. constructor; cbn; auto.
  - repeat split; try assumption. rewrite length_zip_with_Q; congruence.
  - apply (forallb_zip_with_Q Qmult positive positive positive positive_mult);
      [apply (forallb_adjusted_count false); exact Pp|exact Ps].
  - unfold relation. cbn [adjusted_count]. apply product_relation. congruence.
Qed.

(** The three setters on the grid of an array. *)
Lemma extent_setter_array (g : Grid) (e p s : list Q) (v : pyval) :
  array_consistent g e p s -> vector_of (dimensions g) positive v = true ->
  extent_setter v g =
    (MkGrid (dimensions g) false
       (MkProp DFloat (dimensions g) (Some (as_vector (dimensions g) v)) false)
       (_gpts g)
       (MkProp DFloat (dimensions g)
          (Some (zip_with_Q Qdiv (as_vector (dimensions g) v) p)) false),
     Ok tt).
Proof.
  intros H Hv. open_array_consistent H.
  destruct g as [dims ep [dE nE vE lE] [dG nG vG lG] [dS nS vS lS]].
  cbn in *. subst.
  destruct (vector_of_spec _ _ _ Hv) as (Lv & Pv & Nv).
  unfold extent_setter, mbind, read, both_locked. run.
  rewrite gpts_closed. run. rewrite Nv. run.
  rewrite (_adjusted_sampling_count_array false (length e) positive) by assumption.
  unfold write_sampling, write_extent, set_value. run.
  rewrite _validate_length by lens.
  run. rewrite (_validate_vector DFloat (length e) positive) by assumption.
  rewrite !map_astype_float. reflexivity.
Qed.

Lemma sampling_setter_array (g : Grid) (e p s : list Q) (v : pyval) :
  array_consistent g e p s -> vector_of (dimensions g) positive v = true ->
  sampling_setter v g =
    (MkGrid (dimensions g) false
       (MkProp DFloat (dimensions g)
          (Some (zip_with_Q Qmult p (as_vector (dimensions g) v))) false)
       (_gpts g)
       (MkProp DFloat (dimensions g) (Some (as_vector (dimensions g) v)) false),
     Ok tt).
Proof.
  intros H Hv. open_array_consistent H.
  destruct g as [dims ep [dE nE vE lE] [dG nG vG lG] [dS nS vS lS]].
  cbn in *. subst.
  destruct (vector_of_spec _ _ _ Hv) as (Lv & Pv & Nv).
  unfold sampling_setter, mbind, read, lift, mret, both_locked. run.
  rewrite extent_closed. run. rewrite gpts_closed. run. rewrite Nv. run.
  rewrite (_adjusted_extent_count_array false (length e) positive) by auto.
  unfold write_sampling, write_extent, set_value. run.
  rewrite _validate_length by lens.
  run. rewrite (_validate_vector DFloat (length e) positive) by assumption.
  rewrite !map_astype_float. reflexivity.
Qed.

Lemma gpts_setter_array (g : Grid) (e p s : list Q) (v : pyval) :
  array_consistent g e p s ->
  vector_of (dimensions g) (is_count false) v = true ->
  gpts_setter v g =
    (MkGrid (dimensions g) false (_extent g) (_gpts g)
       (MkProp DFloat (dimensions g)
          (Some (zip_with_Q Qdiv e (as_vector (dimensions g) v))) false),
     Raise (RuntimeError "grid property locked")).
Proof.
  intros H Hv. open_array_consistent H.
  destruct g as [dims ep [dE nE vE lE] [dG nG vG lG] [dS nS vS lS]].
  cbn in *. subst.
  destruct (vector_of_spec _ _ _ Hv) as (Lv & Pv & Nv).
  unfold gpts_setter, mbind, read, both_locked. run.
  rewrite extent_closed. run. rewrite Nv. run.
  rewrite (_adjusted_sampling_count_vector false (length e) (is_count false)) by auto.
  unfold write_sampling, write_gpts, set_value. run.
  rewrite _validate_length by lens.
  run. rewrite map_astype_float. reflexivity.
Qed.

Lemma any_ne_vector (dims : nat) (ok : Q -> bool) (old : list Q) (v : pyval) :
  vector_of dims ok v = true -> length old = dims ->
  exists b, any_ne (PArray old) v = Ok b.
Proof.
  intros Hv Hl. destruct v as [|q|xs]; [discriminate| |].
  - cbn. eauto.
  - cbn in Hv. apply andb_true_iff in Hv as [Hlen _]. apply Nat.eqb_eq in Hlen.
    rewrite any_ne_arrays by congruence. eauto.
Qed.

Lemma array_getters (g : Grid) (e p s : list Q) :
  array_consistent g e p s ->
  extent g = Ok (PArray e) /\ gpts g = Ok (PArray p) /\ sampling g = Ok (PArray s).
Proof.
  intros H. open_array_consistent H.
  rewrite extent_closed, gpts_closed, sampling_closed, HE, HG, HS. cbn.
  unfold value. rewrite VE, VG, VS. auto.
Qed.

(** The shape of an array, as numbers of grid points. *)
Lemma counts_spec (sh : list nat) :
  Forall (fun k => (1 <= k)%nat) sh ->
  forallb (is_count false) (counts sh) = true /\
  List.map (astype DInt) (counts sh) = counts sh /\
  length (counts sh) = length sh.
Proof.
  intros H.
  assert (Hc : forallb (is_count false) (counts sh) = true).
  { unfold counts. induction H as [|k sh Hk H IH]; cbn [List.map forallb];
      [reflexivity|].
    rewrite IH, andb_true_r. unfold is_count. cbn. apply Z.leb_le. lia. }
  split; [exact Hc|]. split; [apply (map_astype_int false); exact Hc|].
  unfold counts. apply length_map.
Qed.

Lemma length_trailing (n : nat) (sh : list nat) :
  (1 <= n <= length sh)%nat -> length (trailing n sh) = n.
Proof.
  intros H. unfold trailing. destruct (Nat.eqb_spec n 0); [lia|].
  rewrite length_skipn. lia.
Qed.

Lemma ArrayWithGrid_init_extent (sh : list nat) (n : nat) (e : pyval) :
  (1 <= n <= length sh)%nat ->
  Forall (fun k => (1 <= k)%nat) (trailing n sh) ->
  vector_of n positive e = true ->
  ArrayWithGrid_init sh n e PNone =
    Ok (MkGrid n false
          (MkProp DFloat n (Some (as_vector n e)) false)
          (MkProp DInt n (Some (counts (trailing n sh))) true)
          (MkProp DFloat n
             (Some (zip_with_Q Qdiv (as_vector n e) (counts (trailing n sh))))
             false)).
Proof.
  intros Hn Hsh He.
  destruct (counts_spec _ Hsh) as (Pp & Ip & Lp).
  rewrite (length_trailing n sh Hn) in Lp.
  destruct (vector_of_spec _ _ _ He) as (Le & Pe & Ne).
  assert (Hdiv : _adjusted_sampling false (PArray (as_vector n e))
                                    (PArray (counts (trailing n sh))) =
                 Ok (PArray (zip_with_Q Qdiv (as_vector n e)
                               (counts (trailing n sh))))).
  { apply (_adjusted_sampling_arrays false). congruence. }
  assert (Hlen : length (zip_with_Q Qdiv (as_vector n e)
                           (counts (trailing n sh))) = n) by lens.
  unfold ArrayWithGrid_init.
  destruct (Nat.ltb_spec (length sh) n) as [|_]; [lia|].
  unfold GridProperty_init. rewrite (_validate_length DInt n _ Lp), Ip.
  cbn [Py.bind]. unfold Grid_init, property_of, GridProperty_init.
  rewrite (_validate_vector DFloat n positive e He). rewrite map_astype_float.
  cbn [Py.bind _validate].
  unfold init_body, mbind, read, lift, skip, mret.
  change (arg_is_None (Raw e)) with (is_None e). rewrite Ne. repeat step.
  rewrite Hdiv. unfold write_sampling, set_value. repeat step.
  rewrite (_validate_length DFloat n _ Hlen). repeat step.
  rewrite Hdiv. repeat step. rewrite (_validate_length DFloat n _ Hlen). repeat step.
  rewrite Hdiv. repeat step. rewrite (_validate_length DFloat n _ Hlen).
  rewrite map_astype_float. reflexivity.
Qed.

Lemma ArrayWithGrid_init_sampling (sh : list nat) (n : nat) (s : pyval) :
  (1 <= n <= length sh)%nat ->
  Forall (fun k => (1 <= k)%nat) (trailing n sh) ->
  vector_of n positive s = true ->
  let x := zip_with_Q Qmult (counts (trailing n sh)) (as_vector n s) in
  ArrayWithGrid_init sh n PNone s =
    Ok (MkGrid n false
          (MkProp DFloat n (Some x) false)
          (MkProp DInt n (Some (counts (trailing n sh))) true)
          (MkProp DFloat n
             (Some (zip_with_Q Qdiv x (counts (trailing n sh)))) false)).
Proof.
  intros Hn Hsh Hs x.
  destruct (counts_spec _ Hsh) as (Pp & Ip & Lp).
  rewrite (length_trailing n sh Hn) in Lp.
  destruct (vector_of_spec _ _ _ Hs) as (Ls & Ps & Ns).
  assert (Lx : length x = n) by (subst x; lens).
  assert (Hmul : _adjusted_extent false (PArray (counts (trailing n sh)))
                                  (PArray (as_vector n s)) = Ok (PArray x)).
  { apply (_adjusted_extent_arrays false). congruence. }
  assert (Hdiv : _adjusted_sampling false (PArray x)
                                    (PArray (counts (trailing n sh))) =
                 Ok (PArray (zip_with_Q Qdiv x (counts (trailing n sh))))).
  { apply (_adjusted_sampling_arrays false). congruence. }
  assert (Hlen : length (zip_with_Q Qdiv x (counts (trailing n sh))) = n) by lens.
  unfold ArrayWithGrid_init.
  destruct (Nat.ltb_spec (length sh) n) as [|_]; [lia|].
  unfold GridProperty_init. rewrite (_validate_length DInt n _ Lp), Ip.
  cbn [Py.bind]. unfold Grid_init, property_of, GridProperty_init.
  rewrite (_validate_vector DFloat n positive s Hs). rewrite map_astype_float.
  cbn [Py.bind _validate].
  unfold init_body, mbind, read, lift, skip, mret. repeat step.
  rewrite Hmul. unfold write_extent, write_sampling, set_value. repeat step.
  rewrite (_validate_length DFloat n _ Lx). repeat step.
  rewrite map_astype_float.
  rewrite Hdiv. repeat step. rewrite (_validate_length DFloat n _ Hlen).
  rewrite map_astype_float. reflexivity.
Qed.

End ArrayGridFacts.

(** X11. The grid of an array is tied to the shape of the array: for an
    array with at least [n] axes whose last [n] axes are not empty,
    [ArrayWithGrid.__init__] with a positive extent, or with a positive
    sampling, gives a grid whose gpts is the trailing shape of the array
    and is locked, and whose extent, gpts and sampling are related. *)
Theorem ArrayWithGrid_init_ties_gpts_to_shape (sh : list nat) (n : nat)
    (v : pyval) :
  (1 <= n <= length sh)%nat ->
  Forall (fun k => (1 <= k)%nat) (GridExtras.trailing n sh) ->
  GridRelation.vector_of n GridRelation.positive v = true ->
  (exists g s,
     GridExtras.ArrayWithGrid_init sh n v PNone = Ok g /\
     GridExtras.array_consistent g (GridRelation.as_vector n v)
       (GridExtras.counts (GridExtras.trailing n sh)) s) /\
  (exists g e s,
     GridExtras.ArrayWithGrid_init sh n PNone v = Ok g /\
     GridExtras.array_consistent g e
       (GridExtras.counts (GridExtras.trailing n sh)) s /\
     Forall2 Qeq s (GridRelation.as_vector n v)).
Proof.
  intros Hn Hsh Hv.
  destruct (counts_spec _ Hsh) as (Pp & Ip & Lp).
  rewrite (length_trailing n sh Hn) in Lp.
  destruct (vector_of_spec _ _ _ Hv) as (Lv & Pv & Nv).
  split.
  - eexists. eexists. split; [apply ArrayWithGrid_init_extent; assumption|].
    apply array_consistent_quotient; assumption.
  - eexists. eexists. eexists.
    split; [apply ArrayWithGrid_init_sampling; assumption|]. split.
    + apply array_consistent_quotient; try assumption; [lens|].
      apply (forallb_zip_with_Q Qmult GridRelation.positive GridRelation.positive
               GridRelation.positive positive_mult);
        [apply (forallb_adjusted_count false); exact Pp|exact Pv].
    + apply Forall2_Qeq_sym.
      apply (relation_quotient_count false
               (zip_with_Q Qmult (GridExtras.counts (GridExtras.trailing n sh))
                           (GridRelation.as_vector n v))
               (GridExtras.counts (GridExtras.trailing n sh))
               (GridRelation.as_vector n v)); [exact Pp|].
      apply (product_relation (GridExtras.counts (GridExtras.trailing n sh))
               (GridRelation.as_vector n v)). congruence.
Qed.

Lemma ArrayWithGrid_init_ties_gpts_to_shape_witness :
  (exists g s,
     GridExtras.ArrayWithGrid_init [3; 10; 10]%nat 2 (PScalar 5) PNone = Ok g /\
     GridExtras.array_consistent g [5; 5]%Q [10; 10]%Q s) /\
  (exists g e s,
     GridExtras.ArrayWithGrid_init [3; 10; 10]%nat 2 PNone (PScalar 5) = Ok g /\
     GridExtras.array_consistent g e [10; 10]%Q s /\
     Forall2 Qeq s [5; 5]%Q).
Proof.
  apply (ArrayWithGrid_init_ties_gpts_to_shape [3; 10; 10]%nat 2 (PScalar 5)).
  - cbn. lia.
  - cbn. repeat constructor; lia.
  - reflexivity.
Defined.

(** X12. Writing the extent or the sampling of the grid of an array keeps
    the grid tied to the array: the write succeeds, the gpts is still the
    shape and still locked, and the three values are still related (the
    sampling follows a new extent, the extent follows a new sampling). *)
Theorem array_grid_writes_keep_shape (g : Grid) (e p s : list Q) (v : pyval) :
  GridExtras.array_consistent g e p s ->
  GridRelation.vector_of (dimensions g) GridRelation.positive v = true ->
  (exists g' m,
     set_extent v g = (g', Ok m) /\
     GridExtras.array_consistent g' (GridRelation.as_vector (dimensions g) v) p
       (zip_with_Q Qdiv (GridRelation.as_vector (dimensions g) v) p)) /\
  (exists g' m,
     set_sampling v g = (g', Ok m) /\
     GridExtras.array_consistent g'
       (zip_with_Q Qmult p (GridRelation.as_vector (dimensions g) v)) p
       (GridRelation.as_vector (dimensions g) v)).
Proof.
  intros H Hv.
  destruct (array_getters g e p s H) as (Ge & Gp & Gs).
  pose proof (array_consistent_shape g e p s H) as Hg.
  pose proof (extent_setter_array g e p s v H Hv) as Hext.
  pose proof (sampling_setter_array g e p s v H Hv) as Hsam.
  open_array_consistent H.
  destruct (vector_of_spec _ _ _ Hv) as (Lv & Pv & Nv).
  destruct (any_ne_vector _ _ e v Hv LE) as [b1 Hb1].
  destruct (any_ne_vector _ _ s v Hv LS) as [b2 Hb2].
  split.
  - eexists. exists (Message "extent" b1). split.
    + unfold set_extent. rewrite (notify_run _ _ _ _ _ _ _ Ge Hb1), Hext.
      reflexivity.
    + rewrite Hg. cbn [_gpts dimensions].
      apply array_consistent_quotient; assumption.
  - eexists. exists (Message "sampling" b2). split.
    + unfold set_sampling. rewrite (notify_run _ _ _ _ _ _ _ Gs Hb2), Hsam.
      reflexivity.
    + rewrite Hg. cbn [_gpts dimensions].
      apply array_consistent_product; assumption.
Qed.

Lemma array_grid_writes_keep_shape_witness :
  (exists g' m,
     set_extent (PScalar 5) MoreExamples.array_grid_with_extent = (g', Ok m) /\
     GridExtras.array_consistent g' [5; 5]%Q [10; 10]%Q
       (zip_with_Q Qdiv [5; 5]%Q [10; 10]%Q)) /\
  (exists g' m,
     set_sampling (PScalar 5) MoreExamples.array_grid_with_extent = (g', Ok m) /\
     GridExtras.array_consistent g'
       (zip_with_Q Qmult [10; 10]%Q [5; 5]%Q) [10; 10]%Q [5; 5]%Q).
Proof.
  apply (array_grid_writes_keep_shape MoreExamples.array_grid_with_extent
           [2; 2]%Q [10; 10]%Q [2 # 10; 2 # 10]%Q (PScalar 5)).
  - constructor; cbn; auto.
    constructor; [reflexivity|]. constructor; [reflexivity|]. constructor.
  - reflexivity.
Defined.

(** X13. The number of grid points of an array cannot be written, and the
    rejected write is not without effect: [gpts = v] raises
    [RuntimeError('grid property locked')] and leaves the extent and the
    gpts as they were, but the sampling has by then been overwritten with
    [extent / v]. *)
Theorem array_grid_rejected_gpts_overwrites_sampling (g : Grid)
    (e p s : list Q) (v : pyval) :
  GridExtras.array_consistent g e p s ->
  GridRelation.vector_of (dimensions g) (GridRelation.is_count false) v = true ->
  exists g',
    set_gpts v g = (g', Raise (RuntimeError "grid property locked")) /\
    _value (_extent g') = Some e /\
    _value (_gpts g') = Some p /\
    _value (_sampling g') =
      Some (zip_with_Q Qdiv e (GridRelation.as_vector (dimensions g) v)).
Proof.
  intros H Hv.
  destruct (array_getters g e p s H) as (Ge & Gp & Gs).
  pose proof (gpts_setter_array g e p s v H Hv) as Hset.
  open_array_consistent H.
  eexists. split.
  - unfold set_gpts, notify, mbind, read. rewrite Gp, Hset. reflexivity.
  - cbn. auto.
Qed.

Lemma array_grid_rejected_gpts_overwrites_sampling_witness :
  exists g',
    set_gpts (PScalar 20) MoreExamples.array_grid_with_extent
      = (g', Raise (RuntimeError "grid property locked")) /\
    _value (_extent g') = Some [2; 2]%Q /\
    _value (_gpts g') = Some [10; 10]%Q /\
    _value (_sampling g') = Some (zip_with_Q Qdiv [2; 2]%Q [20; 20]%Q).
Proof.
  apply (array_grid_rejected_gpts_overwrites_sampling
           MoreExamples.array_grid_with_extent [2; 2]%Q [10; 10]%Q
           [2 # 10; 2 # 10]%Q (PScalar 20)).
  - constructor; cbn; auto.
    constructor; [reflexivity|]. constructor; [reflexivity|]. constructor.
  - reflexivity.
Defined.
(* ===================================================================== *)
(** ** Repeating an image                                                  *)
(* ===================================================================== *)

Section ImageFacts.

Import GridRelation GridExtras.

Lemma trailing_two (sh : list nat) :
  (2 <= length sh)%nat ->
  exists a b, trailing 2 sh = [a; b] /\ skipn (length sh - 2) sh = [a; b].
Proof.
  intros H. unfold trailing. cbn [Nat.eqb].
  pose proof (length_skipn (length sh - 2) sh) as Hl.
  destruct (skipn (length sh - 2) sh) as [|a [|b [|c l]]]; cbn in Hl; try lia.
  exists a, b. auto.
Qed.

Lemma tile_shape_trailing (sh : list nat) (m0 m1 a b : nat) :
  (2 <= length sh)%nat -> skipn (length sh - 2) sh = [a; b] ->
  (2 <= length (tile_shape sh (m0, m1)))%nat /\
  trailing 2 (tile_shape sh (m0, m1)) = [(m0 * a)%nat; (m1 * b)%nat].
Proof.
  intros H Hs. unfold tile_shape. rewrite Hs. cbn [fst snd zip_with].
  assert (Hf : length (firstn (length sh - 2) sh) = (length sh - 2)%nat)
    by (rewrite length_firstn; lia).
  split.
  - rewrite length_app. cbn. lia.
  - unfold trailing. cbn [Nat.eqb]. rewrite length_app, Hf. cbn [length].
    replace (length sh - 2 + 2 - 2)%nat with (length sh - 2)%nat by lia.
    rewrite skipn_app, Hf, Nat.sub_diag.
    rewrite skipn_all2 by lia. reflexivity.
Qed.

End ImageFacts.

(** X14. Repeating an image keeps its sampling: for an image whose grid is
    the grid of its array, [repeat((m0, m1))] with positive multiples gives
    an image whose last two axes and whose extent are multiplied by the
    multiples, whose grid is again the grid of its array, and whose
    sampling is the same numbers as before. *)
Theorem Image_repeat_keeps_sampling (im : GridExtras.Image) (e s : list Q)
    (m0 m1 : nat) :
  GridExtras.image_consistent im e s ->
  (1 <= m0)%nat -> (1 <= m1)%nat ->
  exists im' s',
    GridExtras.Image_repeat (m0, m1) im = Ok im' /\
    GridExtras.image_shape im' =
      GridExtras.tile_shape (GridExtras.image_shape im) (m0, m1) /\
    GridExtras.image_consistent im'
      (zip_with_Q Qmult (GridExtras.counts [m0; m1]) e) s' /\
    Forall2 Qeq s' s.
Proof.
  intros (Hlen & Hdim & H) Hm0 Hm1.
  destruct (array_getters _ _ _ _ H) as (Ge & _ & _).
  destruct (trailing_two _ Hlen) as (a & b & Ht & Hs).
  destruct (tile_shape_trailing _ m0 m1 a b Hlen Hs) as (Hlen' & Ht').
  rewrite Ht in H. open_array_consistent H. rewrite Hdim in *.
  destruct e as [|e0 [|e1 [|? ?]]]; try discriminate.
  destruct s as [|s0 [|s1 [|? ?]]]; try discriminate.
  cbn in Pe, Pp, Ps. 
  apply andb_true_iff in Pe as [Pe0 Pe]. apply andb_true_iff in Pe as [Pe1 _].
  apply andb_true_iff in Pp as [Pa Pp]. apply andb_true_iff in Pp as [Pb _].
  assert (Ha : (1 <= a)%nat).
  { unfold GridRelation.is_count in Pa. cbn in Pa. apply Z.leb_le in Pa. lia. }
  assert (Hb : (1 <= b)%nat).
  { unfold GridRelation.is_count in Pb. cbn in Pb. apply Z.leb_le in Pb. lia. }
  set (new_extent := [(inject_Z (Z.of_nat m0) * e0)%Q; (inject_Z (Z.of_nat m1) * e1)%Q]).
  assert (Hpos : GridRelation.vector_of 2 GridRelation.positive (PArray new_extent) = true).
  { cbn. rewrite !positive_mult; auto; apply positive_spec, inject_Z_pos; lia. }
  assert (Hall : Forall (fun k => (1 <= k)%nat)
                   (GridExtras.trailing 2
                      (GridExtras.tile_shape (GridExtras.image_shape im) (m0, m1)))).
  { rewrite Ht'. repeat constructor; nia. }
  pose proof (ArrayWithGrid_init_extent _ 2 (PArray new_extent)
                (conj (le_n_S _ _ (le_0_n _)) Hlen') Hall Hpos) as Hinit.
  rewrite Ht' in Hinit. cbn [GridRelation.as_vector] in Hinit.
  eexists. eexists. split; [|split; [|split]].
  - unfold GridExtras.Image_repeat, GridExtras.Image_init. rewrite Ge.
    cbn [Py.bind fst snd binop broadcast length Nat.eqb zip_with_Q
         GridExtras.counts List.map].
    fold new_extent. rewrite Hinit. cbn [Py.bind]. reflexivity.
  - reflexivity.
  - split; [exact Hlen'|]. split; [reflexivity|].
    cbn [GridExtras.image_grid GridExtras.image_shape].
    rewrite Ht'.
    apply (array_consistent_quotient 2 new_extent); try reflexivity.
    + cbn in Hpos. exact Hpos.
    + cbn. unfold GridRelation.is_count. cbn.
      rewrite !andb_true_r. apply andb_true_iff.
      split; apply Z.leb_le; nia.
  - unfold GridRelation.relation in R. cbn [GridRelation.adjusted_count] in R.
    inversion R as [|? ? ? ? ? ? R0 R']; subst.
    inversion R' as [|? ? ? ? ? ? R1 _]; subst.
    assert (Qa : ~ (inject_Z (Z.of_nat a) == 0)%Q)
      by (apply Qpos_neq_0, inject_Z_pos; lia).
    assert (Qb : ~ (inject_Z (Z.of_nat b) == 0)%Q)
      by (apply Qpos_neq_0, inject_Z_pos; lia).
    assert (Q0 : ~ (inject_Z (Z.of_nat m0) == 0)%Q)
      by (apply Qpos_neq_0, inject_Z_pos; lia).
    assert (Q1 : ~ (inject_Z (Z.of_nat m1) == 0)%Q)
      by (apply Qpos_neq_0, inject_Z_pos; lia).
    cbn [zip_with_Q GridExtras.counts List.map new_extent].
    subst new_extent. cbn [zip_with_Q].
    rewrite !Nat2Z.inj_mul, !inject_Z_mult.
    constructor; [|constructor; [|constructor]].
    + rewrite R0. field. auto.
    + rewrite R1. field. auto.
Qed.

Lemma Image_repeat_keeps_sampling_witness :
  exists im' s',
    GridExtras.Image_repeat (2, 3)%nat
      (GridExtras.MkImage [10; 10]%nat MoreExamples.array_grid_with_extent)
      = Ok im' /\
    GridExtras.image_shape im' = GridExtras.tile_shape [10; 10]%nat (2, 3)%nat /\
    GridExtras.image_consistent im'
      (zip_with_Q Qmult (GridExtras.counts [2; 3]%nat) [2; 2]%Q) s' /\
    Forall2 Qeq s' [2 # 10; 2 # 10]%Q.
Proof.
  apply (Image_repeat_keeps_sampling
           (GridExtras.MkImage [10; 10]%nat MoreExamples.array_grid_with_extent)
           [2; 2]%Q [2 # 10; 2 # 10]%Q 2 3).
  - split; [cbn; lia|]. split; [reflexivity|].
    constructor; cbn; auto.
    constructor; [reflexivity|]. constructor; [reflexivity|]. constructor.
  - lia.
  - lia.
Defined.
(* ===================================================================== *)
(** ** Transforms of a stack of images                                     *)
(* ===================================================================== *)

Section ChunkFacts.

Context {A : Type}.
Implicit Types (l : list A).

Lemma firstn_app_exact l1 l2 n : length l1 = n -> firstn n (l1 ++ l2) = l1.
Proof.
  intros <-. rewrite firstn_app, Nat.sub_diag, firstn_all. cbn.
  apply app_nil_r.
Qed.

Lemma skipn_app_plus l1 l2 n m :
  length l1 = n -> skipn (n + m) (l1 ++ l2) = skipn m l2.
Proof.
  intros <-. rewrite skipn_app, skipn_all2 by lia. cbn. f_equal. lia.
Qed.

Lemma skipn_app_exact l1 l2 n : length l1 = n -> skipn n (l1 ++ l2) = l2.
Proof.
  intros H. rewrite <- (Nat.add_0_r n). rewrite (skipn_app_plus l1 l2 n 0 H).
  reflexivity.
Qed.

End ChunkFacts.

Section BlockFacts.

Import DeviceModel.

Variable C : Type.
Implicit Types (x y b z : ndarray C) (f : ndarray C -> ndarray C).

Local Abbreviation shape := (shape C).
Local Abbreviation data := (data C).
Local Abbreviation get_block := (get_block C).
Local Abbreviation set_block := (set_block C).
Local Abbreviation well_shaped := (well_shaped C).
Local Abbreviation keeps_images := (keeps_images C).
Local Abbreviation partial_blocks := (partial_blocks C).
Local Abbreviation map_blocks := (map_blocks C).
Local Abbreviation images x := (hd 0%nat (shape x)).
Local Abbreviation size x := (block_size (shape x)).

Lemma ndarray_eta x : MkArray C (shape x) (data x) = x.
Proof. destruct x. reflexivity. Qed.

Lemma length_get_block x i :
  well_shaped x -> (i < images x)%nat ->
  length (data (get_block x i)) = size x.
Proof.
  unfold DeviceModel.well_shaped, DeviceModel.get_block. cbn [DeviceModel.data].
  intros Hw Hi. rewrite length_firstn, length_skipn, Hw. nia.
Qed.

Lemma keeps_image x f i :
  well_shaped x -> keeps_images x f -> (i < images x)%nat ->
  shape (f (get_block x i)) = tl (shape x) /\
  length (data (f (get_block x i))) = size x.
Proof.
  intros Hw Hf Hi.
  destruct (Hf (get_block x i)) as [Hs Hl];
    [reflexivity|apply length_get_block; assumption|].
  rewrite Hs, Hl. split; [reflexivity|apply length_get_block; assumption].
Qed.

(** The transformed images of the first [k] images fill [k] blocks. *)
Lemma length_transformed x f k :
  well_shaped x -> keeps_images x f -> (k <= images x)%nat ->
  length (concat (List.map (fun b => data (f b))
                           (List.map (get_block x) (seq 0 k)))) = (k * size x)%nat.
Proof.
  intros Hw Hf. induction k as [|k IH]; intros Hk; [reflexivity|].
  rewrite seq_S, !List.map_app, concat_app, length_app, IH by lia.
  cbn [List.map concat Nat.add]. rewrite app_nil_r.
  rewrite (proj2 (keeps_image x f k Hw Hf Hk)). lia.
Qed.

Lemma partial_blocks_0 x f : partial_blocks f x 0 = x.
Proof. unfold DeviceModel.partial_blocks. cbn. apply ndarray_eta. Qed.

Lemma partial_blocks_all x f :
  well_shaped x -> partial_blocks f x (images x) = map_blocks f x.
Proof.
  intros Hw. unfold DeviceModel.partial_blocks, DeviceModel.map_blocks,
    DeviceModel.blocks.
  rewrite skipn_all2 by (rewrite Hw; lia). rewrite app_nil_r. reflexivity.
Qed.

Lemma well_shaped_partial x f k :
  well_shaped x -> keeps_images x f -> (k <= images x)%nat ->
  well_shaped (partial_blocks f x k).
Proof.
  intros Hw Hf Hk. unfold DeviceModel.well_shaped, DeviceModel.partial_blocks.
  cbn [DeviceModel.shape DeviceModel.data].
  rewrite length_app, length_transformed, length_skipn, Hw by assumption. nia.
Qed.

Lemma get_block_partial x f k :
  well_shaped x -> keeps_images x f -> (k <= images x)%nat ->
  get_block (partial_blocks f x k) k = get_block x k.
Proof.
  intros Hw Hf Hk. unfold DeviceModel.get_block, DeviceModel.partial_blocks.
  cbn [DeviceModel.shape DeviceModel.data].
  rewrite skipn_app_exact by (apply length_transformed; assumption).
  reflexivity.
Qed.

(** One round of a loop over the images. *)
Lemma partial_blocks_step x f k :
  well_shaped x -> keeps_images x f -> (k < images x)%nat ->
  set_block (partial_blocks f x k) k (f (get_block x k)) =
    partial_blocks f x (S k).
Proof.
  intros Hw Hf Hk.
  pose proof (length_transformed x f k Hw Hf (Nat.lt_le_incl _ _ Hk)) as Hl.
  unfold DeviceModel.set_block, DeviceModel.partial_blocks.
  cbn [DeviceModel.shape DeviceModel.data]. f_equal.
  rewrite firstn_app_exact by exact Hl.
  replace (S k * size x)%nat with (k * size x + size x)%nat by lia.
  rewrite skipn_app_plus by exact Hl.
  rewrite seq_S, !List.map_app, concat_app. cbn [List.map concat Nat.add].
  rewrite app_nil_r, <- app_assoc. do 2 f_equal.
  rewrite skipn_skipn. f_equal. lia.
Qed.

(** Reading back an image that has just been written, and writing an
    image twice. *)
Lemma get_set_block y i z :
  well_shaped y -> (i < images y)%nat ->
  shape z = tl (shape y) -> length (data z) = size y ->
  get_block (set_block y i z) i = z.
Proof.
  intros Hw Hi Hs Hl. unfold DeviceModel.get_block, DeviceModel.set_block.
  cbn [DeviceModel.shape DeviceModel.data].
  rewrite skipn_app_exact by (rewrite length_firstn, Hw; nia).
  rewrite firstn_app_exact by exact Hl.
  rewrite <- Hs. apply ndarray_eta.
Qed.

Lemma set_set_block y i z z' :
  well_shaped y -> (i < images y)%nat -> length (data z) = size y ->
  set_block (set_block y i z) i z' = set_block y i z'.
Proof.
  intros Hw Hi Hl. unfold DeviceModel.set_block.
  cbn [DeviceModel.shape DeviceModel.data]. f_equal.
  assert (Hf : length (firstn (i * size y) (data y)) = (i * size y)%nat)
    by (rewrite length_firstn, Hw; nia).
  rewrite firstn_app_exact by exact Hf. do 2 f_equal.
  replace (S i * size y)%nat with (i * size y + size y)%nat by lia.
  rewrite skipn_app_plus by exact Hf.
  rewrite skipn_app_exact by exact Hl. reflexivity.
Qed.

(** The image [i] of an array whose images have been transformed. *)
Lemma concat_chunk (n : nat) (ls : list (list C)) : forall i c,
  Forall (fun c' => length c' = n) ls -> ls !! i = Some c ->
  firstn n (skipn (i * n) (concat ls)) = c.
Proof.
  induction ls as [|c0 ls IH]; intros i c Hall Hi; [discriminate|].
  apply Forall_cons in Hall as [H0 Hall]. destruct i as [|i]; cbn in Hi |- *.
  - injection Hi as <-. apply firstn_app_exact. exact H0.
  - rewrite skipn_app_plus by exact H0. apply IH; assumption.
Qed.

Lemma well_shaped_map_blocks x f :
  well_shaped x -> keeps_images x f -> well_shaped (map_blocks f x).
Proof.
  intros Hw Hf. rewrite <- partial_blocks_all by exact Hw.
  apply well_shaped_partial; auto.
Qed.

Lemma get_block_map_blocks x f i :
  well_shaped x -> keeps_images x f -> (i < images x)%nat ->
  get_block (map_blocks f x) i = f (get_block x i).
Proof.
  intros Hw Hf Hi.
  destruct (keeps_image x f i Hw Hf Hi) as [Hs Hl].
  unfold DeviceModel.get_block at 1. unfold DeviceModel.map_blocks.
  cbn [DeviceModel.shape DeviceModel.data].
  rewrite (concat_chunk (size x) _ i (data (f (get_block x i)))).
  - rewrite <- Hs. apply ndarray_eta.
  - apply Forall_forall. intros c Hc. apply list_elem_of_In in Hc.
    apply in_map_iff in Hc as (b & <- & Hb).
    unfold DeviceModel.blocks in Hb. apply in_map_iff in Hb as (j & <- & Hj).
    apply in_seq in Hj. apply keeps_image; auto. lia.
  - unfold DeviceModel.blocks.
    change (List.map ?g ?l) with (g <$> l).
    rewrite !list_lookup_fmap, lookup_seq_lt by exact Hi. reflexivity.
Qed.

(** A loop whose round [i] transforms the image [i] of the array [a]
    transforms every image. *)
Lemma for_range_images (body : nat -> M (gmap nat (ndarray C)) unit) f
    (a : nat) x (h : gmap nat (ndarray C)) :
  well_shaped x -> keeps_images x f ->
  (forall i y, (i < images x)%nat -> shape y = shape x -> well_shaped y ->
     get_block y i = get_block x i ->
     body i (<[a := y]> h) =
       (<[a := set_block y i (f (get_block x i))]> h, Ok tt)) ->
  forall m k, (k + m = images x)%nat ->
    for_range C body k m (<[a := partial_blocks f x k]> h) =
      (<[a := map_blocks f x]> h, Ok tt).
Proof.
  intros Hw Hf Hbody. induction m as [|m IH]; intros k Hk.
  - rewrite Nat.add_0_r in Hk. subst k.
    rewrite partial_blocks_all by exact Hw. reflexivity.
  - cbn [for_range]. unfold mbind.
    rewrite Hbody; [|lia|reflexivity|apply well_shaped_partial; auto; lia
                    |apply get_block_partial; auto; lia].
    rewrite partial_blocks_step by (auto; lia).
    apply IH. lia.
Qed.

End BlockFacts.
Section DeviceLoops.

Import DeviceModel.

Variable C : Type.
Variable fft2 ifft2 : ndarray C -> ndarray C.
Variable multiply : ndarray C -> ndarray C -> result (ndarray C).
Implicit Types (x y b z k : ndarray C) (h : gmap nat (ndarray C)).

Local Abbreviation shape := (shape C).
Local Abbreviation data := (data C).
Local Abbreviation get_block := (get_block C).
Local Abbreviation set_block := (set_block C).
Local Abbreviation well_shaped := (well_shaped C).
Local Abbreviation keeps_shape := (keeps_shape C).
Local Abbreviation keeps_images := (keeps_images C).
Local Abbreviation map_blocks := (map_blocks C).
Local Abbreviation convolved := (convolved C fft2 ifft2 multiply).
Local Abbreviation broadcasts := (broadcasts C multiply).
Local Abbreviation images x := (hd 0%nat (shape x)).

Lemma keeps_shape_images x f : keeps_shape f -> keeps_images x f.
Proof. intros Hf b _ _. apply Hf. Qed.

Lemma fft2_view_round (a i : nat) y h :
  fft2_view C fft2 a i (<[a := y]> h) =
    (<[a := set_block y i (fft2 (get_block y i))]> h, Ok tt).
Proof.
  unfold fft2_view, deref, assign, mbind. rewrite lookup_insert_eq.
  rewrite insert_insert_eq. reflexivity.
Qed.

(** The loop of [fft2] over the images of the array [a]. *)
Lemma fft2_loop (a : nat) x h :
  h !! a = Some x -> well_shaped x -> keeps_shape fft2 ->
  for_range C (fun i => fft2_view C fft2 a i) 0 (images x) h =
    (<[a := map_blocks fft2 x]> h, Ok tt).
Proof.
  intros Ha Hw Hf.
  rewrite <- (insert_id h a x Ha) at 1.
  rewrite <- (partial_blocks_0 C x fft2) at 2.
  apply (for_range_images C _ fft2 a x h Hw (keeps_shape_images x fft2 Hf));
    [|reflexivity].
  intros i y Hi Hs Hwy Hb. rewrite fft2_view_round, Hb. reflexivity.
Qed.

Lemma convolved_spec k b :
  keeps_shape fft2 -> keeps_shape ifft2 -> broadcasts k (shape b) ->
  exists m, multiply (fft2 b) k = Ok m /\ convolved k b = ifft2 m /\
            shape m = shape b /\ length (data m) = length (data b).
Proof.
  intros Hf Hi Hk. destruct (Hf b) as [Hs Hl].
  destruct (Hk (fft2 b) Hs) as (m & Hm & Hsm & Hlm).
  exists m. unfold DeviceModel.convolved. rewrite Hm.
  repeat split; congruence.
Qed.

Lemma convolved_keeps_images k x :
  keeps_shape fft2 -> keeps_shape ifft2 -> broadcasts k (tl (shape x)) ->
  keeps_images x (convolved k).
Proof.
  intros Hf Hi Hk b Hs Hl. rewrite <- Hs in Hk.
  destruct (convolved_spec k b Hf Hi Hk) as (m & _ & -> & Hsm & Hlm).
  destruct (Hi m) as [Hs' Hl']. split; congruence.
Qed.

Lemma convolve_view_round (a kernel i : nat) x y k h :
  a <> kernel -> h !! kernel = Some k ->
  (i < images x)%nat -> shape y = shape x -> well_shaped y ->
  get_block y i = get_block x i ->
  keeps_shape fft2 -> keeps_shape ifft2 -> broadcasts k (tl (shape x)) ->
  _fft_convolve_view C fft2 ifft2 multiply a i kernel (<[a := y]> h) =
    (<[a := set_block y i (convolved k (get_block x i))]> h, Ok tt).
Proof.
  intros Hak Hk Hi Hs Hwy Hb Hf Hif Hbr.
  assert (Hiy : (i < images y)%nat) by (rewrite Hs; exact Hi).
  assert (Hlb : length (data (get_block y i)) = block_size (shape y))
    by (apply length_get_block; assumption).
  destruct (Hf (get_block y i)) as [Hs1 Hl1].
  assert (Hbr' : broadcasts k (shape (get_block y i)))
    by (cbn; rewrite Hs; exact Hbr).
  destruct (convolved_spec k (get_block y i) Hf Hif Hbr')
    as (m & Hm & Hconv & Hsm & Hlm).
  rewrite <- Hb, Hconv.
  unfold _fft_convolve_view, deref, assign, mbind, lift.
  rewrite lookup_insert_eq. rewrite insert_insert_eq, lookup_insert_eq.
  rewrite lookup_insert_ne by congruence. rewrite Hk.
  rewrite (get_set_block C y i (fft2 (get_block y i)))
    by (auto; congruence).
  rewrite Hm. rewrite insert_insert_eq, lookup_insert_eq.
  rewrite (set_set_block C y i) by (auto; congruence).
  rewrite (get_set_block C y i m) by (auto; cbn in Hsm; congruence).
  rewrite insert_insert_eq.
  rewrite (set_set_block C y i) by (auto; congruence).
  reflexivity.
Qed.

Lemma convolve_loop (a kernel : nat) x k h :
  a <> kernel -> h !! a = Some x -> h !! kernel = Some k ->
  well_shaped x ->
  keeps_shape fft2 -> keeps_shape ifft2 -> broadcasts k (tl (shape x)) ->
  for_range C (fun i => _fft_convolve_view C fft2 ifft2 multiply a i kernel)
            0 (images x) h =
    (<[a := map_blocks (convolved k) x]> h, Ok tt).
Proof.
  intros Hak Ha Hk Hw Hf Hif Hbr.
  rewrite <- (insert_id h a x Ha) at 1.
  rewrite <- (partial_blocks_0 C x (convolved k)) at 2.
  apply (for_range_images C _ (convolved k) a x h Hw
           (convolved_keeps_images k x Hf Hif Hbr)); [|reflexivity].
  intros i y Hi Hs Hwy Hb.
  apply (convolve_view_round a kernel i x y k h); assumption.
Qed.

(** The loop of [ifft2] hands the whole array to [mkl_fft] in each round. *)
Lemma ifft2_loop_spec (ow : bool) (m : nat) : forall (a : nat) x h,
  h !! a = Some x -> length (shape x) = 3%nat ->
  exists r h',
    ifft2_loop C ifft2 a ow m h = (h', Ok r) /\
    h' !! r = Some (Nat.iter m (map_blocks ifft2) x) /\
    (forall l, l <> a -> h !! l <> None -> h' !! l = h !! l) /\
    (ow = false -> m <> 0%nat -> h' !! a = Some x).
Proof.
  induction m as [|m IH]; intros a x h Ha Hd.
  - exists a, h. cbn. repeat split; auto; contradiction.
  - cbn [ifft2_loop]. unfold mkl_ifft2, deref, assign, mret, mbind.
    rewrite Ha, Hd. cbn [Nat.eqb]. destruct ow.
    +
      destruct (IH a (map_blocks ifft2 x) (<[a := map_blocks ifft2 x]> h))
        as (r & h' & Hrun & Hr & Hkeep & _);
        [apply lookup_insert_eq|exact Hd|].
      exists r, h'. rewrite Hrun, Hr, Nat.iter_succ_r.
      repeat split; auto; [|discriminate].
      intros l Hl Hin. rewrite Hkeep; [apply lookup_insert_ne; congruence|exact Hl|].
      rewrite lookup_insert_ne by congruence. exact Hin.
    + pose proof (fresh_ref_not_allocated C h a x Ha) as Hfresh.
      set (l0 := fresh (dom h)) in *.
      destruct (IH l0 (map_blocks ifft2 x) (<[l0 := map_blocks ifft2 x]> h))
        as (r & h' & Hrun & Hr & Hkeep & _);
        [apply lookup_insert_eq|exact Hd|].
      exists r, h'. rewrite Hrun, Hr, Nat.iter_succ_r.
      assert (Hother : forall l, h !! l <> None -> h' !! l = h !! l).
      { intros l Hin.
        assert (Hl : l <> l0).
        { intros ->. apply Hin. apply not_elem_of_dom. apply is_fresh. }
        rewrite Hkeep; [apply lookup_insert_ne; congruence|exact Hl|].
        rewrite lookup_insert_ne by congruence. exact Hin. }
      repeat split; auto.
      intros _ _. rewrite Hother; [exact Ha|]. rewrite Ha. discriminate.
Qed.

Lemma shape_iter_map_blocks x f (m : nat) :
  shape (Nat.iter m (map_blocks f) x) = shape x.
Proof.
  induction m as [|m IH]; [reflexivity|]. rewrite Nat.iter_succ. exact IH.
Qed.

Lemma get_block_iter x f (m i : nat) :
  well_shaped x -> keeps_shape f -> (i < images x)%nat ->
  well_shaped (Nat.iter m (map_blocks f) x) /\
  shape (Nat.iter m (map_blocks f) x) = shape x /\
  get_block (Nat.iter m (map_blocks f) x) i = Nat.iter m f (get_block x i).
Proof.
  intros Hw Hf Hi. induction m as [|m (IHw & IHs & IHb)]; [auto|].
  rewrite !Nat.iter_succ. split; [|split].
  - apply well_shaped_map_blocks; [exact IHw|apply keeps_shape_images; exact Hf].
  - cbn. exact IHs.
  - rewrite get_block_map_blocks;
      [rewrite IHb; reflexivity|exact IHw|apply keeps_shape_images; exact Hf|].
    rewrite IHs. exact Hi.
Qed.

(** [fft2] of [device.py] on a stack of images. *)
Lemma device_fft2_spec (a : nat) (ow : bool) x h :
  h !! a = Some x -> length (shape x) = 3%nat ->
  well_shaped x -> keeps_shape fft2 ->
  let r := if ow then a else fresh (dom h) in
  device_fft2 C fft2 a ow h = (<[r := map_blocks fft2 x]> h, Ok r).
Proof.
  intros Ha Hd Hw Hf. cbn zeta.
  unfold device_fft2, copy, deref, mbind, mret. destruct ow; cbn [negb].
  - rewrite Ha, Hd. cbn [Nat.eqb].
    rewrite (fft2_loop a x h Ha Hw Hf). reflexivity.
  - rewrite Ha, lookup_insert_eq, Hd. cbn [Nat.eqb].
    rewrite (fft2_loop (fresh (dom h)) x _ (lookup_insert_eq _ _ _) Hw Hf).
    rewrite insert_insert_eq. reflexivity.
Qed.

End DeviceLoops.

(** X15. [fft2] of [device.py] on a stack of images transforms each image
    on its own: the array returned has the shape of the array passed in
    and its image [i] is the transform of the image [i]; with
    [overwrite_x=True] it is the array passed in, with [overwrite_x=False]
    it is a new array and the array passed in is unchanged; no other array
    is touched. *)
Theorem device_fft2_transforms_each_image (C : Type)
    (fft2 : DeviceModel.ndarray C -> DeviceModel.ndarray C)
    (a : nat) (overwrite_x : bool)
    (h : gmap nat (DeviceModel.ndarray C)) (x : DeviceModel.ndarray C) :
  h !! a = Some x ->
  length (DeviceModel.shape C x) = 3%nat ->
  DeviceModel.well_shaped C x ->
  DeviceModel.keeps_shape C fft2 ->
  exists r h' y,
    DeviceModel.device_fft2 C fft2 a overwrite_x h = (h', Ok r) /\
    h' !! r = Some y /\
    DeviceModel.shape C y = DeviceModel.shape C x /\
    (forall i, (i < hd 0%nat (DeviceModel.shape C x))%nat ->
       DeviceModel.get_block C y i = fft2 (DeviceModel.get_block C x i)) /\
    (if overwrite_x then r = a else h !! r = None /\ h' !! a = Some x) /\
    (forall l, l <> r -> h' !! l = h !! l).
Proof.
  intros Ha Hd Hw Hf.
  pose proof (device_fft2_spec C fft2 a overwrite_x x h Ha Hd Hw Hf) as Hrun.
  cbn zeta in Hrun.
  eexists _, _, _. split; [exact Hrun|].
  split; [apply lookup_insert_eq|]. split; [reflexivity|]. split; [|split].
  - intros i Hi. apply get_block_map_blocks; auto.
    apply keeps_shape_images. exact Hf.
  - destruct overwrite_x; [reflexivity|]. split.
    + apply not_elem_of_dom. apply is_fresh.
    + rewrite lookup_insert_ne; [exact Ha|].
      intros Heq. symmetry in Heq. revert Heq.
      eapply fresh_ref_not_allocated; eassumption.
  - intros l Hl. apply lookup_insert_ne. congruence.
Qed.

Lemma device_fft2_transforms_each_image_witness :
  let twice (x : DeviceModel.ndarray Z) :=
    DeviceModel.MkArray Z (DeviceModel.shape Z x)
                        (List.map (Z.mul 2) (DeviceModel.data Z x)) in
  let batch := DeviceModel.MkArray Z [2; 1; 2]%nat [1; 2; 3; 4] in
  let h : gmap nat (DeviceModel.ndarray Z) := {[0%nat := batch]} in
  exists r h' y,
    DeviceModel.device_fft2 Z twice 0%nat false h = (h', Ok r) /\
    h' !! r = Some y /\
    DeviceModel.shape Z y = [2; 1; 2]%nat /\
    (forall i, (i < 2)%nat ->
       DeviceModel.get_block Z y i = twice (DeviceModel.get_block Z batch i)) /\
    (h !! r = None /\ h' !! 0%nat = Some batch) /\
    (forall l, l <> r -> h' !! l = h !! l).
Proof.
  intros twice batch h.
  apply (device_fft2_transforms_each_image Z twice 0%nat false h batch).
  - reflexivity.
  - reflexivity.
  - reflexivity.
  - intros b. split; [reflexivity|]. cbn. apply length_map.
Defined.

(** X16. [ifft2] of [device.py] does not undo [fft2] on a stack of images:
    its loop hands the whole stack to [mkl_fft.ifft2] once for every
    image, so that after [fft2] and [ifft2] on a stack of [n] images, with
    an inverse transform that undoes the forward one, each image has had
    the inverse transform applied [n - 1] times too often (the stack comes
    back as it was when it holds a single image). *)
Theorem device_ifft2_after_fft2 (C : Type)
    (fft2 ifft2 : DeviceModel.ndarray C -> DeviceModel.ndarray C)
    (a : nat) (overwrite_x overwrite_x' : bool)
    (h : gmap nat (DeviceModel.ndarray C)) (x : DeviceModel.ndarray C) :
  h !! a = Some x ->
  length (DeviceModel.shape C x) = 3%nat ->
  DeviceModel.well_shaped C x ->
  DeviceModel.keeps_shape C fft2 ->
  DeviceModel.keeps_shape C ifft2 ->
  (forall z, ifft2 (fft2 z) = z) ->
  exists r1 h1 r2 h2 y,
    DeviceModel.device_fft2 C fft2 a overwrite_x h = (h1, Ok r1) /\
    DeviceModel.device_ifft2 C ifft2 r1 overwrite_x' h1 = (h2, Ok r2) /\
    h2 !! r2 = Some y /\
    DeviceModel.shape C y = DeviceModel.shape C x /\
    (forall i, (i < hd 0%nat (DeviceModel.shape C x))%nat ->
       DeviceModel.get_block C y i =
         Nat.iter (hd 0%nat (DeviceModel.shape C x) - 1) ifft2
                  (DeviceModel.get_block C x i)).
Proof.
  intros Ha Hd Hw Hf Hif Hinv.
  pose proof (device_fft2_spec C fft2 a overwrite_x x h Ha Hd Hw Hf) as Hrun.
  cbn zeta in Hrun.
  set (r1 := if overwrite_x then a else fresh (dom h)) in *.
  set (mb := DeviceModel.map_blocks C fft2 x) in *.
  set (h1 := <[r1 := mb]> h) in *.
  assert (H1 : h1 !! r1 = Some mb) by apply lookup_insert_eq.
  assert (Hwm : DeviceModel.well_shaped C mb).
  { apply well_shaped_map_blocks; [exact Hw|apply keeps_shape_images; exact Hf]. }
  destruct (ifft2_loop_spec C ifft2 overwrite_x'
              (hd 0%nat (DeviceModel.shape C x)) r1 mb h1 H1 Hd)
    as (r2 & h2 & Hloop & Hr2 & _).
  exists r1, h1, r2, h2. eexists.
  split; [exact Hrun|]. split; [|split; [exact Hr2|split]].
  - unfold DeviceModel.device_ifft2, DeviceModel.deref, mbind.
    rewrite H1. change (DeviceModel.shape C mb) with (DeviceModel.shape C x).
    rewrite Hd. cbn [Nat.eqb]. exact Hloop.
  - apply (shape_iter_map_blocks C mb ifft2).
  - intros i Hi.
    destruct (get_block_iter C mb ifft2 (hd 0%nat (DeviceModel.shape C x)) i
                Hwm Hif Hi) as (_ & _ & Hb).
    rewrite Hb. unfold mb.
    rewrite get_block_map_blocks by (auto; apply keeps_shape_images; exact Hf).
    destruct (hd 0%nat (DeviceModel.shape C x)) as [|n]; [lia|].
    rewrite Nat.iter_succ_r, Hinv. cbn [Nat.sub]. rewrite Nat.sub_0_r.
    reflexivity.
Qed.

Lemma device_ifft2_after_fft2_witness :
  let mirror (x : DeviceModel.ndarray Z) :=
    DeviceModel.MkArray Z (DeviceModel.shape Z x) (rev (DeviceModel.data Z x)) in
  let batch := DeviceModel.MkArray Z [2; 1; 2]%nat [1; 2; 3; 4] in
  let h : gmap nat (DeviceModel.ndarray Z) := {[0%nat := batch]} in
  exists r1 h1 r2 h2 y,
    DeviceModel.device_fft2 Z mirror 0%nat false h = (h1, Ok r1) /\
    DeviceModel.device_ifft2 Z mirror r1 true h1 = (h2, Ok r2) /\
    h2 !! r2 = Some y /\
    DeviceModel.shape Z y = [2; 1; 2]%nat /\
    (forall i, (i < 2)%nat ->
       DeviceModel.get_block Z y i =
         Nat.iter 1 mirror (DeviceModel.get_block Z batch i)).
Proof.
  intros mirror batch h.
  apply (device_ifft2_after_fft2 Z mirror mirror 0%nat false true h batch).
  - reflexivity.
  - reflexivity.
  - reflexivity.
  - intros b. split; [reflexivity|]. cbn. apply length_rev.
  - intros b. split; [reflexivity|]. cbn. apply length_rev.
  - intros [sh d]. unfold mirror. cbn. f_equal. apply rev_involutive.
Defined.

(** X17. [fft2_convolve] with [overwrite_x=True] on a stack of images
    convolves each image with the kernel on its own and in place: the call
    returns the array passed in, no other array is touched, the shape is
    kept, and the image [i] becomes the inverse transform of the product of
    the transform of the image [i] with the kernel. *)
Theorem fft2_convolve_in_place_on_each_image (C : Type)
    (fft2 ifft2 : DeviceModel.ndarray C -> DeviceModel.ndarray C)
    (multiply : DeviceModel.ndarray C -> DeviceModel.ndarray C ->
                result (DeviceModel.ndarray C))
    (a kernel : nat) (h : gmap nat (DeviceModel.ndarray C))
    (x k : DeviceModel.ndarray C) :
  a <> kernel ->
  h !! a = Some x -> h !! kernel = Some k ->
  length (DeviceModel.shape C x) = 3%nat ->
  DeviceModel.well_shaped C x ->
  DeviceModel.keeps_shape C fft2 ->
  DeviceModel.keeps_shape C ifft2 ->
  DeviceModel.broadcasts C multiply k (tl (DeviceModel.shape C x)) ->
  exists y,
    DeviceModel.fft2_convolve C fft2 ifft2 multiply a kernel true h
      = (<[a := y]> h, Ok a) /\
    DeviceModel.shape C y = DeviceModel.shape C x /\
    (forall i, (i < hd 0%nat (DeviceModel.shape C x))%nat ->
       exists m,
         multiply (fft2 (DeviceModel.get_block C x i)) k = Ok m /\
         DeviceModel.get_block C y i = ifft2 m).
Proof.
  intros Hak Ha Hk Hd Hw Hf Hif Hbr.
  exists (DeviceModel.map_blocks C (DeviceModel.convolved C fft2 ifft2 multiply k) x).
  split; [|split; [reflexivity|]].
  - unfold DeviceModel.fft2_convolve, DeviceModel.deref, mbind, mret.
    cbn [negb]. rewrite Ha, Hd. cbn [Nat.eqb andb].
    rewrite (convolve_loop C fft2 ifft2 multiply a kernel x k h); auto.
  - intros i Hi.
    rewrite get_block_map_blocks;
      [|exact Hw|apply convolved_keeps_images; assumption|exact Hi].
    destruct (convolved_spec C fft2 ifft2 multiply k (DeviceModel.get_block C x i)
                Hf Hif Hbr) as (m & Hm & Hc & _).
    exists m. auto.
Qed.

Lemma fft2_convolve_in_place_on_each_image_witness :
  let id_fft (x : DeviceModel.ndarray Z) := x in
  let mul (x k : DeviceModel.ndarray Z) :=
    Ok (DeviceModel.MkArray Z (DeviceModel.shape Z x)
          (List.map (Z.mul (hd 1 (DeviceModel.data Z k))) (DeviceModel.data Z x))) in
  let batch := DeviceModel.MkArray Z [2; 1; 2]%nat [1; 2; 3; 4] in
  let kern := DeviceModel.MkArray Z [1; 1]%nat [3] in
  let h : gmap nat (DeviceModel.ndarray Z) :=
    <[0%nat := batch]> (<[1%nat := kern]> ∅) in
  exists y,
    DeviceModel.fft2_convolve Z id_fft id_fft mul 0%nat 1%nat true h
      = (<[0%nat := y]> h, Ok 0%nat) /\
    DeviceModel.shape Z y = [2; 1; 2]%nat /\
    (forall i, (i < 2)%nat ->
       exists m,
         mul (id_fft (DeviceModel.get_block Z batch i)) kern = Ok m /\
         DeviceModel.get_block Z y i = id_fft m).
Proof.
  intros id_fft mul batch kern h.
  apply (fft2_convolve_in_place_on_each_image Z id_fft id_fft mul 0%nat 1%nat h
           batch kern).
  - lia.
  - reflexivity.
  - reflexivity.
  - reflexivity.
  - reflexivity.
  - intros b. split; reflexivity.
  - intros b. split; reflexivity.
  - intros b Hb. eexists. split; [reflexivity|]. split; [reflexivity|].
    cbn. apply length_map.
Defined.
(* ===================================================================== *)
(** ** Diffraction patterns                                                *)
(* ===================================================================== *)

Section CropFacts.

Import DetectModel.

Context {A : Type}.
Implicit Types (l : list A) (b : list (list A)).

Lemma length_slice (i j : nat) l :
  length (slice i j l) = Nat.min (j - i) (length l - i).
Proof. unfold slice. rewrite length_firstn, length_skipn. reflexivity. Qed.

Lemma slice_lookup (i j k : nat) l :
  (k < j - i)%nat -> slice i j l !! k = l !! (i + k)%nat.
Proof.
  intros Hk. unfold slice.
  change (firstn (j - i) (skipn i l)) with (take (j - i) (drop i l)).
  rewrite lookup_take_lt by exact Hk. apply lookup_drop.
Qed.

Lemma In_slice (i j : nat) l (x : A) : In x (slice i j l) -> In x l.
Proof.
  unfold slice. intros H.
  rewrite <- (firstn_skipn i l). apply in_app_iff. right.
  rewrite <- (firstn_skipn (j - i) (skipn i l)). apply in_app_iff. left. exact H.
Qed.

Lemma In_fftshift1 l (x : A) : In x (fftshift1 l) -> In x l.
Proof.
  unfold fftshift1. intros H.
  rewrite <- (firstn_skipn (length l - length l / 2) l).
  apply in_app_iff. apply in_app_iff in H. tauto.
Qed.

Lemma Forall_fftshift1 (P : A -> Prop) l : Forall P l -> Forall P (fftshift1 l).
Proof.
  rewrite !List.Forall_forall. intros H x Hx. apply H, In_fftshift1, Hx.
Qed.

End CropFacts.

Section CroppedImageFacts.

Import DetectModel.

Context {A : Type}.
Implicit Types (b : list (list A)).

(** The shifted image has the shape of the image. *)
Lemma fftshift_shape (H W : nat) b :
  length b = H -> Forall (fun row => length row = W) b ->
  length (fftshift b) = H /\ Forall (fun row => length row = W) (fftshift b).
Proof.
  intros Hl Hr. unfold fftshift. split.
  - rewrite length_fftshift1, length_map. exact Hl.
  - apply Forall_fftshift1. apply Forall_map.
    eapply Forall_impl; [exact Hr|]. cbn. intros row <-.
    apply length_fftshift1.
Qed.

(** The cropped image has half the rows and half the columns. *)
Lemma crop_to_center_shape (H W : nat) b :
  length b = H -> Forall (fun row => length row = W) b ->
  length (crop_to_center b) = (H / 2)%nat /\
  Forall (fun row => length row = (W / 2)%nat) (crop_to_center b).
Proof.
  intros Hl Hr. unfold crop_to_center. rewrite Hl.
  assert (Hh : (H / 2 <= H)%nat) by (apply Nat.Div0.div_le_upper_bound; lia).
  assert (Hq : (H / 2 / 2 <= H / 2)%nat) by (apply Nat.Div0.div_le_upper_bound; lia).
  assert (H2 : (2 * (H / 2) <= H)%nat) by (apply Nat.Div0.mul_div_le).
  split.
  - rewrite length_map, length_slice, Hl. lia.
  - apply Forall_map.
    assert (Hrows : Forall (fun row => length row = W)
                      (slice (H / 2 - H / 2 / 2) (H / 2 + (H / 2 - H / 2 / 2)) b)).
    { rewrite List.Forall_forall in Hr |- *. intros row Hin.
      apply Hr. eapply In_slice. exact Hin. }
    destruct b as [|row0 b'].
    { unfold slice. rewrite skipn_nil, firstn_nil. constructor. }
    apply Forall_cons in Hr as [H0 _]. cbn [hd]. rewrite H0.
    eapply Forall_impl; [exact Hrows|]. cbn beta. intros row Hrow.
    rewrite length_slice, Hrow.
    assert (W / 2 <= W)%nat by (apply Nat.Div0.div_le_upper_bound; lia).
    assert (W / 2 / 2 <= W / 2)%nat by (apply Nat.Div0.div_le_upper_bound; lia).
    assert (2 * (W / 2) <= W)%nat by (apply Nat.Div0.mul_div_le).
    lia.
Qed.

(** The element that the shift puts at the index [n / 2] of each axis sits
    at the index [n / 2 / 2] of the cropped image. *)
Lemma crop_to_center_centre (H W : nat) b (row : list A) (c : A) :
  length b = H -> Forall (fun row' => length row' = W) b ->
  (2 <= H)%nat -> (2 <= W)%nat ->
  b !! (H / 2)%nat = Some row -> row !! (W / 2)%nat = Some c ->
  exists row',
    crop_to_center b !! (H / 2 / 2)%nat = Some row' /\
    row' !! (W / 2 / 2)%nat = Some c.
Proof.
  intros Hl Hr H2 W2 Hrow Hc. unfold crop_to_center. rewrite Hl.
  assert (Hh : (1 <= H / 2)%nat) by (apply Nat.div_le_lower_bound; lia).
  assert (Hw : (1 <= W / 2)%nat) by (apply Nat.div_le_lower_bound; lia).
  assert (Hq : (H / 2 / 2 < H / 2)%nat) by (apply Nat.div_lt; lia).
  assert (Wq : (W / 2 / 2 < W / 2)%nat) by (apply Nat.div_lt; lia).
  destruct b as [|row0 b']; [discriminate|].
  pose proof Hr as Hr'. apply Forall_cons in Hr' as [H0 _]. cbn [hd]. rewrite H0.
  exists (slice (W / 2 - W / 2 / 2) (W / 2 + (W / 2 - W / 2 / 2)) row). split.
  - change (List.map ?f ?l) with (f <$> l).
    rewrite list_lookup_fmap, slice_lookup by lia.
    replace (H / 2 - H / 2 / 2 + H / 2 / 2)%nat with (H / 2)%nat by lia.
    rewrite Hrow. reflexivity.
  - rewrite slice_lookup by lia.
    replace (W / 2 - W / 2 / 2 + W / 2 / 2)%nat with (W / 2)%nat by lia.
    exact Hc.
Qed.

End CroppedImageFacts.

Section ShiftMapFacts.

Import DetectModel.

Context {A B : Type}.

Lemma map_fftshift1 (f : A -> B) (l : list A) :
  List.map f (fftshift1 l) = fftshift1 (List.map f l).
Proof.
  unfold fftshift1. rewrite List.map_app, length_map, skipn_map, firstn_map.
  reflexivity.
Qed.

Lemma map_slice (f : A -> B) (i j : nat) (l : list A) :
  List.map f (slice i j l) = slice i j (List.map f l).
Proof. unfold slice. rewrite skipn_map, firstn_map. reflexivity. Qed.

End ShiftMapFacts.

Section ImageMapFacts.

Import DetectModel.

Context {A B : Type}.

Lemma map_fftshift (f : A -> B) (b : list (list A)) :
  List.map (List.map f) (fftshift b) = fftshift (List.map (List.map f) b).
Proof.
  unfold fftshift. rewrite map_fftshift1, !List.map_map. f_equal.
  apply List.map_ext. intros row. apply map_fftshift1.
Qed.

Lemma map_crop_to_center (f : A -> B) (b : list (list A)) :
  List.map (List.map f) (crop_to_center b) = crop_to_center (List.map (List.map f) b).
Proof.
  unfold crop_to_center. rewrite length_map.
  assert (Hhd : length (hd [] (List.map (List.map f) b)) = length (hd [] b))
    by (destruct b; cbn; [reflexivity|apply length_map]).
  rewrite Hhd, <- map_slice, !List.map_map. apply List.map_ext.
  intros row. apply map_slice.
Qed.

End ImageMapFacts.

Lemma fftshift_axes_commute {A : Type} (b : list (list A)) :
  DetectModel.fftshift_rows_first b = DetectModel.fftshift b.
Proof.
  unfold DetectModel.fftshift_rows_first, DetectModel.fftshift.
  apply map_fftshift1.
Qed.

(** X18. The diffraction pattern of [PixelatedDetector.detect] fits the
    measurement that [allocate_measurement] allocates, and keeps the zero
    frequency in its centre: for a transform of [H] rows and [W] columns
    the result has [H // 2] rows of [W // 2] elements, and (for [H] and [W]
    of at least 2) its element of index [(H // 2 // 2, W // 2 // 2)] is the
    squared modulus of the element of index [(0, 0)] of the transform. *)
Theorem PixelatedDetector_detect_shape_and_centre (C : Type)
    (fft2 : list (list C) -> list (list C)) (abs2 : C -> Q)
    (array : list (list C)) (H W : nat) :
  length (fft2 array) = H ->
  Forall (fun row => length row = W) (fft2 array) ->
  let out := DetectModel.PixelatedDetector_detect C fft2 abs2 array in
  length out = fst (DetectModel.allocated_shape (H, W)) /\
  Forall (fun row => length row = snd (DetectModel.allocated_shape (H, W))) out /\
  ((2 <= H)%nat -> (2 <= W)%nat ->
   exists row0 c row,
     fft2 array !! 0%nat = Some row0 /\ row0 !! 0%nat = Some c /\
     out !! (H / 2 / 2)%nat = Some row /\
     row !! (W / 2 / 2)%nat = Some (abs2 c)).
Proof.
  intros Hl Hr. cbn zeta. unfold DetectModel.PixelatedDetector_detect.
  set (G := List.map (List.map abs2) (fft2 array)).
  assert (HG : length G = H) by (subst G; rewrite length_map; exact Hl).
  assert (RG : Forall (fun row => length row = W) G).
  { subst G. apply Forall_map. eapply Forall_impl; [exact Hr|].
    cbn. intros row <-. apply length_map. }
  destruct (fftshift_shape H W G HG RG) as [HS RS].
  destruct (crop_to_center_shape H W _ HS RS) as [Hc Rc].
  split; [exact Hc|]. split; [exact Rc|].
  intros H2 W2.
  destruct (fft2 array) as [|row0 rest] eqn:EF; [cbn in Hl; lia|].
  apply Forall_cons in Hr as [H0 _].
  destruct row0 as [|c row0']; [cbn in H0; lia|].
  exists (c :: row0'), c.
  assert (Hsh : DetectModel.shifted H 0 = (H / 2)%nat).
  { unfold DetectModel.shifted. cbn [Nat.add]. apply Nat.mod_small.
    apply Nat.div_lt; lia. }
  assert (Wsh : DetectModel.shifted W 0 = (W / 2)%nat).
  { unfold DetectModel.shifted. cbn [Nat.add]. apply Nat.mod_small.
    apply Nat.div_lt; lia. }
  destruct (crop_to_center_centre H W (DetectModel.fftshift G)
              (DetectModel.fftshift1 (List.map abs2 (c :: row0'))) (abs2 c)
              HS RS H2 W2) as (row & Hrow & Hcell).
  - unfold DetectModel.fftshift. rewrite <- Hsh.
    assert (HG' : length (List.map DetectModel.fftshift1 G) = H)
      by (rewrite length_map; exact HG).
    rewrite <- HG' at 1. rewrite fftshift1_lookup by lia.
    subst G. reflexivity.
  - rewrite <- Wsh.
    assert (HW : length (List.map abs2 (c :: row0')) = W)
      by (rewrite length_map; exact H0).
    rewrite <- HW at 1. rewrite fftshift1_lookup by lia. reflexivity.
  - exists row. auto.
Qed.

Lemma PixelatedDetector_detect_shape_and_centre_witness :
  let out := DetectModel.PixelatedDetector_detect Z (fun a => a)
               (fun z => inject_Z (z * z))
               [[1; 2; 3; 4]; [5; 6; 7; 8]; [9; 10; 11; 12]; [13; 14; 15; 16]] in
  length out = 2%nat /\
  Forall (fun row => length row = 2%nat) out /\
  ((2 <= 4)%nat -> (2 <= 4)%nat ->
   exists row0 c row,
     [[1; 2; 3; 4]; [5; 6; 7; 8]; [9; 10; 11; 12]; [13; 14; 15; 16]] !! 0%nat
       = Some row0 /\ row0 !! 0%nat = Some c /\
     out !! 1%nat = Some row /\
     row !! 1%nat = Some (inject_Z (c * c))).
Proof.
  apply (PixelatedDetector_detect_shape_and_centre Z (fun a => a)
           (fun z => inject_Z (z * z))
           [[1; 2; 3; 4]; [5; 6; 7; 8]; [9; 10; 11; 12]; [13; 14; 15; 16]] 4 4).
  - reflexivity.
  - repeat constructor.
Defined.

(** X19. [PixelatedDetector.detect] computes the far-field intensity:
    taking the squared modulus before the shift and the crop, and shifting
    the columns before the rows, gives for every image the result of
    [calculate_far_field_intensity]. *)
Theorem PixelatedDetector_detect_is_far_field_intensity (C : Type)
    (fft2 : list (list C) -> list (list C)) (abs2 : C -> Q)
    (array : list (list C)) :
  DetectModel.PixelatedDetector_detect C fft2 abs2 array =
  DetectModel.calculate_far_field_intensity C fft2 abs2 array.
Proof.
  unfold DetectModel.PixelatedDetector_detect,
         DetectModel.calculate_far_field_intensity.
  rewrite fftshift_axes_commute, map_crop_to_center, map_fftshift. reflexivity.
Qed.

(* ===================================================================== *)
(** ** The file of a detector                                              *)
(* ===================================================================== *)

Lemma endswith_refl (s : string) : DetectModel.endswith s s = true.
Proof. destruct s; cbn; [reflexivity|]. rewrite Ascii.eqb_refl, String.eqb_refl. reflexivity. Qed.

Lemma endswith_append (s suffix : string) :
  DetectModel.endswith (String.append s suffix) suffix = true.
Proof.
  induction s as [|a s IH].
  - apply endswith_refl.
  - change (String.append (String a s) suffix)
      with (String a (String.append s suffix)).
    cbn [DetectModel.endswith]. rewrite IH. apply orb_true_r.
Qed.

(** [endswith] is Python's [str.endswith]: the string is some prefix
    followed by the suffix. *)
Lemma endswith_spec (s suffix : string) :
  DetectModel.endswith s suffix = true <->
  exists p, s = String.append p suffix.
Proof.
  split.
  - induction s as [|a s IH]; cbn [DetectModel.endswith].
    + rewrite orb_false_r. intros H%String.eqb_eq. exists EmptyString. exact H.
    + intros [H%String.eqb_eq|H]%orb_true_iff.
      * exists EmptyString. exact H.
      * destruct (IH H) as [p ->]. exists (String a p). reflexivity.
  - intros [p ->]. apply endswith_append.
Qed.

(** X20. The file of a detector carries the suffix exactly once: without a
    name [AbstractDetector.__init__] stores [None]; a name that already
    ends with ['.hdf5'] is stored as it is, any other name is stored with
    ['.hdf5'] appended; so the stored name always ends with the suffix, and
    storing the stored name again changes nothing. *)
Theorem AbstractDetector_save_file_suffix (s : string) :
  let suffixed (t : string) := (exists p, t = String.append p ".hdf5") in
  DetectModel.AbstractDetector_init None = None /\
  exists s',
    DetectModel.AbstractDetector_init (Some s) = Some s' /\
    (suffixed s -> s' = s) /\
    (~ suffixed s -> s' = String.append s ".hdf5") /\
    suffixed s' /\
    DetectModel.AbstractDetector_init (Some s') = Some s'.
Proof.
  cbn zeta. split; [reflexivity|].
  unfold DetectModel.AbstractDetector_init.
  destruct (DetectModel.endswith s ".hdf5") eqn:E; cbn [negb].
  - exists s. rewrite E. cbn [negb].
    apply endswith_spec in E.
    split; [reflexivity|]. split; [reflexivity|].
    split; [intros H; contradiction|]. split; [exact E|reflexivity].
  - exists (String.append s ".hdf5").
    rewrite endswith_append. cbn [negb].
    split; [reflexivity|]. split.
    + intros H%endswith_spec. congruence.
    + split; [reflexivity|]. split; [exists s; reflexivity|reflexivity].
Qed.
(* ===================================================================== *)
(** ** The bins of a polar detector                                        *)
(* ===================================================================== *)

Section BinFacts.

Import DetectModel.


End BinFacts.

(* ===================================================================== *)
(** ** Axes and their metadata                                             *)
(* ===================================================================== *)

Section AxesFacts.

Import AxesModel.

Lemma length_range (lo hi : Z) : length (range lo hi) = Z.to_nat (hi - lo).
Proof. unfold range. rewrite length_map, length_seq. reflexivity. Qed.

Lemma map_seq_offset {B : Type} (n : nat) : forall (s : nat) (f : nat -> B),
  List.map f (seq s n) = List.map (fun k => f (s + k)%nat) (seq 0 n).
Proof.
  induction n as [|n IH]; intros s f; [reflexivity|].
  cbn [seq List.map]. rewrite Nat.add_0_r. f_equal.
  rewrite (IH (S s) f), (IH 1%nat (fun k => f (s + k)%nat)).
  apply List.map_ext. intros k. f_equal. lia.
Qed.

Lemma range_split (lo mid hi : Z) :
  lo <= mid <= hi -> range lo mid ++ range mid hi = range lo hi.
Proof.
  intros H. unfold range.
  replace (Z.to_nat (hi - lo)) with (Z.to_nat (mid - lo) + Z.to_nat (hi - mid))%nat
    by lia.
  rewrite seq_app, List.map_app. f_equal. cbn [Nat.add].
  rewrite (map_seq_offset _ (Z.to_nat (mid - lo))).
  apply List.map_ext. intros k. lia.
Qed.

Variable cls : axis_class.

Local Abbreviation step :=
  (fun (indices : list nat) (im : nat * axis_class) =>
     if isinstance (snd im) cls then indices ++ [fst im] else indices).
Local Abbreviation matches l k :=
  (List.map fst (List.filter (fun im : nat * axis_class => isinstance (snd im) cls)
                             (combine (seq k (length l)) l))).

(** The loop of [find_axes] appends the indices of the matches. *)
Lemma find_axes_loop (l : list axis_class) : forall (k : nat) (acc : list nat),
  fold_left step (combine (seq k (length l)) l) acc = acc ++ matches l k.
Proof.
  induction l as [|m l IH]; intros k acc; cbn [length seq combine fold_left].
  - cbn. symmetry. apply app_nil_r.
  - rewrite IH. cbn [List.filter snd fst].
    destruct (isinstance m cls); cbn [List.map fst].
    + rewrite <- app_assoc. reflexivity.
    + reflexivity.
Qed.

Lemma In_enumerate (l : list axis_class) : forall (k i : nat) (m : axis_class),
  In (i, m) (combine (seq k (length l)) l) <->
  (k <= i)%nat /\ l !! (i - k)%nat = Some m.
Proof.
  induction l as [|m0 l IH]; intros k i m; cbn [length seq combine In].
  - split; [contradiction|]. intros [_ H]. discriminate.
  - rewrite IH. split.
    + intros [[= <- <-]|[Hk Hl]].
      * split; [lia|]. rewrite Nat.sub_diag. reflexivity.
      * split; [lia|]. replace (i - k)%nat with (S (i - S k)) by lia. exact Hl.
    + intros [Hk Hl]. destruct (Nat.eq_dec i k) as [->|Hne].
      * left. rewrite Nat.sub_diag in Hl. cbn in Hl. congruence.
      * right. split; [lia|].
        replace (i - k)%nat with (S (i - S k)) in Hl by lia. exact Hl.
Qed.

Lemma In_matches (l : list axis_class) (i : nat) :
  In i (matches l 0) <->
  exists m, l !! i = Some m /\ isinstance m cls = true.
Proof.
  rewrite in_map_iff. split.
  - intros ([i' m] & <- & Hin). apply filter_In in Hin as [Hin Hm].
    apply In_enumerate in Hin as [_ Hl]. rewrite Nat.sub_0_r in Hl.
    exists m. auto.
  - intros (m & Hl & Hm). exists (i, m). split; [reflexivity|].
    apply filter_In. split; [|exact Hm].
    apply In_enumerate. rewrite Nat.sub_0_r. split; [lia|exact Hl].
Qed.

Lemma matches_sorted (l : list axis_class) : forall k,
  StronglySorted lt (matches l k) /\ Forall (fun i => (k <= i)%nat) (matches l k).
Proof.
  induction l as [|m l IH]; intros k; cbn [length seq combine List.filter snd].
  - cbn. split; constructor.
  - destruct (IH (S k)) as [Hs Hk].
    assert (Hk' : Forall (fun i => (k <= i)%nat) (matches l (S k))).
    { eapply Forall_impl; [exact Hk|]. cbn. intros. lia. }
    destruct (isinstance m cls); cbn [List.map fst].
    + split.
      * constructor; [exact Hs|]. eapply Forall_impl; [exact Hk|]. cbn. intros. lia.
      * constructor; [lia|exact Hk'].
    + split; assumption.
Qed.

End AxesFacts.

Lemma scan_axis_is_real_space (m : AxesModel.axis_class) :
  AxesModel.isinstance m AxesModel.ScanAxis = true ->
  AxesModel.isinstance m AxesModel.RealSpaceAxis = true.
Proof. destruct m; cbn; congruence. Qed.

Lemma find_axes_matches (a : AxesModel.HasAxes) (cls : AxesModel.axis_class) :
  AxesModel.find_axes a cls =
    List.map fst
      (List.filter (fun im : nat * AxesModel.axis_class =>
                      AxesModel.isinstance (snd im) cls)
                   (combine (seq 0 (length (AxesModel.axes_metadata a)))
                            (AxesModel.axes_metadata a))).
Proof.
  unfold AxesModel.find_axes, AxesModel.enumerate.
  rewrite (find_axes_loop cls). reflexivity.
Qed.

(** X22. When [_check_axes_metadata] passes, the index tuples split the
    axes of the array as the metadata lists do: [extra_axes] followed by
    [base_axes] is [0, 1, ..., num_axes - 1], and each of the two has as
    many indices as its metadata list has entries; the check raises
    [RuntimeError] exactly when the number of metadata entries differs from
    the number of axes. *)
Theorem axes_split_as_metadata (a : AxesModel.HasAxes) :
  match AxesModel._check_axes_metadata a with
  | Ok _ =>
      AxesModel.extra_axes a ++ AxesModel.base_axes a
        = AxesModel.range 0 (AxesModel.num_axes a) /\
      length (AxesModel.extra_axes a) = length (AxesModel.extra_axes_metadata a) /\
      length (AxesModel.base_axes a) = length (AxesModel.base_axes_metadata a)
  | Raise e =>
      e = RuntimeError no_message /\
      length (AxesModel.axes_metadata a) <> length (AxesModel.shape a)
  end.
Proof.
  unfold AxesModel._check_axes_metadata, AxesModel.num_axes.
  destruct (Z.eqb_spec (Z.of_nat (length (AxesModel.axes_metadata a)))
                       (Z.of_nat (length (AxesModel.shape a)))) as [E|E];
    cbn [negb].
  - unfold AxesModel.axes_metadata in E. rewrite length_app in E.
    unfold AxesModel.extra_axes, AxesModel.base_axes, AxesModel.num_extra_axes,
           AxesModel.num_axes, AxesModel.num_base_axes,
           AxesModel.extra_axes_metadata in *.
    split; [|split].
    + apply range_split. lia.
    + rewrite length_range. lia.
    + rewrite length_range. lia.
  - split; [reflexivity|]. intros H. apply E. rewrite H. reflexivity.
Qed.

(** X23. [find_axes(cls)] returns, in increasing order and without
    repetition, exactly the indices of the axes whose metadata is an
    instance of [cls]; in particular every scan axis is found among the
    real-space axes, and [scan_axes_metadata] has one entry for each scan
    axis, each an instance of [ScanAxis]. *)
Theorem find_axes_finds_the_instances (a : AxesModel.HasAxes)
    (cls : AxesModel.axis_class) :
  (forall i, In i (AxesModel.find_axes a cls) <->
     exists m, AxesModel.axes_metadata a !! i = Some m /\
               AxesModel.isinstance m cls = true) /\
  StronglySorted lt (AxesModel.find_axes a cls) /\
  (forall i, In i (AxesModel.scan_axes a) ->
             In i (AxesModel.find_axes a AxesModel.RealSpaceAxis)) /\
  length (AxesModel.scan_axes_metadata a) = AxesModel.num_scan_axes a /\
  Forall (fun m => AxesModel.isinstance m AxesModel.ScanAxis = true)
         (AxesModel.scan_axes_metadata a).
Proof.
  split; [|split; [|split; [|split]]].
  - intros i. rewrite find_axes_matches. apply In_matches.
  - rewrite find_axes_matches. apply matches_sorted.
  - intros i. unfold AxesModel.scan_axes. rewrite !find_axes_matches.
    rewrite !In_matches. intros (m & Hm & Hi). exists m.
    split; [exact Hm|apply scan_axis_is_real_space; exact Hi].
  - unfold AxesModel.scan_axes_metadata, AxesModel.num_scan_axes.
    assert (Hall : Forall (fun i => is_Some (AxesModel.axes_metadata a !! i))
                     (AxesModel.scan_axes a)).
    { apply List.Forall_forall. intros i Hi. unfold AxesModel.scan_axes in Hi.
      rewrite find_axes_matches in Hi. apply In_matches in Hi as (m & Hm & _).
      exists m. exact Hm. }
    induction Hall as [|i l [m Hm] Hall IH]; [reflexivity|].
    cbn. rewrite Hm. cbn. f_equal. exact IH.
  - unfold AxesModel.scan_axes_metadata.
    assert (Hall : Forall (fun i => exists m, AxesModel.axes_metadata a !! i = Some m /\
                                   AxesModel.isinstance m AxesModel.ScanAxis = true)
                     (AxesModel.scan_axes a)).
    { apply List.Forall_forall. intros i Hi. unfold AxesModel.scan_axes in Hi.
      rewrite find_axes_matches in Hi. apply In_matches in Hi. exact Hi. }
    induction Hall as [|i l (m & Hm & Hi) Hall IH]; [constructor|].
    cbn. rewrite Hm. cbn. constructor; assumption.
Qed.
(* ===================================================================== *)
(** ** The wave returned by [apply_ctf]                                    *)
(* ===================================================================== *)

(** X26. The wave returned by [apply_ctf] does not inherit the
    antialiasing cutoff of the wave it is computed from: whenever the call
    returns a wave, that wave has the default cutoff [2 / 3], while its
    extent, its tilt and its extra axes metadata are those of the original
    wave, its energy is the one the wave holds after the matching, and its
    array has at least two dimensions. *)
Theorem apply_ctf_resets_antialias_aperture (Arr : Type) (shape : Arr -> list nat)
    (CTF : Type) (evaluate_on_grid : CTF -> option Q -> WavesModel.Waves Arr -> Arr)
    (check_is_grid_defined : WavesModel.Waves Arr -> result unit)
    (fft2_convolve : Arr -> Arr -> bool -> result Arr)
    (w w' : WavesModel.Waves Arr) (ctf : CTF) (accelerator : EnergyModel.Energy)
    (in_place : bool) :
  snd (WavesModel.apply_ctf Arr shape CTF evaluate_on_grid check_is_grid_defined
         fft2_convolve w ctf accelerator in_place) = Ok w' ->
  WavesModel.antialias_aperture Arr w' = (2 # 3)%Q /\
  WavesModel.extent Arr w' = WavesModel.extent Arr w /\
  WavesModel.tilt Arr w' = WavesModel.tilt Arr w /\
  WavesModel.extra_axes_metadata Arr w' = WavesModel.extra_axes_metadata Arr w /\
  WavesModel.energy Arr w' =
    WavesModel.energy Arr
      (fst (fst (WavesModel.apply_ctf Arr shape CTF evaluate_on_grid
                   check_is_grid_defined fft2_convolve w ctf accelerator in_place))) /\
  (2 <= length (shape (WavesModel.array Arr w')))%nat.
Proof.
  unfold WavesModel.apply_ctf.
  destruct (EnergyModel.apply_ctf_energy _) as [[we acc'] r].
  cbn [fst snd]. destruct r as [[]|e]; cbn [Py.bind]; [|discriminate].
  unfold WavesModel.apply_ctf_rest.
  destruct (check_is_grid_defined _) as [[]|e]; cbn [Py.bind]; [|discriminate].
  destruct (fft2_convolve _ _ _) as [arr|e]; cbn [Py.bind]; [|discriminate].
  unfold WavesModel.Waves_init.
  destruct (Nat.ltb_spec (length (shape arr)) 2) as [|Hdim]; [discriminate|].
  intros [= <-]. cbn. repeat split. exact Hdim.
Qed.

Lemma apply_ctf_resets_antialias_aperture_witness :
  let run :=
    WavesModel.apply_ctf (list nat) (fun sh => sh) unit
      (fun _ _ w => WavesModel.array _ w) (fun _ => Ok tt) (fun a _ _ => Ok a) in
  let w := Examples.downsampled_wave in
  exists w',
    snd (run w tt (EnergyModel.MkEnergy None) false) = Ok w' /\
    WavesModel.antialias_aperture _ w = (1 # 3)%Q /\
    WavesModel.antialias_aperture _ w' = (2 # 3)%Q.
Proof.
  intros run w. eexists. split; [reflexivity|]. split; [reflexivity|].
  refine (proj1 (apply_ctf_resets_antialias_aperture (list nat) (fun sh => sh) unit
            (fun _ _ w0 => WavesModel.array _ w0) (fun _ => Ok tt)
            (fun a _ _ => Ok a) w _ tt (EnergyModel.MkEnergy None) false _)).
  reflexivity.
Defined.
(* ===================================================================== *)
(** ** A grid with three locked properties                                 *)
(* ===================================================================== *)

(** X27. A grid cannot have its three properties locked: each getter then
    asks the two others, so that reading any of the three raises
    [RecursionError], the decorated setters raise it when they read the old
    value (and leave the grid as it was), and the constructor, which reads
    the extent first, raises it when it is handed three locked
    properties. *)
Theorem fully_locked_grid_cannot_be_read (g : Grid) (pe pg ps : GridProperty)
    (v : pyval) (dims : nat) (ep : bool) :
  _locked pe = true -> _locked pg = true -> _locked ps = true ->
  _extent g = pe -> _gpts g = pg -> _sampling g = ps ->
  extent g = Raise RecursionError /\
  gpts g = Raise RecursionError /\
  sampling g = Raise RecursionError /\
  set_extent v g = (g, Raise RecursionError) /\
  set_gpts v g = (g, Raise RecursionError) /\
  set_sampling v g = (g, Raise RecursionError) /\
  Grid_init (AsProperty pe) (AsProperty pg) (AsProperty ps) dims ep
    = Raise RecursionError.
Proof.
  intros He Hg Hs <- <- <-.
  assert (Hread : extent g = Raise RecursionError /\
                  gpts g = Raise RecursionError /\
                  sampling g = Raise RecursionError).
  { rewrite extent_closed, gpts_closed, sampling_closed, He, Hg, Hs. auto. }
  destruct Hread as (Re & Rg & Rs).
  repeat split; try assumption.
  - unfold set_extent, notify, mbind, read. rewrite Re. reflexivity.
  - unfold set_gpts, notify, mbind, read. rewrite Rg. reflexivity.
  - unfold set_sampling, notify, mbind, read. rewrite Rs. reflexivity.
  - unfold Grid_init, property_of. cbn [Py.bind].
    unfold init_body, mbind, read.
    rewrite extent_closed. cbn [_extent _gpts _sampling]. rewrite He, Hg, Hs.
    reflexivity.
Qed.

Lemma fully_locked_grid_cannot_be_read_witness :
  Grid_init (AsProperty (MkProp DFloat 2 (Some [5; 5]%Q) true))
            (AsProperty (MkProp DInt 2 (Some [10; 10]%Q) true))
            (AsProperty (MkProp DFloat 2 (Some [5 # 10; 5 # 10]%Q) true)) 2 false
    = Raise RecursionError.
Proof.
  apply (fully_locked_grid_cannot_be_read
           (MkGrid 2 false (MkProp DFloat 2 (Some [5; 5]%Q) true)
                   (MkProp DInt 2 (Some [10; 10]%Q) true)
                   (MkProp DFloat 2 (Some [5 # 10; 5 # 10]%Q) true))
           _ _ _ PNone 2 false); reflexivity.
Defined.
